(** * Lima GPU driver: device bring-up, pipeline composition, broadcast unit

    A shallow embedding of [drivers/gpu/drm/lima/lima_device.c] and
    [drivers/gpu/drm/lima/lima_bcast.c].

    The C code is sequential and works on one [struct lima_device].  It is
    embedded as functions in a state monad over a [machine]: the device
    structure, the memory-mapped register file, and a log of the calls the
    driver makes into the rest of the kernel (clock, regulator, reset, DMA,
    platform resources, the scheduler and the per-block drivers).  Those
    callees are not part of the two files; each is represented by the value
    it returns, which the environment [kret] supplies.  A computation yields
    [None] where the C program has no defined behaviour (an array access
    out of bounds, a dereference of a null [ip->dev] or of a null cell of
    a pipeline list, a shift by an invalid amount). *)

From Stdlib Require Import ZArith Lia.
From stdpp Require Import base option list gmap strings.

Local Open Scope Z_scope.

(** ** Enumerations of [lima_device.h]

    Modelled from the spec: the header that declares [enum lima_gpu_id],
    [enum lima_pipe_id] and [enum lima_ip_id] is not part of the tree.
    The slot kinds are numbered in the kind order of the specification's
    data model, which is the order in which the descriptor table lists
    its rows; the code relies on [pp0..pp7], [ppmmu0..ppmmu7] and
    [l2_cache0..l2_cache2] being consecutive. *)

Inductive lima_gpu_id := lima_gpu_mali400 | lima_gpu_mali450.

Inductive lima_pipe_id := lima_pipe_gp | lima_pipe_pp.

Global Instance lima_gpu_id_eq_dec : EqDecision lima_gpu_id.
Proof. solve_decision. Defined.

Global Instance lima_pipe_id_eq_dec : EqDecision lima_pipe_id.
Proof. solve_decision. Defined.

Definition lima_ip_pmu : nat := 0.
Definition lima_ip_l2_cache0 : nat := 1.
Definition lima_ip_l2_cache1 : nat := 2.
Definition lima_ip_l2_cache2 : nat := 3.
Definition lima_ip_gp : nat := 4.
Definition lima_ip_pp0 : nat := 5.
Definition lima_ip_pp1 : nat := 6.
Definition lima_ip_pp2 : nat := 7.
Definition lima_ip_pp3 : nat := 8.
Definition lima_ip_pp4 : nat := 9.
Definition lima_ip_pp5 : nat := 10.
Definition lima_ip_pp6 : nat := 11.
Definition lima_ip_pp7 : nat := 12.
Definition lima_ip_gpmmu : nat := 13.
Definition lima_ip_ppmmu0 : nat := 14.
Definition lima_ip_ppmmu1 : nat := 15.
Definition lima_ip_ppmmu2 : nat := 16.
Definition lima_ip_ppmmu3 : nat := 17.
Definition lima_ip_ppmmu4 : nat := 18.
Definition lima_ip_ppmmu5 : nat := 19.
Definition lima_ip_ppmmu6 : nat := 20.
Definition lima_ip_ppmmu7 : nat := 21.
Definition lima_ip_dlbu : nat := 22.
Definition lima_ip_bcast : nat := 23.
Definition lima_ip_pp_bcast : nat := 24.
Definition lima_ip_ppmmu_bcast : nat := 25.
Definition lima_ip_num : nat := 26.

(** Modelled from the spec: the capacities of a pipeline's three lists
    (they are macros of [lima_sched.h], which is not in the tree): at most
    3 L2 caches, 8 MMUs and 8 processors. *)
Definition LIMA_SCHED_PIPE_MAX_MMU : nat := 8.
Definition LIMA_SCHED_PIPE_MAX_L2_CACHE : nat := 3.
Definition LIMA_SCHED_PIPE_MAX_PROCESSOR : nat := 8.

(** Error numbers of the kernel ([errno-base.h] and [err.h], which are
    not part of the tree). *)
Definition ENOMEM : Z := 12.
Definition ENODEV : Z := 19.
Definition MAX_ERRNO : Z := 4095.

(** Pointers are addresses; [ERR_PTR(e)] is the address [e] itself, which
    lies in the last page of the address space (read as a signed number:
    [-MAX_ERRNO <= e < 0]). *)
Definition NULL : Z := 0.
Definition IS_ERR (p : Z) : bool := (- MAX_ERRNO <=? p) && (p <? 0).
Definition PTR_ERR (p : Z) : Z := p.

(** ** The descriptor table *)

(** The init/fini pair of a row, [lima_##func##_init] and
    [lima_##func##_fini]. *)
Inductive lima_ip_func :=
  | func_pmu | func_l2_cache | func_gp | func_pp | func_mmu
  | func_dlbu | func_bcast | func_pp_bcast.

Record lima_ip_desc_t := {
  name : string;
  irq_name : option string;
  must_have : lima_gpu_id → bool;
  offset : lima_gpu_id → Z;
  func : lima_ip_func;
}.

Definition LIMA_IP_DESC (ipname : string) (mst0 mst1 : bool) (off0 off1 : Z)
    (f : lima_ip_func) (irq : option string) : lima_ip_desc_t :=
  {| name := ipname;
     irq_name := irq;
     must_have := λ g, match g with
                       | lima_gpu_mali400 => mst0
                       | lima_gpu_mali450 => mst1
                       end;
     offset := λ g, match g with
                    | lima_gpu_mali400 => off0
                    | lima_gpu_mali450 => off1
                    end;
     func := f |}.

Definition lima_ip_desc : list lima_ip_desc_t := [
  LIMA_IP_DESC "pmu"         false false 0x02000 0x02000 func_pmu      (Some "pmu");
  LIMA_IP_DESC "l2_cache0"   true  true  0x01000 0x10000 func_l2_cache None;
  LIMA_IP_DESC "l2_cache1"   false true  (-1)    0x01000 func_l2_cache None;
  LIMA_IP_DESC "l2_cache2"   false false (-1)    0x11000 func_l2_cache None;
  LIMA_IP_DESC "gp"          true  true  0x00000 0x00000 func_gp       (Some "gp");
  LIMA_IP_DESC "pp0"         true  true  0x08000 0x08000 func_pp       (Some "pp0");
  LIMA_IP_DESC "pp1"         false false 0x0A000 0x0A000 func_pp       (Some "pp1");
  LIMA_IP_DESC "pp2"         false false 0x0C000 0x0C000 func_pp       (Some "pp2");
  LIMA_IP_DESC "pp3"         false false 0x0E000 0x0E000 func_pp       (Some "pp3");
  LIMA_IP_DESC "pp4"         false false (-1)    0x28000 func_pp       (Some "pp4");
  LIMA_IP_DESC "pp5"         false false (-1)    0x2A000 func_pp       (Some "pp5");
  LIMA_IP_DESC "pp6"         false false (-1)    0x2C000 func_pp       (Some "pp6");
  LIMA_IP_DESC "pp7"         false false (-1)    0x2E000 func_pp       (Some "pp7");
  LIMA_IP_DESC "gpmmu"       true  true  0x03000 0x03000 func_mmu      (Some "gpmmu");
  LIMA_IP_DESC "ppmmu0"      true  true  0x04000 0x04000 func_mmu      (Some "ppmmu0");
  LIMA_IP_DESC "ppmmu1"      false false 0x05000 0x05000 func_mmu      (Some "ppmmu1");
  LIMA_IP_DESC "ppmmu2"      false false 0x06000 0x06000 func_mmu      (Some "ppmmu2");
  LIMA_IP_DESC "ppmmu3"      false false 0x07000 0x07000 func_mmu      (Some "ppmmu3");
  LIMA_IP_DESC "ppmmu4"      false false (-1)    0x1C000 func_mmu      (Some "ppmmu4");
  LIMA_IP_DESC "ppmmu5"      false false (-1)    0x1D000 func_mmu      (Some "ppmmu5");
  LIMA_IP_DESC "ppmmu6"      false false (-1)    0x1E000 func_mmu      (Some "ppmmu6");
  LIMA_IP_DESC "ppmmu7"      false false (-1)    0x1F000 func_mmu      (Some "ppmmu7");
  LIMA_IP_DESC "dlbu"        false true  (-1)    0x14000 func_dlbu     None;
  LIMA_IP_DESC "bcast"       false true  (-1)    0x13000 func_bcast    None;
  LIMA_IP_DESC "pp_bcast"    false true  (-1)    0x16000 func_pp_bcast (Some "pp");
  LIMA_IP_DESC "ppmmu_bcast" false true  (-1)    0x15000 func_mmu      None
].

(** ** Run-time structures *)

(** A [struct lima_device *] held by a block instance: there is one device
    in the machine, so the pointer is null or points to it. *)
Inductive lima_device_ptr := dev_null | dev_this.

(** [struct lima_ip].  A pointer to an instance is its index in
    [dev->ip]; the code forms such pointers only as [dev->ip + k]. *)
Record lima_ip := {
  ip_dev : lima_device_ptr;
  ip_id : nat;
  ip_iomem : Z;
  ip_irq : Z;
  ip_present : bool;
}.

(** The part of [struct lima_sched_pipe] that the two files touch.  Array
    cells hold [Some k] for the pointer [dev->ip + k] and [None] for a
    null pointer. *)
Record lima_sched_pipe := {
  l2_cache : list (option nat);
  num_l2_cache : nat;
  mmu : list (option nat);
  num_mmu : nat;
  processor : list (option nat);
  num_processor : nat;
  bcast_processor : option nat;
  bcast_mmu : option nat;
}.

Record lima_device := {
  ldev_id : lima_gpu_id;
  clk_bus : Z;
  clk_gpu : Z;
  reset : Z;
  regulator : Z;
  empty_vm : Z;
  va_start : Z;
  va_end : Z;
  dlbu_cpu : Z;
  dlbu_dma : Z;
  ldev_iomem : Z;
  ip : list lima_ip;
  pipe_gp : lima_sched_pipe;
  pipe_pp : lima_sched_pipe;
}.

(** A device as the probe function hands it to [lima_device_init]:
    allocated zeroed, with the chip variant filled in. *)
Definition lima_ip_zero : lima_ip :=
  {| ip_dev := dev_null; ip_id := 0; ip_iomem := NULL; ip_irq := 0;
     ip_present := false |}.

Definition lima_sched_pipe_zero : lima_sched_pipe :=
  {| l2_cache := replicate LIMA_SCHED_PIPE_MAX_L2_CACHE None;
     num_l2_cache := 0;
     mmu := replicate LIMA_SCHED_PIPE_MAX_MMU None;
     num_mmu := 0;
     processor := replicate LIMA_SCHED_PIPE_MAX_PROCESSOR None;
     num_processor := 0;
     bcast_processor := None;
     bcast_mmu := None |}.

Definition lima_device_zero (id : lima_gpu_id) : lima_device :=
  {| ldev_id := id;
     clk_bus := NULL; clk_gpu := NULL; reset := NULL; regulator := NULL;
     empty_vm := NULL; va_start := 0; va_end := 0;
     dlbu_cpu := NULL; dlbu_dma := 0; ldev_iomem := NULL;
     ip := replicate lima_ip_num lima_ip_zero;
     pipe_gp := lima_sched_pipe_zero;
     pipe_pp := lima_sched_pipe_zero |}.

(** ** Calls that leave the two files *)

Inductive kcall :=
  | dma_set_coherent_mask
  | devm_clk_get (id : string)
  | clk_get_rate (clk : Z)
  | clk_prepare_enable (clk : Z)
  | clk_disable_unprepare (clk : Z)
  | devm_reset_control_get_optional
  | reset_control_deassert (rst : Z)
  | reset_control_assert (rst : Z)
  | devm_regulator_get_optional
  | regulator_enable (reg : Z)
  | regulator_disable (reg : Z)
  | lima_vm_create
  | lima_vm_put (vm : Z)
  | dma_alloc_wc
  | dma_free_wc (cpu dma : Z)
  | platform_get_resource
  | devm_ioremap_resource (res : Z)
  | platform_get_irq_byname (irq : string)
  | desc_init (index : nat)          (* desc->init(ip), ip = dev->ip + index *)
  | desc_fini (index : nat)          (* desc->fini(ip) *)
  | lima_sched_pipe_init (p : lima_pipe_id)
  | lima_sched_pipe_fini (p : lima_pipe_id)
  | lima_gp_pipe_init
  | lima_gp_pipe_fini
  | lima_pp_pipe_init
  | lima_pp_pipe_fini.

Global Instance kcall_eq_dec : EqDecision kcall.
Proof. solve_decision. Defined.

(** One entry of the call log: the call, the value it returned (0 for a
    call returning [void]), and the device structure as it was when the
    call was made. *)
Record klog_entry := { k_call : kcall; k_ret : Z; k_at : lima_device }.

Record machine := {
  ldev : lima_device;
  mmio : gmap Z Z;
  klog : list klog_entry;
}.

Definition calls (m : machine) : list kcall := k_call <$> klog m.

(** ** The monad *)

Definition M (A : Type) : Type := machine → option (A * machine).

Global Instance M_ret : MRet M := λ A x m, Some (x, m).
Global Instance M_bind : MBind M := λ A B f c m,
  match c m with
  | Some (x, m') => f x m'
  | None => None
  end.

Definition undefined {A} : M A := λ _, None.

Definition get_dev : M lima_device := λ m, Some (ldev m, m).

Definition modify_dev (f : lima_device → lima_device) : M unit :=
  λ m, Some (tt, {| ldev := f (ldev m); mmio := mmio m; klog := klog m |}).

(** 32-bit integers: [u32] and [int] values as numbers, with the
    conversions between them. *)
Definition to_u32 (z : Z) : Z := z mod 2 ^ 32.
Definition to_int (z : Z) : Z := (z + 2 ^ 31) mod 2 ^ 32 - 2 ^ 31.

(** [readl] and [writel]: the register file is a store of 32-bit values
    by address.  A register never written holds its reset value, which is
    whatever the initial [mmio] says (0 where it says nothing). *)
Definition readl (base reg : Z) : M Z := λ m,
  Some (default 0 (mmio m !! (base + reg)), m).

Definition writel (data base reg : Z) : M unit := λ m,
  Some (tt, {| ldev := ldev m;
               mmio := <[base + reg := to_u32 data]> (mmio m);
               klog := klog m |}).

(** ** What the two files take from outside

    [kret] is the value each outside call returns and [dma_handle] the
    device-visible address [dma_alloc_wc] stores through its
    out-parameter.  [lima_consts] holds the constants of [lima_regs.h] and
    [lima_device.h] that the code names; neither header is in the tree. *)
Class kernel_env := {
  kret : kcall → Z;
  dma_handle : Z;
}.

Class lima_consts := {
  LIMA_BCAST_BROADCAST_MASK : Z;
  LIMA_BCAST_INTERRUPT_MASK : Z;
  LIMA_VA_RESERVE_START : Z;
  LIMA_VA_RESERVE_END : Z;
}.

Section Lima.

Context {K : kernel_env} {C : lima_consts}.

Definition log_call (c : kcall) (r : Z) (at_dev : lima_device) (m : machine)
    : machine :=
  {| ldev := ldev m; mmio := mmio m;
     klog := klog m ++ [{| k_call := c; k_ret := r; k_at := at_dev |}] |}.

Definition call (c : kcall) : M Z :=
  λ m, Some (kret c, log_call c (kret c) (ldev m) m).

Definition call_void (c : kcall) : M unit :=
  λ m, Some (tt, log_call c 0 (ldev m) m).

(** Loops over a range of indices, threading an accumulator. *)
Fixpoint for_each {A} (body : A → nat → M A) (acc : A) (l : list nat) : M A :=
  match l with
  | [] => mret acc
  | i :: l' => a ← body acc i; for_each body a l'
  end.

(** *** Field updates *)

Definition set_ip_array (l : list lima_ip) (d : lima_device) : lima_device :=
  {| ldev_id := ldev_id d; clk_bus := clk_bus d; clk_gpu := clk_gpu d;
     reset := reset d; regulator := regulator d; empty_vm := empty_vm d;
     va_start := va_start d; va_end := va_end d; dlbu_cpu := dlbu_cpu d;
     dlbu_dma := dlbu_dma d; ldev_iomem := ldev_iomem d; ip := l;
     pipe_gp := pipe_gp d; pipe_pp := pipe_pp d |}.

Definition set_pipe (p : lima_pipe_id) (x : lima_sched_pipe) (d : lima_device)
    : lima_device :=
  {| ldev_id := ldev_id d; clk_bus := clk_bus d; clk_gpu := clk_gpu d;
     reset := reset d; regulator := regulator d; empty_vm := empty_vm d;
     va_start := va_start d; va_end := va_end d; dlbu_cpu := dlbu_cpu d;
     dlbu_dma := dlbu_dma d; ldev_iomem := ldev_iomem d; ip := ip d;
     pipe_gp := match p with lima_pipe_gp => x | lima_pipe_pp => pipe_gp d end;
     pipe_pp := match p with lima_pipe_gp => pipe_pp d | lima_pipe_pp => x end |}.

Definition get_pipe (p : lima_pipe_id) (d : lima_device) : lima_sched_pipe :=
  match p with lima_pipe_gp => pipe_gp d | lima_pipe_pp => pipe_pp d end.

(** The scalar fields of the device that bring-up assigns. *)
Inductive ldev_field :=
  | f_clk_bus | f_clk_gpu | f_reset | f_regulator | f_empty_vm
  | f_va_start | f_va_end | f_dlbu_cpu | f_dlbu_dma | f_iomem.

Definition set_field (f : ldev_field) (v : Z) (d : lima_device) : lima_device :=
  {| ldev_id := ldev_id d;
     clk_bus := match f with f_clk_bus => v | _ => clk_bus d end;
     clk_gpu := match f with f_clk_gpu => v | _ => clk_gpu d end;
     reset := match f with f_reset => v | _ => reset d end;
     regulator := match f with f_regulator => v | _ => regulator d end;
     empty_vm := match f with f_empty_vm => v | _ => empty_vm d end;
     va_start := match f with f_va_start => v | _ => va_start d end;
     va_end := match f with f_va_end => v | _ => va_end d end;
     dlbu_cpu := match f with f_dlbu_cpu => v | _ => dlbu_cpu d end;
     dlbu_dma := match f with f_dlbu_dma => v | _ => dlbu_dma d end;
     ldev_iomem := match f with f_iomem => v | _ => ldev_iomem d end;
     ip := ip d; pipe_gp := pipe_gp d; pipe_pp := pipe_pp d |}.

Definition assign (f : ldev_field) (v : Z) : M unit := modify_dev (set_field f v).

(** [dev->ip + index], read and updated in place. *)
Definition ip_at (index : nat) : M lima_ip := λ m,
  match ip (ldev m) !! index with
  | Some x => Some (x, m)
  | None => None
  end.

Definition update_ip (index : nat) (f : lima_ip → lima_ip) : M unit :=
  x ← ip_at index;
  modify_dev (λ d, set_ip_array (<[index := f x]> (ip d)) d).

Definition desc_at (index : nat) : M lima_ip_desc_t := λ m,
  match lima_ip_desc !! index with
  | Some d => Some (d, m)
  | None => None
  end.

(** [pipe->l2_cache[pipe->num_l2_cache++] = x], and the same for the
    other two lists; a store past the end of the array is not defined. *)
Definition push_l2_cache (x : nat) (p : lima_sched_pipe) : option lima_sched_pipe :=
  if decide (num_l2_cache p < length (l2_cache p))%nat then
    Some {| l2_cache := <[num_l2_cache p := Some x]> (l2_cache p);
            num_l2_cache := S (num_l2_cache p);
            mmu := mmu p; num_mmu := num_mmu p;
            processor := processor p; num_processor := num_processor p;
            bcast_processor := bcast_processor p; bcast_mmu := bcast_mmu p |}
  else None.

Definition push_mmu (x : nat) (p : lima_sched_pipe) : option lima_sched_pipe :=
  if decide (num_mmu p < length (mmu p))%nat then
    Some {| l2_cache := l2_cache p; num_l2_cache := num_l2_cache p;
            mmu := <[num_mmu p := Some x]> (mmu p);
            num_mmu := S (num_mmu p);
            processor := processor p; num_processor := num_processor p;
            bcast_processor := bcast_processor p; bcast_mmu := bcast_mmu p |}
  else None.

Definition push_processor (x : nat) (p : lima_sched_pipe) : option lima_sched_pipe :=
  if decide (num_processor p < length (processor p))%nat then
    Some {| l2_cache := l2_cache p; num_l2_cache := num_l2_cache p;
            mmu := mmu p; num_mmu := num_mmu p;
            processor := <[num_processor p := Some x]> (processor p);
            num_processor := S (num_processor p);
            bcast_processor := bcast_processor p; bcast_mmu := bcast_mmu p |}
  else None.

Definition set_bcast (pr mm : nat) (p : lima_sched_pipe) : option lima_sched_pipe :=
  Some {| l2_cache := l2_cache p; num_l2_cache := num_l2_cache p;
          mmu := mmu p; num_mmu := num_mmu p;
          processor := processor p; num_processor := num_processor p;
          bcast_processor := Some pr; bcast_mmu := Some mm |}.

Definition on_pipe (p : lima_pipe_id)
    (f : lima_sched_pipe → option lima_sched_pipe) : M unit := λ m,
  match f (get_pipe p (ldev m)) with
  | Some x => Some (tt, {| ldev := set_pipe p x (ldev m); mmio := mmio m;
                           klog := klog m |})
  | None => None
  end.

(** *** lima_bcast.c *)

(** [1 << k] on [int]. *)
Definition shl1 (k : Z) : M Z :=
  if decide (0 ≤ k < 32) then mret (to_int (Z.shiftl 1 k)) else undefined.

Definition lima_bcast_enable (num_pp : Z) : M unit :=
  x ← ip_at lima_ip_bcast;
  v ← readl (ip_iomem x) LIMA_BCAST_BROADCAST_MASK;
  mask ← for_each
    (λ mask i,
       d ← get_dev;
       match processor (pipe_pp d) !! i with
       | Some (Some k) =>
           pp ← ip_at k;
           bit ← shl1 (Z.of_nat (ip_id pp) - Z.of_nat lima_ip_pp0);
           mret (Z.lor mask bit)
       | _ => undefined
       end)
    (to_int (Z.land v 0xffff0000)) (seq 0 (Z.to_nat num_pp));
  writel mask (ip_iomem x) LIMA_BCAST_BROADCAST_MASK.

(** The loop of [lima_bcast_init]:
    [for (i = lima_ip_pp0; i <= lima_ip_pp7; i++)
       if (ip->dev->ip[i].present) mask |= 1 << (i - lima_ip_pp0);] *)
Definition lima_bcast_init (index : nat) : M Z :=
  x ← ip_at index;
  match ip_dev x with
  | dev_null => undefined
  | dev_this =>
      mask ← for_each
        (λ mask i,
           y ← ip_at i;
           if ip_present y then
             bit ← shl1 (Z.of_nat i - Z.of_nat lima_ip_pp0);
             mret (Z.lor mask bit)
           else mret mask)
        0 (seq lima_ip_pp0 (S lima_ip_pp7 - lima_ip_pp0));
      writel (Z.shiftl mask 16) (ip_iomem x) LIMA_BCAST_BROADCAST_MASK;;
      writel mask (ip_iomem x) LIMA_BCAST_INTERRUPT_MASK;;
      mret 0
  end.

Definition lima_bcast_fini (index : nat) : M unit := mret tt.

(** *** lima_device.c *)

Definition lima_clk_init : M Z :=
  bus ← call (devm_clk_get "bus");
  assign f_clk_bus bus;;
  if IS_ERR bus then mret (PTR_ERR bus) else
  gpu ← call (devm_clk_get "core");
  assign f_clk_gpu gpu;;
  if IS_ERR gpu then mret (PTR_ERR gpu) else
  call (clk_get_rate bus);;
  call (clk_get_rate gpu);;
  let error_out0 (err : Z) : M Z :=
    call_void (clk_disable_unprepare bus);; mret err in
  let error_out1 (err : Z) : M Z :=
    call_void (clk_disable_unprepare gpu);; error_out0 err in
  err ← call (clk_prepare_enable bus);
  if decide (err ≠ 0) then mret err else
  err ← call (clk_prepare_enable gpu);
  if decide (err ≠ 0) then error_out0 err else
  rst ← call devm_reset_control_get_optional;
  assign f_reset rst;;
  if IS_ERR rst then error_out1 (PTR_ERR rst)
  else if decide (rst ≠ NULL) then
    err ← call (reset_control_deassert rst);
    if decide (err ≠ 0) then error_out1 err else mret 0
  else mret 0.

Definition lima_clk_fini : M unit :=
  d ← get_dev;
  (if decide (reset d ≠ NULL) then call_void (reset_control_assert (reset d))
   else mret tt);;
  call_void (clk_disable_unprepare (clk_gpu d));;
  call_void (clk_disable_unprepare (clk_bus d)).

Definition lima_regulator_init : M Z :=
  reg ← call devm_regulator_get_optional;
  assign f_regulator reg;;
  if IS_ERR reg then
    let ret := PTR_ERR reg in
    assign f_regulator NULL;;
    if decide (ret = - ENODEV) then mret 0 else mret ret
  else
    ret ← call (regulator_enable reg);
    if decide (ret < 0) then mret ret else mret 0.

Definition lima_regulator_fini : M unit :=
  d ← get_dev;
  if decide (regulator d ≠ NULL) then call_void (regulator_disable (regulator d))
  else mret tt.

(** [desc->init(ip)] and [desc->fini(ip)].  The call is logged whichever
    function the row names; the broadcast unit's pair is the one defined
    in these files, so its body runs here. *)
Definition call_desc_init (desc : lima_ip_desc_t) (index : nat) : M Z :=
  match func desc with
  | func_bcast => λ m,
      match lima_bcast_init index m with
      | Some (r, m') => Some (r, log_call (desc_init index) r (ldev m) m')
      | None => None
      end
  | _ => call (desc_init index)
  end.

Definition call_desc_fini (desc : lima_ip_desc_t) (index : nat) : M unit :=
  match func desc with
  | func_bcast => call_void (desc_fini index);; lima_bcast_fini index
  | _ => call_void (desc_fini index)
  end.

Definition ip_assign_window (index : nat) (iomem : Z) (x : lima_ip) : lima_ip :=
  {| ip_dev := dev_this; ip_id := index; ip_iomem := iomem;
     ip_irq := ip_irq x; ip_present := ip_present x |}.

Definition ip_assign_irq (irq : Z) (x : lima_ip) : lima_ip :=
  {| ip_dev := ip_dev x; ip_id := ip_id x; ip_iomem := ip_iomem x;
     ip_irq := irq; ip_present := ip_present x |}.

Definition ip_assign_present (x : lima_ip) : lima_ip :=
  {| ip_dev := ip_dev x; ip_id := ip_id x; ip_iomem := ip_iomem x;
     ip_irq := ip_irq x; ip_present := true |}.

(** [lima_init_ip] once [desc = lima_ip_desc + index] has been taken. *)
Definition init_ip_body (desc : lima_ip_desc_t) (index : nat) : M Z :=
  dev ← get_dev;
  let offset := offset desc (ldev_id dev) in
  let must := must_have desc (ldev_id dev) in
  let out (err : Z) : M Z := mret (if must then err else 0) in
  if decide (offset < 0) then mret 0 else
  update_ip index (ip_assign_window index (ldev_iomem dev + offset));;
  let init : M Z :=
    err ← call_desc_init desc index;
    if decide (err = 0) then
      update_ip index ip_assign_present;;
      mret 0
    else out err in
  match irq_name desc with
  | Some irq =>
      err ← call (platform_get_irq_byname irq);
      if decide (err < 0) then out err
      else update_ip index (ip_assign_irq err);; init
  | None => init
  end.

Definition lima_init_ip (index : nat) : M Z :=
  desc ← desc_at index;
  init_ip_body desc index.

Definition lima_fini_ip (index : nat) : M unit :=
  desc ← desc_at index;
  x ← ip_at index;
  if ip_present x then call_desc_fini desc index else mret tt.

Definition lima_init_gp_pipe : M Z :=
  err ← call (lima_sched_pipe_init lima_pipe_gp);
  if decide (err ≠ 0) then mret err else
  on_pipe lima_pipe_gp (push_l2_cache lima_ip_l2_cache0);;
  on_pipe lima_pipe_gp (push_mmu lima_ip_gpmmu);;
  on_pipe lima_pipe_gp (push_processor lima_ip_gp);;
  err ← call lima_gp_pipe_init;
  if decide (err ≠ 0) then
    call_void (lima_sched_pipe_fini lima_pipe_gp);;
    mret err
  else mret 0.

Definition lima_fini_gp_pipe : M unit :=
  call_void lima_gp_pipe_fini;;
  call_void (lima_sched_pipe_fini lima_pipe_gp).

(** One round of the loop of [lima_init_pp_pipe]. *)
Definition pp_pipe_round (i : nat) : M unit :=
  dev ← get_dev;
  let pp := (lima_ip_pp0 + i)%nat in
  let ppmmu := (lima_ip_ppmmu0 + i)%nat in
  let l2 := if decide (ldev_id dev = lima_gpu_mali400)
            then lima_ip_l2_cache0
            else (lima_ip_l2_cache1 + Nat.shiftr i 2)%nat in
  x_pp ← ip_at pp;
  x_ppmmu ← ip_at ppmmu;
  x_l2 ← ip_at l2;
  if ip_present x_pp && ip_present x_ppmmu && ip_present x_l2 then
    on_pipe lima_pipe_pp (push_mmu ppmmu);;
    on_pipe lima_pipe_pp (push_processor pp);;
    dev ← get_dev;
    match l2_cache (pipe_pp dev) !! Nat.shiftr i 2 with
    | Some None => on_pipe lima_pipe_pp (push_l2_cache l2)
    | Some (Some _) => mret tt
    | None => undefined
    end
  else mret tt.

Definition lima_init_pp_pipe : M Z :=
  err ← call (lima_sched_pipe_init lima_pipe_pp);
  if decide (err ≠ 0) then mret err else
  for_each (λ _ i, pp_pipe_round i) tt (seq 0 LIMA_SCHED_PIPE_MAX_PROCESSOR);;
  x ← ip_at lima_ip_bcast;
  (if ip_present x then
     on_pipe lima_pipe_pp (set_bcast lima_ip_pp_bcast lima_ip_ppmmu_bcast)
   else mret tt);;
  err ← call lima_pp_pipe_init;
  if decide (err ≠ 0) then
    call_void (lima_sched_pipe_fini lima_pipe_pp);;
    mret err
  else mret 0.

Definition lima_fini_pp_pipe : M unit :=
  call_void lima_pp_pipe_fini;;
  call_void (lima_sched_pipe_fini lima_pipe_pp).

(** [for (i = 0; i < lima_ip_num; i++) { err = lima_init_ip(ldev, i);
    if (err) goto err_out4; }]: [n] rounds are left, starting at [i]; the
    result is the value of [i] and of [err] when the loop is left. *)
Fixpoint init_ip_loop (n i : nat) : M (nat * Z) :=
  match n with
  | O => mret (i, 0)
  | S n' =>
      err ← lima_init_ip i;
      if decide (err ≠ 0) then mret (i, err) else init_ip_loop n' (S i)
  end.

(** [while (--i >= 0) lima_fini_ip(ldev, i);] *)
Fixpoint fini_ip_down (i : nat) : M unit :=
  match i with
  | O => mret tt
  | S j => lima_fini_ip j;; fini_ip_down j
  end.

(** The labels at the end of [lima_device_init]; each falls through to
    the next. *)
Definition err_out0 (err : Z) : M Z :=
  lima_clk_fini;; mret err.

Definition err_out1 (err : Z) : M Z :=
  lima_regulator_fini;; err_out0 err.

Definition err_out2 (err : Z) : M Z :=
  d ← get_dev;
  call_void (lima_vm_put (empty_vm d));;
  err_out1 err.

Definition err_out3 (err : Z) : M Z :=
  d ← get_dev;
  (if decide (dlbu_cpu d ≠ NULL) then call_void (dma_free_wc (dlbu_cpu d) (dlbu_dma d))
   else mret tt);;
  err_out2 err.

Definition err_out4 (i : nat) (err : Z) : M Z :=
  fini_ip_down i;; err_out3 err.

Definition err_out5 (i : nat) (err : Z) : M Z :=
  lima_fini_gp_pipe;; err_out4 i err.

(** The second half of [lima_device_init], from the loop over the slots
    to the end. *)
Definition lima_device_init_blocks : M Z :=
  '(i, err) ← init_ip_loop lima_ip_num 0;
  if decide (err ≠ 0) then err_out4 i err else
  err ← lima_init_gp_pipe;
  if decide (err ≠ 0) then err_out4 i err else
  err ← lima_init_pp_pipe;
  if decide (err ≠ 0) then err_out5 i err else
  mret 0.

(** The middle of [lima_device_init]: mapping the register window. *)
Definition lima_device_init_map : M Z :=
  res ← call platform_get_resource;
  iomem ← call (devm_ioremap_resource res);
  assign f_iomem iomem;;
  if IS_ERR iomem then err_out3 (PTR_ERR iomem) else
  lima_device_init_blocks.

Definition lima_device_init : M Z :=
  call_void dma_set_coherent_mask;;
  err ← lima_clk_init;
  if decide (err ≠ 0) then mret err else
  err ← lima_regulator_init;
  if decide (err ≠ 0) then err_out0 err else
  vm ← call lima_vm_create;
  assign f_empty_vm vm;;
  if decide (vm = NULL) then err_out1 (- ENOMEM) else
  assign f_va_start 0;;
  dev ← get_dev;
  nomem ← (if decide (ldev_id dev = lima_gpu_mali450) then
             assign f_va_end LIMA_VA_RESERVE_START;;
             cpu ← call dma_alloc_wc;
             assign f_dlbu_cpu cpu;;
             if decide (cpu = NULL) then mret true
             else assign f_dlbu_dma dma_handle;; mret false
           else
             assign f_va_end LIMA_VA_RESERVE_END;; mret false);
  if (nomem : bool) then err_out2 (- ENOMEM) else
  lima_device_init_map.

Definition lima_device_fini : M unit :=
  lima_fini_pp_pipe;;
  lima_fini_gp_pipe;;
  fini_ip_down lima_ip_num;;
  d ← get_dev;
  (if decide (dlbu_cpu d ≠ NULL) then call_void (dma_free_wc (dlbu_cpu d) (dlbu_dma d))
   else mret tt);;
  call_void (lima_vm_put (empty_vm d));;
  lima_regulator_fini;;
  lima_clk_fini.

End Lima.

(** * Specification vocabulary *)

Global Instance lima_ip_inhabited : Inhabited lima_ip := populate lima_ip_zero.

(** [wp c m Q]: the computation [c] is defined on [m], and its result and
    final machine satisfy [Q]. *)
Definition wp {A} (c : M A) (m : machine) (Q : A → machine → Prop) : Prop :=
  match c m with
  | Some (x, m') => Q x m'
  | None => False
  end.

(** A machine as [lima_device_init] finds it: a zeroed device of the given
    variant, any register contents, nothing called yet. *)
Definition machine_zero (id : lima_gpu_id) (regs : gmap Z Z) : machine :=
  {| ldev := lima_device_zero id; mmio := regs; klog := [] |}.

Definition with_mmio (regs : gmap Z Z) (m : machine) : machine :=
  {| ldev := ldev m; mmio := regs; klog := klog m |}.

(** The number whose set bits are the given positions. *)
Definition mask_of_positions (ks : list nat) : Z :=
  foldr (λ k acc, Z.lor (Z.shiftl 1 (Z.of_nat k)) acc) 0 ks.

(** The positions [i] in [0..7] whose fragment processor [pp{i}] has its
    presence flag set. *)
Definition present_pps (l : list lima_ip) : list nat :=
  filter (λ i, ip_present (l !!! (lima_ip_pp0 + i)%nat) = true) (seq 0 8).

(** [ks] lists the slot positions of the first [length ks] processors
    registered in the fragment pipeline: cell [i] of the processor list
    points to an instance whose [id] is [lima_ip_pp0 + k]. *)
Definition registered_positions (d : lima_device) (ks : list nat) : Prop :=
  ∀ i k, ks !! i = Some k →
    ∃ j y, processor (pipe_pp d) !! i = Some (Some j) ∧
           ip d !! j = Some y ∧
           ip_id y = (lima_ip_pp0 + k)%nat.

(** The fields per-slot init assigns first: the back-reference to the
    device, the kind id, and the register sub-window. *)
Definition window_assigned (index : nat) (iomem : Z) (y : lima_ip) : Prop :=
  ip_dev y = dev_this ∧ ip_id y = index ∧ ip_iomem y = iomem.

(** ** What one round of the slot loop does

    [slot_outcome desc index d x r x' t]: on device [d], whose instance at
    [index] is [x], per-slot init with descriptor [desc] returns [r],
    leaves the instance as [x'] and makes the calls [t].  Each call is
    logged with the device as it stood at the call, that is [d] with the
    instance at [index] replaced by its value at that moment. *)
Section SlotOutcome.

Context {K : kernel_env}.

Definition slot_at (index : nat) (x : lima_ip) (d : lima_device) : lima_device :=
  set_ip_array (<[index := x]> (ip d)) d.

Definition logged (c : kcall) (r : Z) (index : nat) (x : lima_ip)
    (d : lima_device) : klog_entry :=
  {| k_call := c; k_ret := r; k_at := slot_at index x d |}.

(** The value [desc->init(ip)] returns: the broadcast unit's init is the
    one of these files and returns 0. *)
Definition desc_init_ret (desc : lima_ip_desc_t) (index : nat) : Z :=
  match func desc with
  | func_bcast => 0
  | _ => kret (desc_init index)
  end.

(** Interrupt resolution passed (or the row names no interrupt). *)
Inductive irq_resolved (desc : lima_ip_desc_t) (index : nat) (d : lima_device)
    (x1 : lima_ip) : lima_ip → list klog_entry → Prop :=
  | irq_not_named :
      irq_name desc = None →
      irq_resolved desc index d x1 x1 []
  | irq_found irq :
      irq_name desc = Some irq →
      0 ≤ kret (platform_get_irq_byname irq) →
      irq_resolved desc index d x1
        (ip_assign_irq (kret (platform_get_irq_byname irq)) x1)
        [logged (platform_get_irq_byname irq)
                (kret (platform_get_irq_byname irq)) index x1 d].

Inductive slot_outcome (desc : lima_ip_desc_t) (index : nat) (d : lima_device)
    (x : lima_ip) : Z → lima_ip → list klog_entry → Prop :=
  | slot_absent :
      offset desc (ldev_id d) < 0 →
      slot_outcome desc index d x 0 x []
  | slot_irq_failed irq :
      0 ≤ offset desc (ldev_id d) →
      irq_name desc = Some irq →
      kret (platform_get_irq_byname irq) < 0 →
      let x1 := ip_assign_window index (ldev_iomem d + offset desc (ldev_id d)) x in
      slot_outcome desc index d x
        (if must_have desc (ldev_id d)
         then kret (platform_get_irq_byname irq) else 0)
        x1
        [logged (platform_get_irq_byname irq)
                (kret (platform_get_irq_byname irq)) index x1 d]
  | slot_init_failed x2 t_irq :
      0 ≤ offset desc (ldev_id d) →
      irq_resolved desc index d
        (ip_assign_window index (ldev_iomem d + offset desc (ldev_id d)) x)
        x2 t_irq →
      desc_init_ret desc index ≠ 0 →
      slot_outcome desc index d x
        (if must_have desc (ldev_id d) then desc_init_ret desc index else 0)
        x2
        (t_irq ++ [logged (desc_init index) (desc_init_ret desc index) index x2 d])
  | slot_init_ok x2 t_irq :
      0 ≤ offset desc (ldev_id d) →
      irq_resolved desc index d
        (ip_assign_window index (ldev_iomem d + offset desc (ldev_id d)) x)
        x2 t_irq →
      desc_init_ret desc index = 0 →
      slot_outcome desc index d x 0 (ip_assign_present x2)
        (t_irq ++ [logged (desc_init index) 0 index x2 d]).

End SlotOutcome.

(** ** The slot loop as a relation

    [slots_run i d j err d' t]: started at slot [i] on device [d], the
    loop over the slots is left with [i = j] and [err], on device [d'],
    after the calls [t]. *)
Inductive slots_run {K : kernel_env} :
    nat → lima_device → nat → Z → lima_device → list klog_entry → Prop :=
  | slots_done d :
      slots_run lima_ip_num d lima_ip_num 0 d []
  | slots_stop i d desc x r x' t :
      lima_ip_desc !! i = Some desc →
      ip d !! i = Some x →
      slot_outcome desc i d x r x' t →
      r ≠ 0 →
      slots_run i d i r (slot_at i x' d) t
  | slots_next i d desc x x' t j err d' t' :
      lima_ip_desc !! i = Some desc →
      ip d !! i = Some x →
      slot_outcome desc i d x 0 x' t →
      slots_run (S i) (slot_at i x' d) j err d' t' →
      slots_run i d j err d' (t ++ t').

(** ** Kinds of calls *)

Inductive call_class :=
  | cls_setup        (* acquiring clocks, reset, regulator, vm, DMA page, registers *)
  | cls_release      (* giving them back *)
  | cls_slot_irq     (* interrupt lookup of a slot *)
  | cls_slot_init    (* desc->init *)
  | cls_slot_fini    (* desc->fini *)
  | cls_pipe.        (* scheduler pipes and pipe-specific init/fini *)

Global Instance call_class_eq_dec : EqDecision call_class.
Proof. solve_decision. Defined.

Definition classify (c : kcall) : call_class :=
  match c with
  | dma_set_coherent_mask | devm_clk_get _ | clk_get_rate _
  | clk_prepare_enable _ | devm_reset_control_get_optional
  | reset_control_deassert _ | devm_regulator_get_optional
  | regulator_enable _ | lima_vm_create | dma_alloc_wc
  | platform_get_resource | devm_ioremap_resource _ => cls_setup
  | clk_disable_unprepare _ | reset_control_assert _ | regulator_disable _
  | lima_vm_put _ | dma_free_wc _ _ => cls_release
  | platform_get_irq_byname _ => cls_slot_irq
  | desc_init _ => cls_slot_init
  | desc_fini _ => cls_slot_fini
  | lima_sched_pipe_init _ | lima_sched_pipe_fini _ | lima_gp_pipe_init
  | lima_gp_pipe_fini | lima_pp_pipe_init | lima_pp_pipe_fini => cls_pipe
  end.

(** [appends P c]: whenever [c] returns, it has only added calls
    satisfying [P] to the log. *)
Definition appends {A} (P : kcall → Prop) (c : M A) : Prop :=
  ∀ m r m', c m = Some (r, m') →
    ∃ t, klog m' = klog m ++ t ∧ ∀ e, e ∈ t → P (k_call e).

Definition is_mapping (c : kcall) : bool :=
  match c with devm_ioremap_resource _ => true | _ => false end.

(** The calls made before the register window is mapped, on success or
    on failure. *)
Definition setup_call (c : kcall) : Prop :=
  (classify c = cls_setup ∨ classify c = cls_release) ∧ is_mapping c = false.

(** Log entries of calls returning [void], made on device [d]. *)
Definition void_entries (d : lima_device) (cs : list kcall) : list klog_entry :=
  (λ c, {| k_call := c; k_ret := 0; k_at := d |}) <$> cs.

(** The [fini] calls of [while (--i >= 0) lima_fini_ip(ldev, i)]. *)
Definition fini_calls (d : lima_device) (i : nat) : list kcall :=
  desc_fini <$> filter (λ j, ip_present (ip d !!! j) = true) (reverse (seq 0 i)).

(** The calls from label [err_out3] to the end of [lima_device_init]. *)
Definition release_calls (d : lima_device) : list kcall :=
  (if decide (dlbu_cpu d ≠ NULL) then [dma_free_wc (dlbu_cpu d) (dlbu_dma d)] else [])
  ++ [lima_vm_put (empty_vm d)]
  ++ (if decide (regulator d ≠ NULL) then [regulator_disable (regulator d)] else [])
  ++ (if decide (reset d ≠ NULL) then [reset_control_assert (reset d)] else [])
  ++ [clk_disable_unprepare (clk_gpu d); clk_disable_unprepare (clk_bus d)].

(** ** The resources a log leaves held

    What a call acquires depends on the value it returned; [devm_]
    resources are handed back by the driver core and are not counted. *)
Inductive resource :=
  | res_clk (clk : Z)
  | res_reset (rst : Z)
  | res_regulator (reg : Z)
  | res_vm (vm : Z)
  | res_dma (cpu : Z)
  | res_slot (index : nat)
  | res_sched_pipe (p : lima_pipe_id)
  | res_gp_pipe
  | res_pp_pipe.

Global Instance resource_eq_dec : EqDecision resource.
Proof. solve_decision. Defined.

Definition acquired (e : klog_entry) : option resource :=
  match k_call e with
  | clk_prepare_enable clk => if decide (k_ret e = 0) then Some (res_clk clk) else None
  | reset_control_deassert rst => if decide (k_ret e = 0) then Some (res_reset rst) else None
  | regulator_enable reg => if decide (0 ≤ k_ret e) then Some (res_regulator reg) else None
  | lima_vm_create => if decide (k_ret e ≠ NULL) then Some (res_vm (k_ret e)) else None
  | dma_alloc_wc => if decide (k_ret e ≠ NULL) then Some (res_dma (k_ret e)) else None
  | desc_init index => if decide (k_ret e = 0) then Some (res_slot index) else None
  | lima_sched_pipe_init p => if decide (k_ret e = 0) then Some (res_sched_pipe p) else None
  | lima_gp_pipe_init => if decide (k_ret e = 0) then Some res_gp_pipe else None
  | lima_pp_pipe_init => if decide (k_ret e = 0) then Some res_pp_pipe else None
  | _ => None
  end.

Definition released (e : klog_entry) : option resource :=
  match k_call e with
  | clk_disable_unprepare clk => Some (res_clk clk)
  | reset_control_assert rst => Some (res_reset rst)
  | regulator_disable reg => Some (res_regulator reg)
  | lima_vm_put vm => Some (res_vm vm)
  | dma_free_wc cpu _ => Some (res_dma cpu)
  | desc_fini index => Some (res_slot index)
  | lima_sched_pipe_fini p => Some (res_sched_pipe p)
  | lima_gp_pipe_fini => Some res_gp_pipe
  | lima_pp_pipe_fini => Some res_pp_pipe
  | _ => None
  end.

(** Taking one [r] out of the held resources; [None] if none is held. *)
Fixpoint give_back (r : resource) (h : list resource) : option (list resource) :=
  match h with
  | [] => None
  | x :: h' => if decide (x = r) then Some h' else (x ::.) <$> give_back r h'
  end.

Definition held_step (h : option (list resource)) (e : klog_entry)
    : option (list resource) :=
  match h with
  | None => None
  | Some h =>
      match acquired e, released e with
      | Some r, _ => Some (r :: h)
      | None, Some r => give_back r h
      | None, None => Some h
      end
  end.

(** The resources held after a log, starting with none; [None] if the log
    gives back something that is not held. *)
Definition held (log : list klog_entry) : option (list resource) :=
  foldl held_step (Some []) log.

(** The resources a device structure says are to be given back, most
    recently acquired first: what [release_calls] releases, in order. *)
Definition owed (d : lima_device) : list resource :=
  (if decide (dlbu_cpu d ≠ NULL) then [res_dma (dlbu_cpu d)] else [])
  ++ [res_vm (empty_vm d)]
  ++ (if decide (regulator d ≠ NULL) then [res_regulator (regulator d)] else [])
  ++ (if decide (reset d ≠ NULL) then [res_reset (reset d)] else [])
  ++ [res_clk (clk_gpu d); res_clk (clk_bus d)].

(** ** The state in which [lima_device_init] reaches the register mapping

    Nothing but scalar fields has been assigned, the calls so far are
    set-up calls, and what they acquired is what the device structure
    says is to be given back.  The last point relies on
    [devm_regulator_get_optional] returning a regulator or an [ERR_PTR],
    never a null pointer. *)
Definition regulator_not_null {K : kernel_env} : Prop :=
  IS_ERR (kret devm_regulator_get_optional) = false →
  kret devm_regulator_get_optional ≠ NULL.

Definition setup_done {K : kernel_env} (id : lima_gpu_id) (m : machine) : Prop :=
  ldev_id (ldev m) = id ∧
  ip (ldev m) = replicate lima_ip_num lima_ip_zero ∧
  pipe_gp (ldev m) = lima_sched_pipe_zero ∧
  pipe_pp (ldev m) = lima_sched_pipe_zero ∧
  (regulator_not_null → held (klog m) = Some (owed (ldev m))) ∧
  ∀ e, e ∈ klog m → setup_call (k_call e).

(** The calls made from the slot loop on. *)
Definition block_call (c : kcall) : Prop := classify c ≠ cls_setup.

(** The device and the log once the register window has been mapped
    with result [iomem]. *)
Definition mapped (m : machine) (res iomem : Z) : machine :=
  {| ldev := set_field f_iomem iomem (ldev m);
     mmio := mmio m;
     klog := klog m ++
       [{| k_call := platform_get_resource; k_ret := res; k_at := ldev m |};
        {| k_call := devm_ioremap_resource res; k_ret := iomem; k_at := ldev m |}] |}.

(** ** Pipelines as lists

    An array of a pipeline is the list of its first [num] cells, followed
    by null cells up to the capacity. *)
Definition cells (cap : nat) (xs : list nat) : list (option nat) :=
  (Some <$> xs) ++ replicate (cap - length xs) None.

Definition pipe_of (L M P : list nat) (bp bm : option nat) : lima_sched_pipe :=
  {| l2_cache := cells LIMA_SCHED_PIPE_MAX_L2_CACHE L;
     num_l2_cache := length L;
     mmu := cells LIMA_SCHED_PIPE_MAX_MMU M;
     num_mmu := length M;
     processor := cells LIMA_SCHED_PIPE_MAX_PROCESSOR P;
     num_processor := length P;
     bcast_processor := bp;
     bcast_mmu := bm |}.

Definition l2_cache_list (p : lima_sched_pipe) : list (option nat) :=
  take (num_l2_cache p) (l2_cache p).

Definition mmu_list (p : lima_sched_pipe) : list (option nat) :=
  take (num_mmu p) (mmu p).

Definition processor_list (p : lima_sched_pipe) : list (option nat) :=
  take (num_processor p) (processor p).

(** The L2 cache that serves fragment-processor position [i], and whether
    position [i] goes into the fragment pipeline: processor, MMU and that
    cache are all present. *)
Definition pp_l2_cache (d : lima_device) (i : nat) : nat :=
  if decide (ldev_id d = lima_gpu_mali400) then lima_ip_l2_cache0
  else (lima_ip_l2_cache1 + Nat.shiftr i 2)%nat.

Definition pp_included (d : lima_device) (i : nat) : bool :=
  ip_present (ip d !!! (lima_ip_pp0 + i)%nat)
  && ip_present (ip d !!! (lima_ip_ppmmu0 + i)%nat)
  && ip_present (ip d !!! pp_l2_cache d i).

Definition pp_positions (d : lima_device) : list nat :=
  filter (λ i, pp_included d i = true) (seq 0 LIMA_SCHED_PIPE_MAX_PROCESSOR).

(** What one round of the loop of [lima_init_pp_pipe] does to the three
    lists. *)
Definition l2_step (d : lima_device) (L : list nat) (i : nat) : list nat :=
  if pp_included d i then
    if decide (length L ≤ Nat.shiftr i 2)%nat then L ++ [pp_l2_cache d i] else L
  else L.

Definition mmu_step (d : lima_device) (M : list nat) (i : nat) : list nat :=
  if pp_included d i then M ++ [(lima_ip_ppmmu0 + i)%nat] else M.

Definition processor_step (d : lima_device) (P : list nat) (i : nat) : list nat :=
  if pp_included d i then P ++ [(lima_ip_pp0 + i)%nat] else P.

(** The L2-cache list as the specification words it: go through the
    included positions in order and append the position's cache unless
    that cache is already in the list. *)
Definition add_if_new (l : list nat) (x : nat) : list nat :=
  if decide (x ∈ l) then l else l ++ [x].

Definition dedup_first (l : list nat) : list nat := foldl add_if_new [] l.

Definition l2_cache_list_spec (d : lima_device) : list nat :=
  dedup_first (pp_l2_cache d <$> pp_positions d).

(** The same, one position at a time. *)
Definition spec_step (d : lima_device) (L : list nat) (i : nat) : list nat :=
  if pp_included d i then add_if_new L (pp_l2_cache d i) else L.

(** A device after a per-slot phase that ran to the end: every slot that
    is mandatory for the variant is present, every slot the variant does
    not have is absent, and the optional ones are either. *)
Definition slots_probed (d : lima_device) : Prop :=
  length (ip d) = lima_ip_num ∧
  ∀ k desc, lima_ip_desc !! k = Some desc →
    (offset desc (ldev_id d) < 0 → ip_present (ip d !!! k) = false) ∧
    (0 ≤ offset desc (ldev_id d) → must_have desc (ldev_id d) = true →
     ip_present (ip d !!! k) = true).

(** ** Pipeline composition

    The geometry pipeline as composed: one L2 cache, one MMU, one
    processor.  The fragment pipeline as composed from the presence flags
    of a device. *)
Definition gp_pipe_composed : lima_sched_pipe :=
  pipe_of [lima_ip_l2_cache0] [lima_ip_gpmmu] [lima_ip_gp] None None.

Definition pp_pipe_composed (d : lima_device) : lima_sched_pipe :=
  pipe_of (foldl (l2_step d) [] (seq 0 LIMA_SCHED_PIPE_MAX_PROCESSOR))
          (foldl (mmu_step d) [] (seq 0 LIMA_SCHED_PIPE_MAX_PROCESSOR))
          (foldl (processor_step d) [] (seq 0 LIMA_SCHED_PIPE_MAX_PROCESSOR))
          (if ip_present (ip d !!! lima_ip_bcast) then Some lima_ip_pp_bcast else None)
          (if ip_present (ip d !!! lima_ip_bcast) then Some lima_ip_ppmmu_bcast else None).

(** What composing pipeline [p] returns and leaves behind, when [x] is
    the pipe it assembles and [pipe_init] its pipe-specific init. *)
Definition composition {K : kernel_env} (p : lima_pipe_id) (pipe_init : kcall)
    (x : lima_sched_pipe) (m : machine) : Z * machine :=
  let s := kret (lima_sched_pipe_init p) in
  let e := kret pipe_init in
  let d := ldev m in
  let d' := set_pipe p x d in
  if decide (s ≠ 0) then
    (s, {| ldev := d; mmio := mmio m;
           klog := klog m ++
             [{| k_call := lima_sched_pipe_init p; k_ret := s; k_at := d |}] |})
  else if decide (e ≠ 0) then
    (e, {| ldev := d'; mmio := mmio m;
           klog := klog m ++
             [{| k_call := lima_sched_pipe_init p; k_ret := s; k_at := d |};
              {| k_call := pipe_init; k_ret := e; k_at := d' |};
              {| k_call := lima_sched_pipe_fini p; k_ret := 0; k_at := d' |}] |})
  else
    (0, {| ldev := d'; mmio := mmio m;
           klog := klog m ++
             [{| k_call := lima_sched_pipe_init p; k_ret := s; k_at := d |};
              {| k_call := pipe_init; k_ret := e; k_at := d' |}] |}).

(** Composing pipeline [p], and the pipe-specific init it calls. *)
Definition lima_init_pipe {K : kernel_env} (p : lima_pipe_id) : M Z :=
  match p with
  | lima_pipe_gp => lima_init_gp_pipe
  | lima_pipe_pp => lima_init_pp_pipe
  end.

Definition pipe_init_call (p : lima_pipe_id) : kcall :=
  match p with
  | lima_pipe_gp => lima_gp_pipe_init
  | lima_pipe_pp => lima_pp_pipe_init
  end.

(** ** Example environments

    A board on which every call succeeds, and variations of it. *)
Definition kret_all_ok (c : kcall) : Z :=
  match c with
  | devm_clk_get "bus" => 0x100
  | devm_clk_get _ => 0x200
  | devm_reset_control_get_optional => NULL
  | devm_regulator_get_optional => 0x300
  | lima_vm_create => 0x400
  | dma_alloc_wc => 0x500
  | platform_get_resource => 0x600
  | devm_ioremap_resource _ => 0x10000000
  | platform_get_irq_byname _ => 42
  | _ => 0
  end.

Definition env_all_ok : kernel_env :=
  {| kret := kret_all_ok; dma_handle := 0x700 |}.

(** The type-specific init of [pp2], an optional block, fails. *)
Definition env_pp2_fails : kernel_env :=
  {| kret := λ c, match c with
                  | desc_init 7 => -5
                  | _ => kret_all_ok c
                  end;
     dma_handle := 0x700 |}.

(** The type-specific init of [gp], a mandatory block, fails. *)
Definition env_gp_init_fails : kernel_env :=
  {| kret := λ c, match c with
                  | desc_init 4 => -5
                  | _ => kret_all_ok c
                  end;
     dma_handle := 0x700 |}.

(** The pipe-specific init of the geometry pipeline fails. *)
Definition env_gp_pipe_fails : kernel_env :=
  {| kret := λ c, match c with
                  | lima_gp_pipe_init => - ENOMEM
                  | _ => kret_all_ok c
                  end;
     dma_handle := 0x700 |}.

(** Mapping the register window fails. *)
Definition env_map_fails : kernel_env :=
  {| kret := λ c, match c with
                  | devm_ioremap_resource _ => - ENOMEM
                  | _ => kret_all_ok c
                  end;
     dma_handle := 0x700 |}.

Definition consts_example : lima_consts :=
  {| LIMA_BCAST_BROADCAST_MASK := 0x0;
     LIMA_BCAST_INTERRUPT_MASK := 0x4;
     LIMA_VA_RESERVE_START := 0xFFF00000;
     LIMA_VA_RESERVE_END := 0x100000000 |}.

(** The machine a computation leaves behind. *)
Definition run_on {A} (c : M A) (m : machine) : machine :=
  match c m with
  | Some (_, m') => m'
  | None => m
  end.

(** The machine after [lima_device_init], and after the loop over the
    slots alone, on a zeroed device. *)
Definition machine_after_init (K : kernel_env) (id : lima_gpu_id) : machine :=
  run_on (lima_device_init (C := consts_example)) (machine_zero id ∅).

Definition machine_after_slots (K : kernel_env) (id : lima_gpu_id) : machine :=
  run_on (init_ip_loop (C := consts_example) lima_ip_num 0) (machine_zero id ∅).

(** Entry [n] of the call log, and row [k] of the descriptor table. *)
Definition nth_call (m : machine) (n : nat) : klog_entry :=
  default {| k_call := dma_set_coherent_mask; k_ret := 0; k_at := ldev m |}
          (klog m !! n).

Definition row (k : nat) : lima_ip_desc_t :=
  default (LIMA_IP_DESC "" false false (-1) (-1) func_pmu None) (lima_ip_desc !! k).

(** A descriptor marked mandatory whose offset is absent; the table has
    no such row. *)
Definition desc_mandatory_absent : lima_ip_desc_t :=
  LIMA_IP_DESC "absent" true true (-1) (-1) func_pp (Some "absent").

(** * Further vocabulary

    Definitions used by the properties of the second part of the proofs. *)

(** [lima_ip_name]: [return lima_ip_desc[ip->id].name;].  There is no
    result when [ip->id] lies outside the table. *)
Definition lima_ip_name (x : lima_ip) : option string :=
  name <$> lima_ip_desc !! ip_id x.

(** ** Vocabulary of bring-up and teardown *)

(** What [lima_clk_init] leaves enabled on success, most recent first,
    and the calls with which [lima_clk_fini] gives it back. *)
Definition clk_resources (d : lima_device) : list resource :=
  (if decide (reset d ≠ NULL) then [res_reset (reset d)] else [])
  ++ [res_clk (clk_gpu d); res_clk (clk_bus d)].

Definition clk_fini_calls (d : lima_device) : list kcall :=
  (if decide (reset d ≠ NULL) then [reset_control_assert (reset d)] else [])
  ++ [clk_disable_unprepare (clk_gpu d); clk_disable_unprepare (clk_bus d)].

(** The slots below [i] that are present, highest first: the order in
    which [while (--i >= 0) lima_fini_ip(ldev, i)] meets them. *)
Definition slot_resources (d : lima_device) (i : nat) : list resource :=
  res_slot <$> filter (λ j, ip_present (ip d !!! j) = true) (reverse (seq 0 i)).

(** The calls of [lima_fini_gp_pipe] and [lima_fini_pp_pipe]. *)
Definition pipe_fini_call (p : lima_pipe_id) : kcall :=
  match p with
  | lima_pipe_gp => lima_gp_pipe_fini
  | lima_pipe_pp => lima_pp_pipe_fini
  end.

Definition fini_pipe_calls (p : lima_pipe_id) : list kcall :=
  [pipe_fini_call p; lima_sched_pipe_fini p].

Definition pipe_init_resource (p : lima_pipe_id) : resource :=
  match p with
  | lima_pipe_gp => res_gp_pipe
  | lima_pipe_pp => res_pp_pipe
  end.

Definition pipe_resources (p : lima_pipe_id) : list resource :=
  [pipe_init_resource p; res_sched_pipe p].

(** The calls of [lima_device_fini], in order. *)
Definition device_fini_calls (d : lima_device) : list kcall :=
  fini_pipe_calls lima_pipe_pp ++ fini_pipe_calls lima_pipe_gp
  ++ fini_calls d lima_ip_num ++ release_calls d.

(** Everything a successful [lima_device_init] leaves held, most recent
    first. *)
Definition held_after_init (d : lima_device) : list resource :=
  pipe_resources lima_pipe_pp ++ pipe_resources lima_pipe_gp
  ++ slot_resources d lima_ip_num ++ owed d.

(** The interrupt of [gp] cannot be resolved. *)
Definition env_gp_irq_fails : kernel_env :=
  {| kret := λ c, match c with
                  | platform_get_irq_byname "gp" => -6
                  | _ => kret_all_ok c
                  end;
     dma_handle := 0x700 |}.

(** The board has no regulator. *)
Definition env_no_regulator : kernel_env :=
  {| kret := λ c, match c with
                  | devm_regulator_get_optional => - ENODEV
                  | _ => kret_all_ok c
                  end;
     dma_handle := 0x700 |}.

(** Enabling the core clock fails. *)
Definition env_clk_gpu_fails : kernel_env :=
  {| kret := λ c, match c with
                  | clk_prepare_enable 0x200 => -5
                  | _ => kret_all_ok c
                  end;
     dma_handle := 0x700 |}.

(** The pipe-specific init of the fragment pipeline fails. *)
Definition env_pp_pipe_fails : kernel_env :=
  {| kret := λ c, match c with
                  | lima_pp_pipe_init => - ENOMEM
                  | _ => kret_all_ok c
                  end;
     dma_handle := 0x700 |}.

(** Creating the scheduler pipe of the fragment pipeline fails. *)
Definition env_pp_sched_fails : kernel_env :=
  {| kret := λ c, match c with
                  | lima_sched_pipe_init lima_pipe_pp => - ENOMEM
                  | _ => kret_all_ok c
                  end;
     dma_handle := 0x700 |}.

(** The load-balancer page cannot be allocated. *)
Definition env_dma_fails : kernel_env :=
  {| kret := λ c, match c with
                  | dma_alloc_wc => NULL
                  | _ => kret_all_ok c
                  end;
     dma_handle := 0x700 |}.

(** ** [lima_device_init] from the slot loop on, as a function

    The machine after calls that return [void], made one after the other
    on an unchanged device. *)
Definition after_void_calls (cs : list kcall) (m : machine) : machine :=
  {| ldev := ldev m; mmio := mmio m;
     klog := klog m ++ void_entries (ldev m) cs |}.

(** The calls from label [err_out4] on, entered with [i]. *)
Definition unwind_calls (i : nat) (d : lima_device) : list kcall :=
  fini_calls d i ++ release_calls d.

(** What [lima_device_init] returns and leaves behind once the slot loop
    has been left with [i = j] and [err], on machine [m1]. *)
Definition blocks_after_slots {K : kernel_env} (j : nat) (err : Z) (m1 : machine)
    : Z * machine :=
  if decide (err ≠ 0) then
    (err, after_void_calls (unwind_calls j (ldev m1)) m1)
  else
    let c1 := composition lima_pipe_gp lima_gp_pipe_init gp_pipe_composed m1 in
    if decide (c1.1 ≠ 0) then
      (c1.1, after_void_calls (unwind_calls j (ldev c1.2)) c1.2)
    else
      let c2 := composition lima_pipe_pp lima_pp_pipe_init
                  (pp_pipe_composed (ldev c1.2)) c1.2 in
      if decide (c2.1 ≠ 0) then
        (c2.1, after_void_calls
                 (fini_pipe_calls lima_pipe_gp ++ unwind_calls j (ldev c2.2)) c2.2)
      else (0, c2.2).


(** The calls with which [lima_device_init] unwinds the pipelines that
    are already composed when composing pipeline [p] fails: none for the
    geometry pipeline, which is composed first, and the teardown of the
    geometry pipeline for the fragment pipeline. *)
Definition composed_before (p : lima_pipe_id) : list kcall :=
  match p with
  | lima_pipe_gp => []
  | lima_pipe_pp => fini_pipe_calls lima_pipe_gp
  end.

(** The calls other than the two allocations of bring-up. *)
Definition no_alloc (c : kcall) : Prop :=
  c ≠ lima_vm_create ∧ c ≠ dma_alloc_wc.

(** The calls with which [lima_device_init] unwinds after an allocation
    failed: the virtual-memory-space object is put only when it is the
    load-balancer page that could not be allocated. *)
Definition alloc_unwind_calls (c : kcall) (d : lima_device) : list kcall :=
  (if decide (c = dma_alloc_wc) then [lima_vm_put (empty_vm d)] else [])
  ++ (if decide (regulator d ≠ NULL) then [regulator_disable (regulator d)] else [])
  ++ clk_fini_calls d.

(** * Proofs *)

Section Proofs.

Context {K : kernel_env} {C : lima_consts}.

(** ** Rules of the monad *)

Lemma wp_bind {A B} (c : M A) (f : A → M B) m Q :
  wp (c ≫= f) m Q ↔ wp c m (λ x m', wp (f x) m' Q).
Proof. unfold wp, mbind, M_bind. destruct (c m) as [[x m']|]; done. Qed.

Lemma wp_ret {A} (x : A) m (Q : A → machine → Prop) : wp (mret x) m Q ↔ Q x m.
Proof. done. Qed.

Lemma wp_run {A} (c : M A) m (Q : A → machine → Prop) :
  wp c m Q ↔ ∃ x m', c m = Some (x, m') ∧ Q x m'.
Proof.
  unfold wp. split.
  - destruct (c m) as [[x m']|]; [eauto | done].
  - intros (x & m' & -> & HQ). done.
Qed.

Lemma wp_mono {A} (c : M A) m (Q Q' : A → machine → Prop) :
  wp c m Q → (∀ x m', Q x m' → Q' x m') → wp c m Q'.
Proof. unfold wp. destruct (c m) as [[x m']|]; eauto. Qed.

Lemma bind_eq {A B} (c : M A) (f : A → M B) m :
  (c ≫= f) m = match c m with Some (x, m') => f x m' | None => None end.
Proof. done. Qed.

Lemma ret_eq {A} (x : A) m : mret (M := M) x m = Some (x, m).
Proof. done. Qed.

Lemma ip_at_run index m x :
  ip (ldev m) !! index = Some x → ip_at index m = Some (x, m).
Proof. intros H. unfold ip_at. by rewrite H. Qed.

Lemma wp_ip_at index m x (Q : lima_ip → machine → Prop) :
  ip (ldev m) !! index = Some x → Q x m → wp (ip_at index) m Q.
Proof. intros H HQ. unfold wp, ip_at. by rewrite H. Qed.

Lemma wp_update_ip index f m x (Q : unit → machine → Prop) :
  ip (ldev m) !! index = Some x →
  Q tt {| ldev := set_ip_array (<[index := f x]> (ip (ldev m))) (ldev m);
          mmio := mmio m; klog := klog m |} →
  wp (update_ip index f) m Q.
Proof. intros H HQ. unfold wp, update_ip, ip_at, mbind, M_bind. by rewrite H. Qed.

Lemma set_ip_array_twice l l' d :
  set_ip_array l' (set_ip_array l d) = set_ip_array l' d.
Proof. done. Qed.

Lemma set_ip_array_same d : set_ip_array (ip d) d = d.
Proof. by destruct d. Qed.

(** ** 32-bit arithmetic *)

Lemma to_int_small z : - 2 ^ 31 ≤ z < 2 ^ 31 → to_int z = z.
Proof.
  intros H. unfold to_int.
  rewrite Z.mod_small; lia.
Qed.

Lemma to_u32_small z : 0 ≤ z < 2 ^ 32 → to_u32 z = z.
Proof. intros H. unfold to_u32. by apply Z.mod_small. Qed.

Lemma to_u32_to_int z : to_u32 (to_int z) = to_u32 z.
Proof.
  unfold to_u32, to_int.
  rewrite Zminus_mod_idemp_l.
  f_equal. lia.
Qed.

Lemma to_u32_land z : to_u32 z = Z.land z (Z.ones 32).
Proof. unfold to_u32. by rewrite Z.land_ones. Qed.

Lemma to_u32_lor a b : to_u32 (Z.lor a b) = Z.lor (to_u32 a) (to_u32 b).
Proof. rewrite !to_u32_land. apply Z.land_lor_distr_l. Qed.

Lemma shiftl_1_bits k j : 0 ≤ k → Z.testbit (Z.shiftl 1 k) j = bool_decide (j = k).
Proof.
  intros Hk. rewrite Z.shiftl_1_l.
  case_bool_decide as Hj.
  - subst. by apply Z.pow2_bits_true.
  - by apply Z.pow2_bits_false.
Qed.

(** ** Bit masks of positions *)

Lemma mask_of_positions_bits ks j :
  Z.testbit (mask_of_positions ks) j = true ↔ ∃ k, k ∈ ks ∧ j = Z.of_nat k.
Proof.
  induction ks as [|k ks IH]; simpl.
  - rewrite Z.bits_0. split; [done|].
    intros (k & Hk & _). by apply not_elem_of_nil in Hk.
  - rewrite Z.lor_spec, orb_true_iff, IH, shiftl_1_bits, bool_decide_eq_true by lia.
    split.
    + intros [-> | (k' & Hk' & ->)]; [exists k | exists k']; split; auto; constructor; done.
    + intros (k' & Hk' & ->). apply elem_of_cons in Hk' as [-> | Hk']; eauto.
Qed.

Lemma mask_of_positions_nonneg ks : 0 ≤ mask_of_positions ks.
Proof.
  induction ks as [|k ks IH]; simpl; [done|].
  apply Z.lor_nonneg. split; [|done].
  apply Z.shiftl_nonneg. lia.
Qed.

Lemma mask_of_positions_bound ks n :
  (∀ k, k ∈ ks → (k < n)%nat) → 0 ≤ mask_of_positions ks < 2 ^ Z.of_nat n.
Proof.
  intros Hks. split; [apply mask_of_positions_nonneg|].
  destruct (decide (mask_of_positions ks = 0)) as [->|Hne].
  { apply Z.pow_pos_nonneg; lia. }
  apply Z.log2_lt_pow2; [pose proof (mask_of_positions_nonneg ks); lia|].
  pose proof (mask_of_positions_nonneg ks) as Hnn.
  assert (Hpos : 0 < mask_of_positions ks) by lia.
  pose proof (Z.bit_log2 _ Hpos) as Hbit.
  apply mask_of_positions_bits in Hbit as (k & Hk & Hlog).
  apply Hks in Hk. lia.
Qed.

Lemma mask_of_positions_app ks ks' :
  mask_of_positions (ks ++ ks') = Z.lor (mask_of_positions ks) (mask_of_positions ks').
Proof.
  induction ks as [|k ks IH]; simpl; [done|].
  by rewrite IH, Z.lor_assoc.
Qed.

(** ** The broadcast unit: [lima_bcast_init] *)

Lemma shl1_run k m :
  0 ≤ k < 31 → shl1 k m = Some (Z.shiftl 1 k, m).
Proof.
  intros Hk. unfold shl1. rewrite decide_True by lia.
  rewrite to_int_small; [done|].
  rewrite Z.shiftl_1_l. split.
  - pose proof (Z.pow_pos_nonneg 2 k). lia.
  - apply Z.pow_lt_mono_r; lia.
Qed.

Lemma bcast_init_loop m ks acc :
  (∀ i, i ∈ ks → (i < 31)%nat ∧ (lima_ip_pp0 + i < length (ip (ldev m)))%nat) →
  for_each
    (λ mask i,
       y ← ip_at i;
       if ip_present y then
         bit ← shl1 (Z.of_nat i - Z.of_nat lima_ip_pp0);
         mret (Z.lor mask bit)
       else mret mask)
    acc ((λ i, lima_ip_pp0 + i)%nat <$> ks) m
  = Some (Z.lor acc (mask_of_positions
                       (filter (λ i, ip_present (ip (ldev m) !!! (lima_ip_pp0 + i)%nat) = true) ks)),
          m).
Proof.
  revert acc. induction ks as [|i ks IH]; intros acc Hks.
  - simpl. by rewrite Z.lor_0_r.
  - destruct (Hks i) as [Hi Hlen]; [by left|].
    destruct (lookup_lt_is_Some_2 _ _ Hlen) as [y Hy].
    rewrite fmap_cons. cbn [for_each].
    rewrite bind_eq, bind_eq, (ip_at_run _ _ _ Hy).
    rewrite filter_cons.
    rewrite (list_lookup_total_correct _ _ _ Hy).
    destruct (ip_present y) eqn:Hp.
    + rewrite decide_True by done.
      replace (Z.of_nat (lima_ip_pp0 + i) - Z.of_nat lima_ip_pp0)
        with (Z.of_nat i) by lia.
      rewrite bind_eq, shl1_run by lia.
      rewrite ret_eq.
      rewrite IH by (intros; apply Hks; by right).
      cbn [mask_of_positions foldr]. by rewrite Z.lor_assoc.
    + rewrite decide_False by done.
      rewrite ret_eq.
      apply IH. intros; apply Hks; by right.
Qed.

Lemma present_pps_bound l k : k ∈ present_pps l → (k < 8)%nat.
Proof.
  unfold present_pps. rewrite list_elem_of_filter, elem_of_seq. lia.
Qed.

Lemma present_pps_bits l i :
  (i < 8)%nat →
  Z.testbit (mask_of_positions (present_pps l)) (Z.of_nat i)
  = ip_present (l !!! (lima_ip_pp0 + i)%nat).
Proof.
  intros Hi. apply eq_true_iff_eq.
  rewrite mask_of_positions_bits. unfold present_pps. split.
  - intros (k & Hk & Heq). apply Nat2Z.inj in Heq as <-.
    by apply list_elem_of_filter in Hk as [? _].
  - intros Hp. exists i. split; [|done].
    apply list_elem_of_filter. split; [done|].
    apply elem_of_seq. lia.
Qed.

Lemma lima_bcast_init_run index m x :
  ip (ldev m) !! index = Some x →
  ip_dev x = dev_this →
  length (ip (ldev m)) = lima_ip_num →
  let mask := mask_of_positions (present_pps (ip (ldev m))) in
  lima_bcast_init index m
  = Some (0, with_mmio
               (<[ip_iomem x + LIMA_BCAST_INTERRUPT_MASK := mask]>
                  (<[ip_iomem x + LIMA_BCAST_BROADCAST_MASK := Z.shiftl mask 16]>
                     (mmio m)))
               m).
Proof.
  intros Hx Hdev Hlen mask.
  unfold lima_bcast_init.
  rewrite bind_eq, (ip_at_run _ _ _ Hx), Hdev, bind_eq.
  change (seq lima_ip_pp0 (S lima_ip_pp7 - lima_ip_pp0))
    with ((λ i, lima_ip_pp0 + i)%nat <$> seq 0 8).
  rewrite bcast_init_loop.
  2:{ intros i Hi. apply elem_of_seq in Hi. rewrite Hlen.
      unfold lima_ip_pp0, lima_ip_num. lia. }
  rewrite Z.lor_0_l. fold (present_pps (ip (ldev m))). fold mask.
  assert (Hm : 0 ≤ mask < 2 ^ 8).
  { apply (mask_of_positions_bound _ 8). apply present_pps_bound. }
  unfold writel, mbind, M_bind, mret, M_ret, with_mmio. simpl.
  rewrite (to_u32_small mask) by lia.
  rewrite to_u32_small; [done|].
  rewrite Z.shiftl_mul_pow2 by lia. lia.
Qed.

(** C7 (as amended).  [lima_bcast_init] returns 0 and programs the mask
    of the fragment processors [pp0..pp7] whose presence flag is set on
    the device when it is called: bit [i] of the mask is the presence flag
    of [pp{i}] and no other bit is set.  The mask goes to the
    interrupt-mask register and, shifted left by 16, to the broadcast-mask
    register; the device structure, and so the pipelines, are neither read
    for it nor changed. *)
Theorem lima_bcast_init_programs_present_mask index m x :
  ip (ldev m) !! index = Some x →
  ip_dev x = dev_this →
  length (ip (ldev m)) = lima_ip_num →
  ∃ mask,
    lima_bcast_init index m
    = Some (0, with_mmio
                 (<[ip_iomem x + LIMA_BCAST_INTERRUPT_MASK := mask]>
                    (<[ip_iomem x + LIMA_BCAST_BROADCAST_MASK := Z.shiftl mask 16]>
                       (mmio m)))
                 m) ∧
    0 ≤ mask < 2 ^ 8 ∧
    ∀ i, (i < 8)%nat →
      Z.testbit mask (Z.of_nat i)
      = ip_present (ip (ldev m) !!! (lima_ip_pp0 + i)%nat).
Proof.
  intros Hx Hdev Hlen.
  exists (mask_of_positions (present_pps (ip (ldev m)))).
  split; [by apply lima_bcast_init_run|].
  split.
  - apply (mask_of_positions_bound _ 8), present_pps_bound.
  - intros i Hi. by apply present_pps_bits.
Qed.

(** ** The broadcast unit: [lima_bcast_enable] *)

Lemma shl1_run' k m :
  (k < 31)%nat →
  shl1 (Z.of_nat (lima_ip_pp0 + k) - Z.of_nat lima_ip_pp0) m
  = Some (Z.shiftl 1 (Z.of_nat k), m).
Proof.
  intros Hk.
  replace (Z.of_nat (lima_ip_pp0 + k) - Z.of_nat lima_ip_pp0)
    with (Z.of_nat k) by lia.
  apply shl1_run. lia.
Qed.

Lemma bcast_enable_loop m ks a acc :
  (∀ i k, ks !! i = Some k →
     (k < 31)%nat ∧
     ∃ j y, processor (pipe_pp (ldev m)) !! (a + i)%nat = Some (Some j) ∧
            ip (ldev m) !! j = Some y ∧
            ip_id y = (lima_ip_pp0 + k)%nat) →
  for_each
    (λ mask i,
       d ← get_dev;
       match processor (pipe_pp d) !! i with
       | Some (Some k) =>
           pp ← ip_at k;
           bit ← shl1 (Z.of_nat (ip_id pp) - Z.of_nat lima_ip_pp0);
           mret (Z.lor mask bit)
       | _ => undefined
       end)
    acc (seq a (length ks)) m
  = Some (Z.lor acc (mask_of_positions ks), m).
Proof.
  revert a acc. induction ks as [|k ks IH]; intros a acc Hks.
  - simpl. by rewrite Z.lor_0_r.
  - destruct (Hks 0%nat k eq_refl) as (Hk & j & y & Hj & Hy & Hid).
    rewrite Nat.add_0_r in Hj.
    cbn [length seq for_each].
    rewrite bind_eq, bind_eq. cbn [get_dev]. rewrite Hj.
    rewrite bind_eq, (ip_at_run _ _ _ Hy), bind_eq, Hid, shl1_run' by done.
    rewrite ret_eq, IH.
    + cbn [mask_of_positions foldr]. by rewrite Z.lor_assoc.
    + intros i k' Hi. destruct (Hks (S i) k' Hi) as (Hk' & j' & y' & Hj' & Hrest).
      split; [done|]. exists j', y'. split; [|done].
      by replace (S a + i)%nat with (a + S i)%nat by lia.
Qed.

Lemma to_u32_land_upper v : to_u32 (Z.land v 0xffff0000) = Z.land v 0xffff0000.
Proof. rewrite to_u32_land, <- Z.land_assoc. done. Qed.

Lemma lima_bcast_enable_run m x ks :
  ip (ldev m) !! lima_ip_bcast = Some x →
  registered_positions (ldev m) ks →
  (∀ k, k ∈ ks → (k < 16)%nat) →
  let v := default 0 (mmio m !! (ip_iomem x + LIMA_BCAST_BROADCAST_MASK)) in
  lima_bcast_enable (Z.of_nat (length ks)) m
  = Some (tt, with_mmio
                (<[ip_iomem x + LIMA_BCAST_BROADCAST_MASK
                   := Z.lor (Z.land v 0xffff0000) (mask_of_positions ks)]> (mmio m))
                m).
Proof.
  intros Hx Hks Hlt v.
  unfold lima_bcast_enable.
  rewrite bind_eq, (ip_at_run _ _ _ Hx), bind_eq. cbn [readl]. fold v.
  rewrite bind_eq, Nat2Z.id, bcast_enable_loop.
  2:{ intros i k Hi. split.
      - assert (k < 16)%nat; [|lia]. apply Hlt. by eapply list_elem_of_lookup_2.
      - rewrite Nat.add_0_l. by apply Hks. }
  unfold writel, with_mmio. do 4 f_equal.
  rewrite to_u32_lor, to_u32_to_int, to_u32_land_upper.
  f_equal. apply to_u32_small.
  pose proof (mask_of_positions_bound ks 16 Hlt) as Hb.
  change (2 ^ Z.of_nat 16) with 65536 in Hb. lia.
Qed.

Lemma bits_above z n j : 0 ≤ z < 2 ^ n → n ≤ j → Z.testbit z j = false.
Proof.
  intros Hz Hj.
  destruct (decide (z = 0)) as [->|]; [apply Z.bits_0|].
  apply Z.bits_above_log2; [lia|].
  assert (Z.log2 z < n); [|lia].
  apply Z.log2_lt_pow2; lia.
Qed.

Lemma upper_mask_bits j :
  0 ≤ j → Z.testbit 0xffff0000 j = bool_decide (16 ≤ j < 32).
Proof.
  intros Hj.
  change 0xffff0000 with (Z.shiftl (Z.ones 16) 16).
  destruct (decide (j < 16)).
  - rewrite Z.shiftl_spec_low by lia. by rewrite bool_decide_eq_false_2 by lia.
  - rewrite Z.shiftl_spec by lia.
    destruct (decide (j < 32)).
    + rewrite Z.ones_spec_low by lia. by rewrite bool_decide_eq_true_2 by lia.
    + rewrite Z.ones_spec_high by lia. by rewrite bool_decide_eq_false_2 by lia.
Qed.

Lemma low_half_set v sel :
  0 ≤ sel < 2 ^ 16 →
  Z.land (Z.lor (Z.land v 0xffff0000) sel) 0xffff = sel.
Proof.
  intros Hsel.
  apply Z.bits_inj'. intros j Hj.
  rewrite Z.land_spec, Z.lor_spec, Z.land_spec, upper_mask_bits by done.
  change 0xffff with (Z.ones 16).
  destruct (decide (j < 16)).
  - rewrite Z.ones_spec_low, bool_decide_eq_false_2 by lia.
    by rewrite andb_false_r, andb_true_r.
  - rewrite Z.ones_spec_high, (bits_above sel 16 j) by lia.
    apply andb_false_r.
Qed.

Lemma high_half_kept v sel :
  0 ≤ v < 2 ^ 32 → 0 ≤ sel < 2 ^ 16 →
  Z.shiftr (Z.lor (Z.land v 0xffff0000) sel) 16 = Z.shiftr v 16.
Proof.
  intros Hv Hsel.
  apply Z.bits_inj'. intros j Hj.
  rewrite !Z.shiftr_spec, Z.lor_spec, Z.land_spec, upper_mask_bits by lia.
  rewrite (bits_above sel 16 (j + 16)), orb_false_r by lia.
  destruct (decide (j + 16 < 32)).
  - rewrite bool_decide_eq_true_2 by lia. apply andb_true_r.
  - rewrite (bits_above v 32 (j + 16)) by lia. done.
Qed.

(** C4 (as amended).  Let the broadcast-mask register hold the 32-bit
    value [v]; broadcast-unit init put the present mask into its upper
    half.  [lima_bcast_enable(dev, n)], for [n] up to the number of
    processors registered in the fragment pipeline, keeps that upper half
    and sets the lower half to the mask of the slot positions of the
    first [n] processors of the pipeline's processor list.  It writes no
    other register, so the interrupt-mask register keeps the value init
    gave it, and it leaves the device structure as it was. *)
Theorem lima_bcast_enable_sets_low_half m x ks v :
  ip (ldev m) !! lima_ip_bcast = Some x →
  mmio m !! (ip_iomem x + LIMA_BCAST_BROADCAST_MASK) = Some v →
  0 ≤ v < 2 ^ 32 →
  registered_positions (ldev m) ks →
  (∀ k, k ∈ ks → (k < 16)%nat) →
  ∃ new,
    lima_bcast_enable (Z.of_nat (length ks)) m
    = Some (tt, with_mmio
                  (<[ip_iomem x + LIMA_BCAST_BROADCAST_MASK := new]> (mmio m)) m) ∧
    Z.shiftr new 16 = Z.shiftr v 16 ∧
    Z.land new 0xffff = mask_of_positions ks ∧
    ∀ a, a ≠ ip_iomem x + LIMA_BCAST_BROADCAST_MASK →
         (<[ip_iomem x + LIMA_BCAST_BROADCAST_MASK := new]> (mmio m)) !! a = mmio m !! a.
Proof.
  intros Hx Hreg Hv Hks Hlt.
  pose proof (mask_of_positions_bound ks 16 Hlt) as Hb.
  change (2 ^ Z.of_nat 16) with (2 ^ 16) in Hb.
  exists (Z.lor (Z.land v 0xffff0000) (mask_of_positions ks)).
  split; [|split; [|split]].
  - assert (Hd : default 0 (mmio m !! (ip_iomem x + LIMA_BCAST_BROADCAST_MASK)) = v)
      by (by rewrite Hreg).
    by rewrite (lima_bcast_enable_run m x ks Hx Hks Hlt), Hd.
  - by apply high_half_kept.
  - by apply low_half_set.
  - intros a Ha. by rewrite lookup_insert_ne.
Qed.

(** ** Per-slot init *)

Lemma call_run c m :
  call c m = Some (kret c, log_call c (kret c) (ldev m) m).
Proof. done. Qed.

Lemma update_ip_run index f m x :
  ip (ldev m) !! index = Some x →
  update_ip index f m
  = Some (tt, {| ldev := slot_at index (f x) (ldev m);
                 mmio := mmio m; klog := klog m |}).
Proof.
  intros H. unfold update_ip. by rewrite bind_eq, (ip_at_run _ _ _ H).
Qed.

Lemma slot_at_lookup index x d :
  (index < length (ip d))%nat → ip (slot_at index x d) !! index = Some x.
Proof. intros H. unfold slot_at. simpl. by apply list_lookup_insert_eq. Qed.

Lemma slot_at_twice index x y d :
  slot_at index y (slot_at index x d) = slot_at index y d.
Proof. unfold slot_at. simpl. by rewrite list_insert_insert_eq. Qed.

Lemma slot_at_same index x d :
  ip d !! index = Some x → slot_at index x d = d.
Proof.
  intros H. unfold slot_at. rewrite list_insert_id by done.
  apply set_ip_array_same.
Qed.

Lemma slot_at_length index x d :
  length (ip (slot_at index x d)) = length (ip d).
Proof. unfold slot_at. simpl. apply length_insert. Qed.

Lemma call_desc_init_run desc index m x :
  ip (ldev m) !! index = Some x →
  ip_dev x = dev_this →
  length (ip (ldev m)) = lima_ip_num →
  ∃ regs',
    call_desc_init desc index m
    = Some (desc_init_ret desc index,
            {| ldev := ldev m; mmio := regs';
               klog := klog m ++ [{| k_call := desc_init index;
                                     k_ret := desc_init_ret desc index;
                                     k_at := ldev m |}] |}).
Proof.
  intros Hx Hdev Hlen.
  unfold call_desc_init, desc_init_ret.
  destruct (func desc); try (exists (mmio m); done).
  rewrite (lima_bcast_init_run index m x Hx Hdev Hlen).
  eexists. done.
Qed.

Lemma init_ip_body_spec desc index m x :
  ip (ldev m) !! index = Some x →
  length (ip (ldev m)) = lima_ip_num →
  ∃ r x' t regs',
    init_ip_body desc index m
    = Some (r, {| ldev := slot_at index x' (ldev m); mmio := regs';
                  klog := klog m ++ t |}) ∧
    slot_outcome desc index (ldev m) x r x' t.
Proof.
  intros Hx Hlen.
  assert (Hi : (index < length (ip (ldev m)))%nat) by (by eapply lookup_lt_Some).
  unfold init_ip_body.
  rewrite bind_eq. cbn [get_dev].
  set (d := ldev m).
  set (x1 := ip_assign_window index (ldev_iomem d + offset desc (ldev_id d)) x).
  case_decide as Hoff.
  { exists 0, x, [], (mmio m). split; [|by constructor].
    rewrite ret_eq, app_nil_r. unfold d. rewrite slot_at_same by done.
    by destruct m. }
  rewrite bind_eq, (update_ip_run _ _ _ _ Hx). fold d x1.
  (* the part from [desc->init] on, entered with the instance [x2] *)
  assert (Hinit : ∀ x2 t_irq,
    ip_dev x2 = dev_this →
    irq_resolved desc index d x1 x2 t_irq →
    ∃ r x' t regs',
      (err ← call_desc_init desc index;
       if decide (err = 0) then update_ip index ip_assign_present;; mret 0
       else mret (if must_have desc (ldev_id d) then err else 0))
        {| ldev := slot_at index x2 d; mmio := mmio m; klog := klog m ++ t_irq |}
      = Some (r, {| ldev := slot_at index x' d; mmio := regs'; klog := klog m ++ t |}) ∧
      slot_outcome desc index d x r x' t).
  { intros x2 t_irq Hdev Hirq.
    destruct (call_desc_init_run desc index
                {| ldev := slot_at index x2 d; mmio := mmio m; klog := klog m ++ t_irq |}
                x2) as [regs' Hrun].
    { by apply slot_at_lookup. }
    { done. }
    { cbn [ldev]. by rewrite slot_at_length. }
    rewrite bind_eq, Hrun. cbn [ldev klog].
    case_decide as Herr.
    - rewrite bind_eq, (update_ip_run _ _ _ x2) by (by apply slot_at_lookup).
      cbn [ldev mmio klog]. rewrite slot_at_twice, ret_eq, Herr, <- app_assoc.
      eexists 0, _, _, regs'. split; [done|].
      apply slot_init_ok; [lia|done..].
    - rewrite ret_eq, <- app_assoc.
      eexists _, _, _, regs'. split; [done|].
      apply slot_init_failed; [lia|done..]. }
  destruct (irq_name desc) as [irq|] eqn:Hirq.
  - rewrite bind_eq, call_run. cbn [log_call ldev mmio klog].
    case_decide as Herr.
    + rewrite ret_eq. eexists _, _, _, (mmio m). split; [done|].
      apply slot_irq_failed; [lia|done..].
    + rewrite bind_eq, (update_ip_run _ _ _ x1) by (by apply slot_at_lookup).
      cbn [log_call ldev mmio klog]. rewrite slot_at_twice.
      apply Hinit; [done|]. apply irq_found; [done|lia].
  - specialize (Hinit x1 [] eq_refl (irq_not_named _ _ _ _ Hirq)).
    by rewrite app_nil_r in Hinit.
Qed.

Lemma lima_init_ip_run index desc m :
  lima_ip_desc !! index = Some desc →
  lima_init_ip index m = init_ip_body desc index m.
Proof.
  intros H. unfold lima_init_ip, desc_at. by rewrite bind_eq, H.
Qed.

Lemma irq_resolved_window desc index d x1 x2 t iomem :
  irq_resolved desc index d x1 x2 t →
  (index < length (ip d))%nat →
  window_assigned index iomem x1 →
  ip_present x2 = ip_present x1 ∧
  window_assigned index iomem x2 ∧
  ∀ e, e ∈ t →
    (∃ irq, k_call e = platform_get_irq_byname irq ∧ 0 ≤ k_ret e) ∧
    ∃ y, ip (k_at e) !! index = Some y ∧ window_assigned index iomem y.
Proof.
  intros Hirq Hi Hw. destruct Hirq as [Hnone | irq Hname Hok].
  - split; [done|]. split; [done|]. intros e He. by apply not_elem_of_nil in He.
  - split; [done|]. split; [done|]. intros e He.
    apply list_elem_of_singleton in He as ->. split; [by eexists|].
    exists x1. split; [|done]. by apply slot_at_lookup.
Qed.

(** C6.  When the descriptor's register offset for the active variant is
    absent (negative), per-slot init returns 0 and leaves the machine as
    it was: nothing is added to the call log, so the type-specific init
    is not invoked, and the instance, with its presence flag, is not
    written.  The descriptor is arbitrary, so this holds whatever its
    [must_have] flag says. *)
Theorem init_ip_skips_absent_offset desc index m :
  offset desc (ldev_id (ldev m)) < 0 →
  init_ip_body desc index m = Some (0, m) ∧
  (lima_ip_desc !! index = Some desc → lima_init_ip index m = Some (0, m)).
Proof.
  intros Hoff.
  assert (Hbody : init_ip_body desc index m = Some (0, m)).
  { unfold init_ip_body. rewrite bind_eq. cbn [get_dev].
    by rewrite decide_True. }
  split; [done|].
  intros Hdesc. by rewrite (lima_init_ip_run _ _ _ Hdesc).
Qed.

(** C9.  For a slot whose offset is present, per-slot init always
    returns, and the instance it leaves carries the device
    back-reference, the kind id and the register sub-window (device base
    plus offset), whatever the outcome.  The calls it makes are the
    interrupt lookup and the type-specific init, and at each of them the
    instance already carried these three fields. *)
Theorem init_ip_assigns_window_first desc index m x :
  ip (ldev m) !! index = Some x →
  length (ip (ldev m)) = lima_ip_num →
  0 ≤ offset desc (ldev_id (ldev m)) →
  let iomem := ldev_iomem (ldev m) + offset desc (ldev_id (ldev m)) in
  ∃ r m' x' t,
    init_ip_body desc index m = Some (r, m') ∧
    klog m' = klog m ++ t ∧
    ip (ldev m') !! index = Some x' ∧
    window_assigned index iomem x' ∧
    ∀ e, e ∈ t →
      (k_call e = desc_init index ∨ ∃ irq, k_call e = platform_get_irq_byname irq) ∧
      ∃ y, ip (k_at e) !! index = Some y ∧ window_assigned index iomem y.
Proof.
  intros Hx Hlen Hoff iomem.
  assert (Hi : (index < length (ip (ldev m)))%nat) by (by eapply lookup_lt_Some).
  destruct (init_ip_body_spec desc index m x Hx Hlen) as (r & x' & t & regs' & Hrun & Hout).
  eexists r, _, x', t. split; [exact Hrun|]. cbn [ldev klog].
  split; [done|]. split; [by apply slot_at_lookup|].
  assert (Hw1 : window_assigned index iomem (ip_assign_window index iomem x)) by done.
  destruct Hout as [Habs | irq _ Hname Hfail | x2 t_irq _ Hirq Hret | x2 t_irq _ Hirq Hret].
  - lia.
  - split; [done|]. intros e He. apply list_elem_of_singleton in He as ->.
    split; [right; by eexists|]. eexists. split; [by apply slot_at_lookup|done].
  - destruct (irq_resolved_window _ _ _ _ _ _ iomem Hirq Hi Hw1) as (_ & Hw2 & Ht).
    split; [done|]. intros e He. apply elem_of_app in He as [He | He].
    + destruct (Ht e He) as [(irq & Hc & _) Hy]. split; [right; by eexists|done].
    + apply list_elem_of_singleton in He as ->. split; [by left|].
      eexists. split; [by apply slot_at_lookup|done].
  - destruct (irq_resolved_window _ _ _ _ _ _ iomem Hirq Hi Hw1) as (_ & Hw2 & Ht).
    split; [done|]. intros e He. apply elem_of_app in He as [He | He].
    + destruct (Ht e He) as [(irq & Hc & _) Hy]. split; [right; by eexists|done].
    + apply list_elem_of_singleton in He as ->. split; [by left|].
      eexists. split; [by apply slot_at_lookup|done].
Qed.



(** ** Which calls a computation can add to the log *)

Lemma appends_ret {A} P (x : A) : appends P (mret x).
Proof.
  intros m r m' [= <- <-]. exists []. split; [by rewrite app_nil_r|].
  intros e He. by apply not_elem_of_nil in He.
Qed.

Lemma appends_bind {A B} P (c : M A) (f : A → M B) :
  appends P c → (∀ x, appends P (f x)) → appends P (c ≫= f).
Proof.
  intros Hc Hf m r m' Hrun. rewrite bind_eq in Hrun.
  destruct (c m) as [[x m1]|] eqn:Hcm; [|done].
  destruct (Hc _ _ _ Hcm) as (t1 & Hlog1 & Ht1).
  destruct (Hf _ _ _ _ Hrun) as (t2 & Hlog2 & Ht2).
  exists (t1 ++ t2). split; [by rewrite Hlog2, Hlog1, app_assoc|].
  intros e He. apply elem_of_app in He as [?|?]; auto.
Qed.

Lemma appends_silent {A} P (c : M A) :
  (∀ m r m', c m = Some (r, m') → klog m' = klog m) → appends P c.
Proof.
  intros Hc m r m' Hrun. exists []. split; [by rewrite app_nil_r, (Hc _ _ _ Hrun)|].
  intros e He. by apply not_elem_of_nil in He.
Qed.

Lemma appends_call P c : P c → appends P (call c).
Proof.
  intros HP m r m' [= <- <-]. eexists. split; [done|].
  intros e He. by apply list_elem_of_singleton in He as ->.
Qed.

Lemma appends_call_void P c : P c → appends P (call_void c).
Proof.
  intros HP m r m' [= <- <-]. eexists. split; [done|].
  intros e He. by apply list_elem_of_singleton in He as ->.
Qed.

Lemma appends_undefined {A} P : appends P (undefined (A := A)).
Proof. intros m r m' [=]. Qed.

Lemma appends_get_dev P : appends P get_dev.
Proof. apply appends_silent. by intros m r m' [= <- <-]. Qed.

Lemma appends_modify_dev P f : appends P (modify_dev f).
Proof. apply appends_silent. by intros m r m' [= <- <-]. Qed.

Lemma appends_assign P f v : appends P (assign f v).
Proof. apply appends_modify_dev. Qed.

Lemma appends_ip_at P index : appends P (ip_at index).
Proof.
  apply appends_silent. intros m r m'. unfold ip_at.
  destruct (ip (ldev m) !! index); by intros [= <- <-].
Qed.

Lemma appends_desc_at P index : appends P (desc_at index).
Proof.
  apply appends_silent. intros m r m'. unfold desc_at.
  destruct (lima_ip_desc !! index); by intros [= <- <-].
Qed.

Lemma appends_update_ip P index f : appends P (update_ip index f).
Proof.
  apply appends_bind; [apply appends_ip_at|]. intros x. apply appends_modify_dev.
Qed.

Lemma appends_on_pipe P p f : appends P (on_pipe p f).
Proof.
  apply appends_silent. intros m r m'. unfold on_pipe.
  destruct (f (get_pipe p (ldev m))); by intros [= <- <-].
Qed.

Lemma appends_for_each {A} P (body : A → nat → M A) acc l :
  (∀ a i, appends P (body a i)) → appends P (for_each body acc l).
Proof.
  intros Hbody. revert acc. induction l as [|i l IH]; intros acc; simpl.
  - apply appends_ret.
  - apply appends_bind; [apply Hbody|]. intros a. apply IH.
Qed.

Lemma appends_weaken {A} (P Q : kcall → Prop) (c : M A) :
  (∀ k, P k → Q k) → appends P c → appends Q c.
Proof.
  intros HPQ Hc m r m' Hrun. destruct (Hc _ _ _ Hrun) as (t & Hlog & Ht).
  exists t. split; [done|]. auto.
Qed.

Ltac appends_step :=
  lazymatch goal with
  | |- appends _ (_ ≫= _) => apply appends_bind; [|intros ?]
  | |- appends _ (mret _) => apply appends_ret
  | |- appends _ (call _) => apply appends_call
  | |- appends _ (call_void _) => apply appends_call_void
  | |- appends _ get_dev => apply appends_get_dev
  | |- appends _ (assign _ _) => apply appends_assign
  | |- appends _ (modify_dev _) => apply appends_modify_dev
  | |- appends _ (ip_at _) => apply appends_ip_at
  | |- appends _ (desc_at _) => apply appends_desc_at
  | |- appends _ (update_ip _ _) => apply appends_update_ip
  | |- appends _ (on_pipe _ _) => apply appends_on_pipe
  | |- appends _ undefined => apply appends_undefined
  | |- appends _ (readl _ _) => apply appends_silent; by intros ? ? ? [= <- <-]
  | |- appends _ (writel _ _ _) => apply appends_silent; by intros ? ? ? [= <- <-]
  | |- appends _ (for_each _ _ _) => apply appends_for_each; intros ? ?
  | |- appends _ (if ?b then _ else _) => destruct b
  | |- appends _ (match ?x with _ => _ end) => destruct x
  | |- appends _ (let '(_, _) := ?x in _) => destruct x
  end.

Ltac appends_auto :=
  cbv zeta; repeat appends_step; unfold setup_call, block_call;
  cbn [classify is_mapping]; auto.

Lemma appends_clk_fini : appends (λ c, classify c = cls_release) lima_clk_fini.
Proof. unfold lima_clk_fini. appends_auto. Qed.

Lemma appends_regulator_fini : appends (λ c, classify c = cls_release) lima_regulator_fini.
Proof. unfold lima_regulator_fini. appends_auto. Qed.

Lemma appends_err_out3 err : appends (λ c, classify c = cls_release) (err_out3 err).
Proof.
  unfold err_out3, err_out2, err_out1, err_out0.
  pose proof appends_clk_fini. pose proof appends_regulator_fini.
  appends_auto.
Qed.

Lemma appends_fini_ip index :
  appends (λ c, classify c = cls_slot_fini) (lima_fini_ip index).
Proof. unfold lima_fini_ip, call_desc_fini, lima_bcast_fini. appends_auto. Qed.

Lemma appends_fini_ip_down i :
  appends (λ c, classify c = cls_slot_fini) (fini_ip_down i).
Proof.
  induction i as [|i IH]; simpl; [apply appends_ret|].
  apply appends_bind; [apply appends_fini_ip|]. intros _. apply IH.
Qed.

Lemma appends_err_out4 i err :
  appends (λ c, classify c = cls_slot_fini ∨ classify c = cls_release) (err_out4 i err).
Proof.
  unfold err_out4. apply appends_bind.
  - eapply appends_weaken; [|apply appends_fini_ip_down]. auto.
  - intros _. eapply appends_weaken; [|apply appends_err_out3]. auto.
Qed.

Lemma appends_init_gp_pipe : appends (λ c, classify c = cls_pipe) lima_init_gp_pipe.
Proof. unfold lima_init_gp_pipe. appends_auto. Qed.

Lemma appends_init_pp_pipe : appends (λ c, classify c = cls_pipe) lima_init_pp_pipe.
Proof. unfold lima_init_pp_pipe, pp_pipe_round. appends_auto. Qed.

Lemma appends_fini_gp_pipe : appends (λ c, classify c = cls_pipe) lima_fini_gp_pipe.
Proof. unfold lima_fini_gp_pipe. appends_auto. Qed.

(** ** The loop over the slots *)

Lemma slot_at_id index x d : ldev_id (slot_at index x d) = ldev_id d.
Proof. done. Qed.

Lemma slot_at_lookup_ne index k x d :
  index ≠ k → ip (slot_at index x d) !! k = ip d !! k.
Proof. intros H. unfold slot_at. simpl. by apply list_lookup_insert_ne. Qed.

Lemma slot_at_frame index x d :
  slot_at index x d = set_ip_array (ip (slot_at index x d)) d.
Proof. done. Qed.

Lemma irq_resolved_calls desc index d x1 x2 t e :
  irq_resolved desc index d x1 x2 t → e ∈ t →
  classify (k_call e) = cls_slot_irq.
Proof.
  intros [?|irq ? ?] He; [by apply not_elem_of_nil in He|].
  by apply list_elem_of_singleton in He as ->.
Qed.

(** What the calls of one round are, and what a failing type-specific
    init of a mandatory slot does to the result. *)
Lemma slot_outcome_calls desc index d x r x' t e :
  slot_outcome desc index d x r x' t → e ∈ t →
  classify (k_call e) = cls_slot_irq ∨
  (k_call e = desc_init index ∧
   (k_ret e ≠ 0 → must_have desc (ldev_id d) = true → r = k_ret e)).
Proof.
  intros Hout He.
  destruct Hout as [Habs | irq _ Hname Hneg | x2 t_irq _ Hirq Hret | x2 t_irq _ Hirq Hret].
  - by apply not_elem_of_nil in He.
  - apply list_elem_of_singleton in He as ->. by left.
  - apply elem_of_app in He as [He|He].
    + left. by eapply irq_resolved_calls.
    + apply list_elem_of_singleton in He as ->. right. split; [done|].
      cbn [logged k_ret]. by intros _ ->.
  - apply elem_of_app in He as [He|He].
    + left. by eapply irq_resolved_calls.
    + apply list_elem_of_singleton in He as ->. right. split; [done|].
      cbn [logged k_ret]. done.
Qed.

Lemma slot_outcome_fatal desc index d x r x' t :
  slot_outcome desc index d x r x' t → r ≠ 0 →
  must_have desc (ldev_id d) = true ∧ 0 ≤ offset desc (ldev_id d).
Proof.
  intros Hout Hr.
  destruct Hout as [Habs | irq ? Hname Hneg | x2 t_irq ? Hirq Hret | x2 t_irq ? Hirq Hret];
    try done; by destruct (must_have desc (ldev_id d)).
Qed.

Lemma slot_outcome_absent desc index d x r x' t :
  slot_outcome desc index d x r x' t → offset desc (ldev_id d) < 0 →
  x' = x ∧ t = [] ∧ r = 0.
Proof. intros Hout Hoff. destruct Hout; try lia. done. Qed.

Lemma slot_outcome_mandatory desc index d x x' t :
  slot_outcome desc index d x 0 x' t →
  0 ≤ offset desc (ldev_id d) →
  must_have desc (ldev_id d) = true →
  ip_present x' = true.
Proof.
  intros Hout Hoff Hmust. remember 0 as r eqn:Hr.
  destruct Hout as [Habs | irq ? Hname Hneg | x2 t_irq ? Hirq Hret | x2 t_irq ? Hirq Hret].
  - lia.
  - rewrite Hmust in Hr. lia.
  - rewrite Hmust in Hr. done.
  - done.
Qed.

Lemma init_ip_loop_spec n i m :
  (i + n = lima_ip_num)%nat →
  length (ip (ldev m)) = lima_ip_num →
  ∃ j err d' regs' t,
    init_ip_loop n i m
    = Some ((j, err), {| ldev := d'; mmio := regs'; klog := klog m ++ t |}) ∧
    slots_run i (ldev m) j err d' t.
Proof.
  revert i m. induction n as [|n IH]; intros i m Hn Hlen.
  - replace i with lima_ip_num by lia.
    exists lima_ip_num, 0, (ldev m), (mmio m), [].
    split; [|constructor]. cbn [init_ip_loop]. rewrite ret_eq, app_nil_r.
    by destruct m.
  - assert (Hi : (i < length lima_ip_desc)%nat) by (cbn [length lima_ip_desc]; unfold lima_ip_num in Hn; lia).
    destruct (lookup_lt_is_Some_2 _ _ Hi) as [desc Hdesc].
    assert (Hi' : (i < length (ip (ldev m)))%nat) by (rewrite Hlen; lia).
    destruct (lookup_lt_is_Some_2 _ _ Hi') as [x Hx].
    destruct (init_ip_body_spec desc i m x Hx Hlen) as (r & x' & t & regs' & Hrun & Hout).
    cbn [init_ip_loop]. rewrite bind_eq, (lima_init_ip_run _ _ _ Hdesc), Hrun.
    case_decide as Hr.
    + rewrite ret_eq. eexists i, r, _, regs', t. split; [done|].
      by eapply slots_stop.
    + assert (r = 0) as -> by lia.
      edestruct (IH (S i) {| ldev := slot_at i x' (ldev m); mmio := regs';
                             klog := klog m ++ t |})
        as (j & err & d' & regs'' & t' & Hloop & Hrest).
      { lia. }
      { cbn [ldev]. by rewrite slot_at_length. }
      rewrite Hloop. cbn [klog]. rewrite <- app_assoc.
      eexists j, err, d', regs'', (t ++ t'). split; [done|].
      by eapply slots_next.
Qed.

(** Properties of a run of the loop. *)

Lemma slots_run_bounds i d j err d' t :
  slots_run i d j err d' t →
  (i ≤ j)%nat ∧ (err = 0 → j = lima_ip_num) ∧
  (err ≠ 0 → ∃ desc, lima_ip_desc !! j = Some desc).
Proof.
  induction 1 as [d | i d desc x r x' t Hdesc Hx Hout Hr
                 | i d desc x x' t j err d' t' Hdesc Hx Hout Hrun IH].
  - done.
  - split; [done|]. split; [done|]. eauto.
  - destruct IH as (? & ? & ?). split; [lia|done].
Qed.

Lemma slots_run_frame i d j err d' t :
  slots_run i d j err d' t →
  d' = set_ip_array (ip d') d ∧ length (ip d') = length (ip d) ∧
  ∀ k, (k < i)%nat → ip d' !! k = ip d !! k.
Proof.
  induction 1 as [d | i d desc x r x' t Hdesc Hx Hout Hr
                 | i d desc x x' t j err d' t' Hdesc Hx Hout Hrun IH].
  - split; [by rewrite set_ip_array_same|done].
  - split; [done|]. split; [apply slot_at_length|].
    intros k Hk. apply slot_at_lookup_ne. lia.
  - destruct IH as (Hframe & Hlen & Hlow).
    split; [by rewrite Hframe at 1|].
    split; [by rewrite Hlen, slot_at_length|].
    intros k Hk. rewrite Hlow by lia. apply slot_at_lookup_ne. lia.
Qed.

Lemma slots_run_id i d j err d' t :
  slots_run i d j err d' t → ldev_id d' = ldev_id d.
Proof.
  intros H. apply slots_run_frame in H as (-> & _). done.
Qed.

Lemma slots_run_calls i d j err d' t e :
  slots_run i d j err d' t → e ∈ t →
  classify (k_call e) = cls_slot_irq ∨
  ∃ k desc, k_call e = desc_init k ∧ lima_ip_desc !! k = Some desc ∧
    (k_ret e ≠ 0 → must_have desc (ldev_id d) = true → k = j ∧ err = k_ret e).
Proof.
  induction 1 as [d | i d desc x r x' t Hdesc Hx Hout Hr
                 | i d desc x x' t j err d' t' Hdesc Hx Hout Hrun IH]; intros He.
  - by apply not_elem_of_nil in He.
  - destruct (slot_outcome_calls _ _ _ _ _ _ _ _ Hout He) as [?|[Hc Hfail]]; [by left|].
    right. exists i, desc. auto.
  - apply elem_of_app in He as [He|He].
    + destruct (slot_outcome_calls _ _ _ _ _ _ _ _ Hout He) as [?|[Hc Hfail]]; [by left|].
      right. exists i, desc. split; [done|]. split; [done|].
      intros Hret Hmust. specialize (Hfail Hret Hmust). congruence.
    + destruct (IH He) as [?|(k & desc' & Hc & Hdesc' & Hfail)]; [by left|].
      right. exists k, desc'. by rewrite slot_at_id in Hfail.
Qed.

(** After a loop that ran to the end, every mandatory slot with a present
    offset has its presence flag set, and a slot with an absent offset is
    as it was. *)
Lemma slots_run_success i d j d' t k desc :
  slots_run i d j 0 d' t →
  (i ≤ k)%nat →
  lima_ip_desc !! k = Some desc →
  (offset desc (ldev_id d) < 0 → ip d' !! k = ip d !! k) ∧
  (0 ≤ offset desc (ldev_id d) → must_have desc (ldev_id d) = true →
   ∃ y, ip d' !! k = Some y ∧ ip_present y = true).
Proof.
  intros Hrun. remember 0 as err eqn:Herr. revert Herr.
  induction Hrun as [d | i d desc0 x r x' t Hdesc Hx Hout Hr
                    | i d desc0 x x' t j err d' t' Hdesc Hx Hout Hrun IH];
    intros Herr Hk Hkd.
  - apply lookup_lt_Some in Hkd. cbn [length lima_ip_desc] in Hkd.
    unfold lima_ip_num in Hk. lia.
  - done.
  - subst err. destruct (decide (k = i)) as [->|Hne].
    + assert (desc0 = desc) as -> by congruence.
      destruct (slots_run_frame _ _ _ _ _ _ Hrun) as (_ & _ & Hlow).
      rewrite Hlow by lia.
      assert (Hi : (i < length (ip d))%nat) by (by eapply lookup_lt_Some).
      rewrite slot_at_lookup by done. split.
      * intros Hoff. destruct (slot_outcome_absent _ _ _ _ _ _ _ Hout Hoff) as (-> & _).
        done.
      * intros Hoff Hmust. exists x'. split; [done|].
        by eapply slot_outcome_mandatory.
    + destruct (IH eq_refl ltac:(lia) Hkd) as [Habs Hmand].
      rewrite slot_at_id in Habs, Hmand.
      rewrite slot_at_lookup_ne in Habs by done. done.
Qed.

(** ** Acquiring and releasing: clocks, reset, regulator *)

Ltac msimpl :=
  cbn [call call_void assign modify_dev get_dev mret M_ret ldev mmio klog log_call].

Ltac mstep := rewrite bind_eq; msimpl.

Lemma IS_ERR_nonzero p : IS_ERR p = true → PTR_ERR p ≠ 0.
Proof.
  unfold IS_ERR, PTR_ERR. intros H%andb_true_iff. lia.
Qed.

Lemma held_app log t : held (log ++ t) = foldl held_step (held log) t.
Proof. unfold held. apply foldl_app. Qed.

Lemma held_step_none t : foldl held_step None t = None.
Proof. by induction t. Qed.

Lemma lima_clk_init_spec m :
  let bus := kret (devm_clk_get "bus") in
  let gpu := kret (devm_clk_get "core") in
  let rst := kret devm_reset_control_get_optional in
  ∃ r m',
    lima_clk_init m = Some (r, m') ∧
    (r = 0 →
       ldev m' = set_field f_reset rst
                   (set_field f_clk_gpu gpu (set_field f_clk_bus bus (ldev m))) ∧
       mmio m' = mmio m ∧
       ∀ h, held (klog m) = Some h →
         held (klog m')
         = Some ((if decide (rst ≠ NULL) then [res_reset rst] else [])
                 ++ [res_clk gpu; res_clk bus] ++ h)).
Proof.
  intros bus gpu rst. unfold lima_clk_init.
  repeat mstep. fold bus.
  destruct (IS_ERR bus) eqn:Hbus.
  { eexists _, _. split; [done|]. intros Hr. by apply IS_ERR_nonzero in Hbus. }
  repeat mstep. fold gpu.
  destruct (IS_ERR gpu) eqn:Hgpu.
  { eexists _, _. split; [done|]. intros Hr. by apply IS_ERR_nonzero in Hgpu. }
  repeat mstep.
  case_decide as Hen1.
  { eexists _, _. split; [done|]. done. }
  repeat mstep.
  case_decide as Hen2.
  { repeat mstep. eexists _, _. split; [done|]. done. }
  repeat mstep. fold rst.
  destruct (IS_ERR rst) eqn:Hrst.
  { repeat mstep. eexists _, _. split; [done|].
    intros Hr. by apply IS_ERR_nonzero in Hrst. }
  assert (Hb : kret (clk_prepare_enable bus) = 0) by lia.
  assert (Hg : kret (clk_prepare_enable gpu) = 0) by lia.
  case_decide as Hnull.
  - repeat mstep. case_decide as Hde.
    { repeat mstep. eexists _, _. split; [done|]. done. }
    assert (Hd : kret (reset_control_deassert rst) = 0) by lia.
    eexists _, _. split; [done|]. intros _. msimpl.
    split; [done|]. split; [done|].
    intros h Hh. rewrite !held_app, Hh.
    cbn [foldl held_step acquired released k_call k_ret].
    by rewrite Hb, Hg, Hd, !decide_True by done.
  - eexists _, _. split; [done|]. intros _. msimpl.
    split; [done|]. split; [done|].
    intros h Hh. rewrite !held_app, Hh.
    cbn [foldl held_step acquired released k_call k_ret].
    by rewrite Hb, Hg, !decide_True by done.
Qed.

Lemma lima_regulator_init_spec m :
  let reg := kret devm_regulator_get_optional in
  ∃ r m',
    lima_regulator_init m = Some (r, m') ∧
    (r = 0 →
       ldev m' = set_field f_regulator (if IS_ERR reg then NULL else reg) (ldev m) ∧
       mmio m' = mmio m ∧
       ∀ h, held (klog m) = Some h →
         held (klog m')
         = Some ((if IS_ERR reg then [] else [res_regulator reg]) ++ h)).
Proof.
  intros reg. unfold lima_regulator_init.
  repeat mstep. fold reg.
  destruct (IS_ERR reg) eqn:Hreg.
  - repeat mstep. case_decide as Hnodev.
    + eexists _, _. split; [done|]. intros _. msimpl.
      split; [done|]. split; [done|].
      intros h Hh. rewrite !held_app, Hh. done.
    + eexists _, _. split; [done|]. intros Hr. by apply IS_ERR_nonzero in Hreg.
  - repeat mstep. case_decide as Hen.
    + eexists _, _. split; [done|]. lia.
    + eexists _, _. split; [done|]. intros _. msimpl.
      split; [done|]. split; [done|].
      intros h Hh. rewrite !held_app, Hh.
      cbn [foldl held_step acquired released k_call k_ret].
      by rewrite decide_True by lia.
Qed.

(** From label [err_out3] on: the calls of [release_calls], and the error
    is what is returned. *)
Lemma err_out3_run err m :
  err_out3 err m
  = Some (err, {| ldev := ldev m; mmio := mmio m;
                  klog := klog m ++ void_entries (ldev m) (release_calls (ldev m)) |}).
Proof.
  unfold err_out3, err_out2, err_out1, err_out0, lima_regulator_fini, lima_clk_fini,
    release_calls.
  repeat (first [rewrite bind_eq | progress msimpl | case_decide]);
    rewrite ret_eq; unfold log_call;
    cbn [ldev mmio klog void_entries fmap list_fmap app]; by rewrite <- ?app_assoc.
Qed.

Lemma give_back_head r h : give_back r (r :: h) = Some h.
Proof. cbn [give_back]. by rewrite decide_True. Qed.

Lemma held_step_release e r h :
  acquired e = None → released e = Some r →
  held_step (Some (r :: h)) e = Some h.
Proof.
  intros Ha Hr. unfold held_step. rewrite Ha, Hr. apply give_back_head.
Qed.

Lemma held_release_calls d log h :
  held log = Some (owed d ++ h) →
  held (log ++ void_entries d (release_calls d)) = Some h.
Proof.
  intros Hh. rewrite held_app, Hh. unfold owed, release_calls.
  repeat case_decide;
    cbn [void_entries fmap list_fmap app foldl];
    by rewrite !held_step_release by done.
Qed.

(** ** [lima_device_init] up to the register mapping *)

Lemma appends_clk_init : appends setup_call lima_clk_init.
Proof. unfold lima_clk_init. appends_auto. Qed.

Lemma appends_regulator_init : appends setup_call lima_regulator_init.
Proof. unfold lima_regulator_init. appends_auto. Qed.

Lemma appends_err_out2 err : appends setup_call (err_out2 err).
Proof.
  unfold err_out2, err_out1, err_out0, lima_regulator_fini, lima_clk_fini.
  appends_auto.
Qed.

Lemma appends_err_out1 err : appends setup_call (err_out1 err).
Proof.
  unfold err_out1, err_out0, lima_regulator_fini, lima_clk_fini.
  appends_auto.
Qed.

Lemma appends_err_out0 err : appends setup_call (err_out0 err).
Proof. unfold err_out0, lima_clk_fini. appends_auto. Qed.

Lemma err_out0_total err m : ∃ m', err_out0 err m = Some (err, m').
Proof.
  unfold err_out0, lima_clk_fini.
  repeat (first [rewrite bind_eq | progress msimpl | case_decide]);
    rewrite ret_eq; eauto.
Qed.

Lemma err_out1_total err m : ∃ m', err_out1 err m = Some (err, m').
Proof.
  unfold err_out1, lima_regulator_fini.
  repeat (first [rewrite bind_eq | progress msimpl | case_decide]);
    apply err_out0_total.
Qed.

Lemma err_out2_total err m : ∃ m', err_out2 err m = Some (err, m').
Proof.
  unfold err_out2.
  repeat (first [rewrite bind_eq | progress msimpl]).
  apply err_out1_total.
Qed.

Lemma setup_log_extend (l t : list klog_entry) :
  (∀ e, e ∈ l → setup_call (k_call e)) →
  (∀ e, e ∈ t → setup_call (k_call e)) →
  ∀ e, e ∈ l ++ t → setup_call (k_call e).
Proof. intros Hl Ht e [?|?]%elem_of_app; auto. Qed.

Lemma lima_device_init_setup id regs :
  let m0 := machine_zero id regs in
  (∃ r m', lima_device_init m0 = Some (r, m') ∧
           ∀ e, e ∈ klog m' → setup_call (k_call e)) ∨
  (∃ m1, lima_device_init m0 = lima_device_init_map m1 ∧ setup_done id m1).
Proof.
  intros m0. unfold lima_device_init.
  mstep.
  set (ma := log_call dma_set_coherent_mask 0 (ldev m0) m0).
  assert (Hla : ∀ e, e ∈ klog ma → setup_call (k_call e)).
  { intros e He. apply list_elem_of_singleton in He as ->. by split; [left|]. }
  assert (Hha : held (klog ma) = Some []) by done.
  destruct (lima_clk_init_spec ma) as (r1 & mb & Hclk & Hclk_ok).
  destruct (appends_clk_init _ _ _ Hclk) as (t1 & Hlog1 & Ht1).
  rewrite bind_eq, Hclk; cbn beta iota.
  assert (Hlb : ∀ e, e ∈ klog mb → setup_call (k_call e)).
  { rewrite Hlog1. by apply setup_log_extend. }
  destruct (decide (r1 ≠ 0)) as [Hr1|Hr1].
  { left. eexists _, _. split; [by rewrite ret_eq|]. done. }
  destruct (Hclk_ok ltac:(lia)) as (Hdb & Hmb & Hhb). specialize (Hhb _ Hha).
  clear Hclk_ok Hclk Hlog1.
  destruct (lima_regulator_init_spec mb) as (r2 & mc & Hreg & Hreg_ok).
  destruct (appends_regulator_init _ _ _ Hreg) as (t2 & Hlog2 & Ht2).
  rewrite bind_eq, Hreg; cbn beta iota.
  assert (Hlc : ∀ e, e ∈ klog mc → setup_call (k_call e)).
  { rewrite Hlog2. by apply setup_log_extend. }
  destruct (decide (r2 ≠ 0)) as [Hr2|Hr2].
  { left. destruct (err_out0_total r2 mc) as [m' Hrun].
    destruct (appends_err_out0 _ _ _ _ Hrun) as (t & Hlog & Ht).
    eexists _, _. split; [done|]. rewrite Hlog. by apply setup_log_extend. }
  destruct (Hreg_ok ltac:(lia)) as (Hdc & Hmc & Hhc). specialize (Hhc _ Hhb).
  clear Hreg_ok Hreg Hlog2 Hhb Hlb.
  destruct mc as [dc rc lc]. cbn [ldev mmio klog] in *. subst dc rc.
  rewrite Hdb, Hmb. clear Hdb Hmb. cbn [ma log_call m0 machine_zero ldev mmio klog].
  clearbody ma. clear Hla Hha Ht1 Ht2.
  repeat mstep.
  set (vm := kret lima_vm_create).
  set (rst := kret devm_reset_control_get_optional) in *.
  set (reg := kret devm_regulator_get_optional) in *.
  set (gpu := kret (devm_clk_get "core")) in *.
  set (bus := kret (devm_clk_get "bus")) in *.
  set (dc := set_field f_regulator _ _).
  set (ld := lc ++ [_]).
  assert (Hld : ∀ e, e ∈ ld → setup_call (k_call e)).
  { apply setup_log_extend; [done|]. intros e He.
    apply list_elem_of_singleton in He as ->. by split; [left|]. }
  destruct (decide (vm = NULL)) as [Hvm|Hvm].
  { left.
    match goal with |- context [err_out1 ?err ?m] =>
      destruct (err_out1_total err m) as [m' Hrun] end.
    destruct (appends_err_out1 _ _ _ _ Hrun) as (t & Hlog & Ht).
    eexists _, _. split; [done|]. rewrite Hlog. by apply setup_log_extend. }
  assert (Hhd : regulator_not_null → held ld
    = Some ([res_vm vm]
            ++ (if decide (regulator dc ≠ NULL) then [res_regulator (regulator dc)] else [])
            ++ (if decide (reset dc ≠ NULL) then [res_reset (reset dc)] else [])
            ++ [res_clk (clk_gpu dc); res_clk (clk_bus dc)])).
  { intros Hregnull. unfold ld. rewrite held_app, Hhc.
    cbn [foldl held_step acquired released k_call k_ret].
    rewrite decide_True by done.
    cbn [dc set_field regulator reset clk_gpu clk_bus lima_device_zero].
    rewrite app_nil_r. do 2 f_equal.
    destruct (IS_ERR reg) eqn:Hreg.
    - by rewrite (decide_False (P := NULL ≠ NULL)) by (intros H; by apply H).
    - by rewrite (decide_True (P := reg ≠ NULL)) by auto. }
  repeat mstep. cbn [dc set_field ldev_id lima_device_zero].
  destruct (decide (id = lima_gpu_mali450)) as [Hid|Hid].
  - repeat mstep. set (cpu := kret dma_alloc_wc).
    set (le := ld ++ [_]).
    assert (Hle : ∀ e, e ∈ le → setup_call (k_call e)).
    { apply setup_log_extend; [done|]. intros e He.
      apply list_elem_of_singleton in He as ->. by split; [left|]. }
    destruct (decide (cpu = NULL)) as [Hcpu|Hcpu].
    + left. rewrite ?ret_eq; cbn beta iota.
      match goal with |- context [err_out2 ?err ?m] =>
        destruct (err_out2_total err m) as [m' Hrun] end.
      destruct (appends_err_out2 _ _ _ _ Hrun) as (t & Hlog & Ht).
      eexists _, _. split; [done|]. rewrite Hlog. by apply setup_log_extend.
    + right. repeat mstep. rewrite ?ret_eq; cbn beta iota.
      eexists. split; [done|].
      unfold setup_done. cbn [ldev klog].
      split; [done|]. split; [done|]. split; [done|]. split; [done|].
      split; [|done]. intros Hregnull.
      unfold le. rewrite held_app, Hhd by done.
      cbn [foldl held_step acquired released k_call k_ret]. fold cpu.
      rewrite decide_True by done.
      unfold owed. cbn [set_field dlbu_cpu empty_vm regulator reset clk_gpu clk_bus].
      by rewrite (decide_True (P := cpu ≠ NULL)) by done.
  - right. repeat mstep. rewrite ?ret_eq; cbn beta iota.
    eexists. split; [done|].
    unfold setup_done. cbn [ldev klog].
    split; [done|]. split; [done|]. split; [done|]. split; [done|].
    split; [|done]. intros Hregnull.
    rewrite Hhd by done.
    unfold owed. cbn [set_field dlbu_cpu empty_vm regulator reset clk_gpu clk_bus].
    cbn [dc set_field dlbu_cpu lima_device_zero].
    by rewrite (decide_False (P := NULL ≠ NULL)) by (intros H; by apply H).
Qed.

(** ** Unwinding the slots *)

Lemma void_entries_app d cs cs' :
  void_entries d (cs ++ cs') = void_entries d cs ++ void_entries d cs'.
Proof. apply fmap_app. Qed.

Lemma lima_fini_ip_run index m :
  (index < lima_ip_num)%nat →
  length (ip (ldev m)) = lima_ip_num →
  lima_fini_ip index m
  = Some (tt, {| ldev := ldev m; mmio := mmio m;
                 klog := klog m ++ void_entries (ldev m)
                           (if ip_present (ip (ldev m) !!! index)
                            then [desc_fini index] else []) |}).
Proof.
  intros Hi Hlen.
  assert (Hd : (index < length lima_ip_desc)%nat) by done.
  destruct (lookup_lt_is_Some_2 _ _ Hd) as [desc Hdesc].
  assert (Hi' : (index < length (ip (ldev m)))%nat) by (by rewrite Hlen).
  destruct (lookup_lt_is_Some_2 _ _ Hi') as [x Hx].
  unfold lima_fini_ip, desc_at.
  rewrite bind_eq, Hdesc, bind_eq, (ip_at_run _ _ _ Hx).
  rewrite (list_lookup_total_correct _ _ _ Hx).
  destruct (ip_present x).
  - unfold call_desc_fini, lima_bcast_fini. destruct (func desc); try done.
  - rewrite ret_eq, app_nil_r. by destruct m.
Qed.

Lemma fini_calls_S d i :
  fini_calls d (S i)
  = (if ip_present (ip d !!! i) then [desc_fini i] else []) ++ fini_calls d i.
Proof.
  unfold fini_calls. rewrite seq_S, reverse_app. cbn [reverse rev_append app Nat.add].
  rewrite filter_cons. destruct (ip_present (ip d !!! i)).
  - by rewrite decide_True.
  - by rewrite decide_False.
Qed.

Lemma fini_ip_down_run i m :
  (i ≤ lima_ip_num)%nat →
  length (ip (ldev m)) = lima_ip_num →
  fini_ip_down i m
  = Some (tt, {| ldev := ldev m; mmio := mmio m;
                 klog := klog m ++ void_entries (ldev m) (fini_calls (ldev m) i) |}).
Proof.
  revert m. induction i as [|i IH]; intros m Hi Hlen.
  - cbn [fini_ip_down]. rewrite ret_eq.
    unfold fini_calls, void_entries. cbn. rewrite app_nil_r. by destruct m.
  - cbn [fini_ip_down]. rewrite bind_eq, lima_fini_ip_run by (done || lia).
    rewrite IH by (done || lia). cbn [ldev mmio klog].
    by rewrite fini_calls_S, void_entries_app, app_assoc.
Qed.

Lemma err_out4_run i err m :
  (i ≤ lima_ip_num)%nat →
  length (ip (ldev m)) = lima_ip_num →
  err_out4 i err m
  = Some (err, {| ldev := ldev m; mmio := mmio m;
                  klog := klog m ++ void_entries (ldev m)
                            (fini_calls (ldev m) i ++ release_calls (ldev m)) |}).
Proof.
  intros Hi Hlen. unfold err_out4.
  rewrite bind_eq, fini_ip_down_run, err_out3_run by done.
  cbn [ldev mmio klog]. by rewrite void_entries_app, app_assoc.
Qed.

(** ** The calls of the second half of [lima_device_init] *)

Lemma bcast_init_klog index m r m' :
  lima_bcast_init index m = Some (r, m') → klog m' = klog m.
Proof.
  intros Hrun.
  assert (Ha : appends (λ _, False) (lima_bcast_init index)).
  { unfold lima_bcast_init, shl1. appends_auto. }
  destruct (Ha _ _ _ Hrun) as (t & -> & Ht).
  destruct t as [|e t]; [by rewrite app_nil_r|].
  destruct (Ht e). by left.
Qed.

Lemma appends_call_desc_init P desc index :
  P (desc_init index) → appends P (call_desc_init desc index).
Proof.
  intros HP. unfold call_desc_init.
  destruct (func desc); try (by apply appends_call).
  intros m r m' Hrun.
  destruct (lima_bcast_init index m) as [[r0 m0]|] eqn:Hb; [|done].
  injection Hrun as <- <-. cbn [klog log_call].
  rewrite (bcast_init_klog _ _ _ _ Hb). eexists. split; [done|].
  intros e He. by apply list_elem_of_singleton in He as ->.
Qed.

Lemma appends_init_ip index :
  appends (λ c, classify c = cls_slot_irq ∨ classify c = cls_slot_init)
          (lima_init_ip index).
Proof.
  unfold lima_init_ip, init_ip_body.
  pose proof (λ desc, appends_call_desc_init
    (λ c, classify c = cls_slot_irq ∨ classify c = cls_slot_init) desc index
    (or_intror eq_refl)) as Hinit.
  appends_auto.
Qed.

Lemma appends_init_ip_loop n i :
  appends (λ c, classify c = cls_slot_irq ∨ classify c = cls_slot_init)
          (init_ip_loop n i).
Proof.
  revert i. induction n as [|n IH]; intros i; cbn [init_ip_loop].
  - apply appends_ret.
  - pose proof (appends_init_ip i). appends_auto.
Qed.

Lemma appends_err_out4' i err : appends block_call (err_out4 i err).
Proof.
  eapply appends_weaken; [|apply appends_err_out4].
  intros c [H|H]; unfold block_call; by rewrite H.
Qed.

Lemma appends_err_out5 i err : appends block_call (err_out5 i err).
Proof.
  unfold err_out5. apply appends_bind.
  - eapply appends_weaken; [|apply appends_fini_gp_pipe].
    intros c H; unfold block_call; by rewrite H.
  - intros _. apply appends_err_out4'.
Qed.

Lemma appends_device_init_blocks : appends block_call lima_device_init_blocks.
Proof.
  unfold lima_device_init_blocks.
  apply appends_bind.
  { eapply appends_weaken; [|apply appends_init_ip_loop].
    intros c [H|H]; unfold block_call; by rewrite H. }
  intros [i err].
  assert (Hgp : appends block_call lima_init_gp_pipe).
  { eapply appends_weaken; [|apply appends_init_gp_pipe].
    intros c H; unfold block_call; by rewrite H. }
  assert (Hpp : appends block_call lima_init_pp_pipe).
  { eapply appends_weaken; [|apply appends_init_pp_pipe].
    intros c H; unfold block_call; by rewrite H. }
  pose proof (appends_err_out4' i). pose proof (appends_err_out5 i).
  appends_auto.
Qed.


(** ** The register mapping *)

Lemma lima_device_init_map_run m :
  let res := kret platform_get_resource in
  let iomem := kret (devm_ioremap_resource res) in
  lima_device_init_map m
  = if IS_ERR iomem
    then Some (PTR_ERR iomem,
               {| ldev := ldev (mapped m res iomem);
                  mmio := mmio m;
                  klog := klog (mapped m res iomem)
                          ++ void_entries (ldev (mapped m res iomem))
                               (release_calls (ldev (mapped m res iomem))) |})
    else lima_device_init_blocks (mapped m res iomem).
Proof.
  intros res iomem. unfold lima_device_init_map.
  repeat mstep. fold res iomem.
  rewrite <- app_assoc. cbn [app]. fold (mapped m res iomem).
  destruct (IS_ERR iomem); [|done].
  by rewrite err_out3_run.
Qed.

Lemma mapped_calls m res iomem e :
  (∀ e, e ∈ klog m → setup_call (k_call e)) →
  e ∈ klog (mapped m res iomem) →
  (classify (k_call e) = cls_setup ∨ classify (k_call e) = cls_release) ∧
  (is_mapping (k_call e) = true → k_ret e = iomem).
Proof.
  intros Hm He. unfold mapped in He. cbn [klog] in He.
  apply elem_of_app in He as [He|He].
  - destruct (Hm e He) as [Hc Hmap]. split; [done|]. by rewrite Hmap.
  - apply elem_of_cons in He as [->|He]; [by split; [left|]|].
    apply list_elem_of_singleton in He as ->. by split; [left|].
Qed.

Lemma release_calls_class d c :
  c ∈ release_calls d → classify c = cls_release.
Proof.
  unfold release_calls. intros Hc.
  repeat (apply elem_of_app in Hc as [Hc|Hc]); repeat case_decide;
    repeat (apply elem_of_cons in Hc as [->|Hc]); try done;
    by apply not_elem_of_nil in Hc.
Qed.

Lemma fini_calls_class d i c :
  c ∈ fini_calls d i → classify c = cls_slot_fini.
Proof.
  unfold fini_calls. intros (j & -> & _)%list_elem_of_fmap. done.
Qed.

Lemma void_entries_calls d cs : k_call <$> void_entries d cs = cs.
Proof.
  unfold void_entries. rewrite <- list_fmap_compose.
  induction cs as [|c cs IH]; [done|]. cbn. by rewrite IH.
Qed.

Lemma void_entries_elem d cs e :
  e ∈ void_entries d cs → k_call e ∈ cs ∧ k_ret e = 0.
Proof.
  unfold void_entries. intros (c & -> & Hc)%list_elem_of_fmap. done.
Qed.

Lemma filter_class_none (k : call_class) (cs : list kcall) :
  (∀ c, c ∈ cs → classify c ≠ k) →
  filter (λ c, classify c = k) cs = [].
Proof.
  induction cs as [|c cs IH]; intros Hcs; [done|].
  rewrite filter_cons, decide_False by (apply Hcs; by left).
  apply IH. intros c' Hc'. apply Hcs. by right.
Qed.

Lemma filter_class_all (k : call_class) (cs : list kcall) :
  (∀ c, c ∈ cs → classify c = k) →
  filter (λ c, classify c = k) cs = cs.
Proof.
  induction cs as [|c cs IH]; intros Hcs; [done|].
  rewrite filter_cons, decide_True by (apply Hcs; by left).
  f_equal. apply IH. intros c' Hc'. apply Hcs. by right.
Qed.

(** ** Unwinding after a slot has failed *)

Lemma appends_after_slots i :
  appends (λ c, classify c = cls_pipe ∨ classify c = cls_slot_fini
                ∨ classify c = cls_release)
    (err ← lima_init_gp_pipe;
     if decide (err ≠ 0) then err_out4 i err else
     err ← lima_init_pp_pipe;
     if decide (err ≠ 0) then err_out5 i err else
     mret 0).
Proof.
  assert (Hgp := appends_init_gp_pipe). assert (Hpp := appends_init_pp_pipe).
  assert (H4 := appends_err_out4 i). assert (Hfg := appends_fini_gp_pipe).
  unfold err_out5.
  repeat appends_step;
    first [ eapply appends_weaken; [|apply Hgp]; cbn beta; tauto
          | eapply appends_weaken; [|apply Hpp]; cbn beta; tauto
          | eapply appends_weaken; [|apply H4]; cbn beta; tauto
          | eapply appends_weaken; [|apply Hfg]; cbn beta; tauto ].
Qed.

Lemma blocks_unwind m r m' :
  length (ip (ldev m)) = lima_ip_num →
  lima_device_init_blocks m = Some (r, m') →
  ∃ t, klog m' = klog m ++ t ∧
    (∀ e, e ∈ t → block_call (k_call e)) ∧
    ∀ e k desc, e ∈ t → k_call e = desc_init k → k_ret e ≠ 0 →
      lima_ip_desc !! k = Some desc →
      must_have desc (ldev_id (ldev m)) = true →
      r = k_ret e ∧
      filter (λ c, classify c = cls_slot_fini) (k_call <$> t)
      = fini_calls (ldev m') k.
Proof.
  intros Hlen Hrun.
  destruct (appends_device_init_blocks _ _ _ Hrun) as (t & Hlog & Ht).
  exists t. split; [done|]. split; [done|].
  intros e k desc He Hcall Hret Hdesc Hmust.
  unfold lima_device_init_blocks in Hrun. rewrite bind_eq in Hrun.
  destruct (init_ip_loop_spec lima_ip_num 0 m eq_refl Hlen)
    as (j & err & d' & regs' & t1 & Hloop & Hslots).
  rewrite Hloop in Hrun. cbn beta iota in Hrun.
  destruct (slots_run_bounds _ _ _ _ _ _ Hslots) as (_ & Hend & Hstop).
  destruct (slots_run_frame _ _ _ _ _ _ Hslots) as (_ & Hlen' & _).
  (* a failed init of a mandatory slot, if logged by the loop, ended it *)
  assert (Hin1 : e ∈ t1 → k = j ∧ err = k_ret e).
  { intros He1.
    destruct (slots_run_calls _ _ _ _ _ _ _ Hslots He1)
      as [Hirq|(k0 & desc0 & Hc0 & Hd0 & Hfail)].
    - by rewrite Hcall in Hirq.
    - assert (k0 = k) as -> by congruence.
      assert (desc0 = desc) as -> by congruence. auto. }
  destruct (decide (err ≠ 0)) as [Herr|Herr].
  - destruct (Hstop Herr) as [descj Hdescj].
    assert (Hj : (j ≤ lima_ip_num)%nat).
    { apply lookup_lt_Some in Hdescj. cbn [length lima_ip_desc] in Hdescj.
      unfold lima_ip_num. lia. }
    rewrite err_out4_run in Hrun by (cbn [ldev]; congruence).
    injection Hrun as <- <-. cbn [ldev klog] in *.
    rewrite <- app_assoc in Hlog. apply app_inv_head in Hlog. subst t.
    assert (k = j ∧ err = k_ret e) as [-> ->].
    { apply elem_of_app in He as [He|He]; [auto|].
      apply void_entries_elem in He as [He _]. rewrite Hcall in He.
      apply elem_of_app in He as [He|He].
      - by apply fini_calls_class in He.
      - by apply release_calls_class in He. }
    split; [done|].
    rewrite fmap_app, void_entries_calls, !filter_app.
    rewrite (filter_class_none _ (k_call <$> t1)).
    2:{ intros c (e1 & -> & He1)%list_elem_of_fmap.
        destruct (slots_run_calls _ _ _ _ _ _ _ Hslots He1)
          as [Hirq|(k0 & desc0 & Hc0 & _)].
        - by rewrite Hirq.
        - by rewrite Hc0. }
    rewrite filter_class_all by apply fini_calls_class.
    rewrite filter_class_none.
    2:{ intros c Hc%release_calls_class. by rewrite Hc. }
    by rewrite app_nil_r.
  - exfalso. assert (err = 0) as -> by lia. specialize (Hend eq_refl). subst j.
    destruct (appends_after_slots _ _ _ _ Hrun) as (t2 & Hlog2 & Ht2).
    cbn [klog] in Hlog2. rewrite Hlog2, <- app_assoc in Hlog.
    apply app_inv_head in Hlog. subst t.
    apply elem_of_app in He as [He|He].
    + destruct (Hin1 He) as [-> _]. done.
    + specialize (Ht2 e He). rewrite Hcall in Ht2. cbn in Ht2.
      by destruct Ht2 as [?|[?|?]].
Qed.


(** A failed type-specific init of a mandatory slot, seen from the whole
    of [lima_device_init]. *)
Lemma device_init_slot_failure id regs r m' k desc e :
  lima_device_init (machine_zero id regs) = Some (r, m') →
  lima_ip_desc !! k = Some desc →
  must_have desc id = true →
  e ∈ klog m' →
  k_call e = desc_init k →
  k_ret e ≠ 0 →
  r = k_ret e ∧
  filter (λ c, classify c = cls_slot_fini) (calls m')
  = desc_fini <$> filter (λ j, ip_present (ip (ldev m') !!! j) = true)
                         (reverse (seq 0 k)).
Proof.
  intros Hrun Hdesc Hmust He Hcall Hret.
  destruct (lima_device_init_setup id regs)
    as [(r0 & m0 & Hrun0 & Hlog0) | (m1 & Hrun1 & Hdone)].
  { (* the run ended before the slots *)
    rewrite Hrun0 in Hrun. injection Hrun as <- <-.
    destruct (Hlog0 e He) as [[Hc|Hc] _]; by rewrite Hcall in Hc. }
  destruct Hdone as (Hid & Hip & _ & _ & _ & Hlog1).
  rewrite Hrun1, lima_device_init_map_run in Hrun.
  set (res := kret platform_get_resource) in *.
  set (iomem := kret (devm_ioremap_resource res)) in *.
  pose proof (mapped_calls m1 res iomem) as Hmapped.
  destruct (IS_ERR iomem).
  { (* the mapping failed *)
    injection Hrun as <- <-. cbn [klog] in He.
    apply elem_of_app in He as [He|He].
    - destruct (Hmapped e Hlog1 He) as [[Hc|Hc] _]; by rewrite Hcall in Hc.
    - apply void_entries_elem in He as [He%release_calls_class _].
      by rewrite Hcall in He. }
  assert (Hlen : length (ip (ldev (mapped m1 res iomem))) = lima_ip_num).
  { cbn [mapped ldev set_field ip]. by rewrite Hip. }
  destruct (blocks_unwind _ _ _ Hlen Hrun) as (t & Hlog & _ & Hfail).
  rewrite Hlog in He. apply elem_of_app in He as [He|He].
  { destruct (Hmapped e Hlog1 He) as [[Hc|Hc] _]; by rewrite Hcall in Hc. }
  destruct (Hfail e k desc He Hcall Hret Hdesc) as [-> Hfini].
  { cbn [mapped ldev set_field ldev_id]. by rewrite Hid. }
  split; [done|].
  unfold calls. rewrite Hlog, fmap_app, filter_app, Hfini.
  rewrite filter_class_none; [done|].
  intros c (e1 & -> & He1)%list_elem_of_fmap.
  destruct (Hmapped e1 Hlog1 He1) as [[Hc|Hc] _]; by rewrite Hc.
Qed.

(** C1.  Run [lima_device_init] on a zeroed device of any variant, in any
    environment.  If the log of the run shows the type-specific init of
    the slot at position [k] returning an error, and that slot is
    mandatory for the variant, then the [fini] calls of the run are
    exactly those of the positions below [k] whose presence flag is set,
    from [k-1] downwards: the list [k-1, ..., 0] filtered by the presence
    flag.  So no position from [k] up receives a [fini]. *)
Theorem device_init_unwinds_slots_below_failure id regs r m' k desc e :
  lima_device_init (machine_zero id regs) = Some (r, m') →
  lima_ip_desc !! k = Some desc →
  must_have desc id = true →
  e ∈ klog m' →
  k_call e = desc_init k →
  k_ret e ≠ 0 →
  filter (λ c, classify c = cls_slot_fini) (calls m')
  = desc_fini <$> filter (λ j, ip_present (ip (ldev m') !!! j) = true)
                         (reverse (seq 0 k)).
Proof.
  intros Hrun Hdesc Hmust He Hcall Hret.
  by destruct (device_init_slot_failure _ _ _ _ _ _ _ Hrun Hdesc Hmust He Hcall Hret).
Qed.



(** ** Pipeline arrays *)

Lemma cells_length cap xs : (length xs ≤ cap)%nat → length (cells cap xs) = cap.
Proof.
  intros H. unfold cells. rewrite length_app, length_fmap, length_replicate. lia.
Qed.

Lemma cells_lookup cap xs j :
  (j < cap)%nat → (length xs ≤ cap)%nat → cells cap xs !! j = Some (xs !! j).
Proof.
  intros Hj Hlen. unfold cells.
  destruct (decide (j < length xs)%nat) as [Hlt|Hge].
  - rewrite lookup_app_l by (by rewrite length_fmap).
    rewrite list_lookup_fmap.
    destruct (lookup_lt_is_Some_2 _ _ Hlt) as [x ->]. done.
  - rewrite lookup_app_r by (rewrite length_fmap; lia).
    rewrite lookup_replicate_2 by (rewrite length_fmap; lia).
    by rewrite lookup_ge_None_2 by lia.
Qed.

Lemma cells_push cap xs x :
  (length xs < cap)%nat →
  <[length xs := Some x]> (cells cap xs) = cells cap (xs ++ [x]).
Proof.
  intros Hlt. unfold cells.
  rewrite insert_app_r_alt by (by rewrite length_fmap).
  rewrite length_fmap, Nat.sub_diag, fmap_app, length_app. cbn [length fmap list_fmap].
  replace (cap - length xs)%nat with (S (cap - (length xs + 1)))%nat by lia.
  cbn [replicate]. by rewrite <- app_assoc.
Qed.

Lemma cells_take cap xs : take (length xs) (cells cap xs) = Some <$> xs.
Proof. unfold cells. by rewrite take_app_length' by (by rewrite length_fmap). Qed.

Lemma pipe_of_zero : lima_sched_pipe_zero = pipe_of [] [] [] None None.
Proof. done. Qed.

Lemma push_l2_cache_pipe_of x L M P bp bm :
  (length L < LIMA_SCHED_PIPE_MAX_L2_CACHE)%nat →
  push_l2_cache x (pipe_of L M P bp bm) = Some (pipe_of (L ++ [x]) M P bp bm).
Proof.
  intros Hlt. unfold push_l2_cache, pipe_of.
  cbn [l2_cache num_l2_cache mmu num_mmu processor num_processor bcast_processor bcast_mmu].
  rewrite decide_True by (rewrite cells_length; lia).
  rewrite cells_push by done. rewrite length_app. cbn [length].
  by rewrite Nat.add_1_r.
Qed.

Lemma push_mmu_pipe_of x L M P bp bm :
  (length M < LIMA_SCHED_PIPE_MAX_MMU)%nat →
  push_mmu x (pipe_of L M P bp bm) = Some (pipe_of L (M ++ [x]) P bp bm).
Proof.
  intros Hlt. unfold push_mmu, pipe_of.
  cbn [l2_cache num_l2_cache mmu num_mmu processor num_processor bcast_processor bcast_mmu].
  rewrite decide_True by (rewrite cells_length; lia).
  rewrite cells_push by done. rewrite length_app. cbn [length].
  by rewrite Nat.add_1_r.
Qed.

Lemma push_processor_pipe_of x L M P bp bm :
  (length P < LIMA_SCHED_PIPE_MAX_PROCESSOR)%nat →
  push_processor x (pipe_of L M P bp bm) = Some (pipe_of L M (P ++ [x]) bp bm).
Proof.
  intros Hlt. unfold push_processor, pipe_of.
  cbn [l2_cache num_l2_cache mmu num_mmu processor num_processor bcast_processor bcast_mmu].
  rewrite decide_True by (rewrite cells_length; lia).
  rewrite cells_push by done. rewrite length_app. cbn [length].
  by rewrite Nat.add_1_r.
Qed.

Lemma on_pipe_run p f m x :
  f (get_pipe p (ldev m)) = Some x →
  on_pipe p f m
  = Some (tt, {| ldev := set_pipe p x (ldev m); mmio := mmio m; klog := klog m |}).
Proof. intros H. unfold on_pipe. by rewrite H. Qed.

Lemma shiftr2_bound i : (i < 8)%nat → (Nat.shiftr i 2 ≤ 1)%nat.
Proof.
  intros Hi. do 8 (destruct i as [|i]; [cbn; lia|]). lia.
Qed.

(** ** Composing the fragment pipeline *)

Lemma set_pipe_twice p x y d : set_pipe p x (set_pipe p y d) = set_pipe p x d.
Proof. by destruct p. Qed.

Lemma pp_l2_cache_bound d i : (i < 8)%nat → (pp_l2_cache d i < lima_ip_num)%nat.
Proof.
  intros Hi. unfold pp_l2_cache. pose proof (shiftr2_bound i Hi).
  case_decide; unfold lima_ip_l2_cache0, lima_ip_l2_cache1, lima_ip_num; lia.
Qed.

Lemma pp_pipe_round_run i m L M P bp bm :
  length (ip (ldev m)) = lima_ip_num →
  (i < 8)%nat →
  (length M ≤ i)%nat → (length P ≤ i)%nat → (length L ≤ 2)%nat →
  pipe_pp (ldev m) = pipe_of L M P bp bm →
  pp_pipe_round i m
  = Some (tt, {| ldev := set_pipe lima_pipe_pp
                           (pipe_of (l2_step (ldev m) L i) (mmu_step (ldev m) M i)
                                    (processor_step (ldev m) P i) bp bm)
                           (ldev m);
                 mmio := mmio m; klog := klog m |}).
Proof.
  intros Hlen Hi HM HP HL Hpipe.
  pose proof (pp_l2_cache_bound (ldev m) i Hi) as Hl2.
  pose proof (shiftr2_bound i Hi) as Hsh.
  assert (Hlk : ∀ k, (k < lima_ip_num)%nat → ip (ldev m) !! k = Some (ip (ldev m) !!! k)).
  { intros k Hk. apply list_lookup_lookup_total_lt. by rewrite Hlen. }
  unfold pp_pipe_round. rewrite bind_eq. cbn [get_dev].
  fold (pp_l2_cache (ldev m) i).
  rewrite bind_eq, (ip_at_run _ _ _ (Hlk (lima_ip_pp0 + i)%nat ltac:(unfold lima_ip_pp0, lima_ip_num; lia))).
  rewrite bind_eq, (ip_at_run _ _ _ (Hlk (lima_ip_ppmmu0 + i)%nat ltac:(unfold lima_ip_ppmmu0, lima_ip_num; lia))).
  rewrite bind_eq, (ip_at_run _ _ _ (Hlk _ Hl2)).
  fold (pp_included (ldev m) i).
  unfold l2_step, mmu_step, processor_step.
  destruct (pp_included (ldev m) i).
  - rewrite bind_eq, (on_pipe_run _ _ _ (pipe_of L (M ++ [(lima_ip_ppmmu0 + i)%nat]) P bp bm)).
    2:{ cbn [get_pipe]. rewrite Hpipe. apply push_mmu_pipe_of.
        unfold LIMA_SCHED_PIPE_MAX_MMU. lia. }
    rewrite bind_eq, (on_pipe_run _ _ _ (pipe_of L (M ++ [(lima_ip_ppmmu0 + i)%nat])
                                           (P ++ [(lima_ip_pp0 + i)%nat]) bp bm)).
    2:{ cbn [get_pipe ldev set_pipe pipe_pp]. apply push_processor_pipe_of.
        unfold LIMA_SCHED_PIPE_MAX_PROCESSOR. lia. }
    cbn [ldev mmio klog]. rewrite set_pipe_twice.
    rewrite bind_eq. cbn [get_dev ldev set_pipe pipe_pp pipe_of l2_cache].
    rewrite cells_lookup by (unfold LIMA_SCHED_PIPE_MAX_L2_CACHE; lia).
    case_decide as Hnew.
    + rewrite lookup_ge_None_2 by done.
      rewrite (on_pipe_run _ _ _ (pipe_of (L ++ [pp_l2_cache (ldev m) i])
                                    (M ++ [(lima_ip_ppmmu0 + i)%nat])
                                    (P ++ [(lima_ip_pp0 + i)%nat]) bp bm)).
      2:{ cbn [get_pipe ldev set_pipe pipe_pp]. apply push_l2_cache_pipe_of.
          unfold LIMA_SCHED_PIPE_MAX_L2_CACHE. lia. }
      cbn [ldev mmio klog]. by rewrite set_pipe_twice.
    + destruct (lookup_lt_is_Some_2 L (Nat.shiftr i 2) ltac:(lia)) as [c ->].
      done.
  - rewrite ret_eq. rewrite <- Hpipe.
    by destruct m as [[] ? ?].
Qed.


Lemma l2_step_length d L i :
  (i < 8)%nat → (length L ≤ 2)%nat → (length (l2_step d L i) ≤ 2)%nat.
Proof.
  intros Hi HL. unfold l2_step. pose proof (shiftr2_bound i Hi).
  destruct (pp_included d i); [|done]. case_decide; [|done].
  rewrite length_app. cbn [length]. lia.
Qed.

Lemma mmu_step_length d M i : (length M ≤ i → length (mmu_step d M i) ≤ S i)%nat.
Proof.
  intros H. unfold mmu_step. destruct (pp_included d i); [|lia].
  rewrite length_app. cbn [length]. lia.
Qed.

Lemma processor_step_length d P i :
  (length P ≤ i → length (processor_step d P i) ≤ S i)%nat.
Proof.
  intros H. unfold processor_step. destruct (pp_included d i); [|lia].
  rewrite length_app. cbn [length]. lia.
Qed.

Lemma set_pipe_pp_ip x d : ip (set_pipe lima_pipe_pp x d) = ip d.
Proof. done. Qed.

Lemma l2_step_pipe x d L i :
  l2_step (set_pipe lima_pipe_pp x d) L i = l2_step d L i.
Proof. done. Qed.

Lemma pp_pipe_rounds_run n a m L M P bp bm :
  length (ip (ldev m)) = lima_ip_num →
  (a + n ≤ 8)%nat →
  (length M ≤ a)%nat → (length P ≤ a)%nat → (length L ≤ 2)%nat →
  pipe_pp (ldev m) = pipe_of L M P bp bm →
  for_each (λ _ i, pp_pipe_round i) tt (seq a n) m
  = Some (tt, {| ldev := set_pipe lima_pipe_pp
                           (pipe_of (foldl (l2_step (ldev m)) L (seq a n))
                                    (foldl (mmu_step (ldev m)) M (seq a n))
                                    (foldl (processor_step (ldev m)) P (seq a n))
                                    bp bm)
                           (ldev m);
                 mmio := mmio m; klog := klog m |}).
Proof.
  revert a m L M P. induction n as [|n IH]; intros a m L M P Hlen Han HM HP HL Hpipe.
  - cbn [seq for_each foldl]. rewrite ret_eq, <- Hpipe. by destruct m as [[] ? ?].
  - cbn [seq for_each foldl].
    rewrite bind_eq, (pp_pipe_round_run a m L M P bp bm) by (done || lia).
    rewrite (IH (S a) _ (l2_step (ldev m) L a) (mmu_step (ldev m) M a)
                (processor_step (ldev m) P a)).
    + cbn [ldev mmio klog]. by rewrite set_pipe_twice.
    + done.
    + lia.
    + by apply mmu_step_length.
    + by apply processor_step_length.
    + apply l2_step_length; [lia|done].
    + done.
Qed.


Lemma mmu_fold d M l :
  foldl (mmu_step d) M l
  = M ++ ((λ i, lima_ip_ppmmu0 + i)%nat <$> filter (λ i, pp_included d i = true) l).
Proof.
  revert M. induction l as [|i l IH]; intros M; cbn [foldl].
  - by rewrite app_nil_r.
  - rewrite IH, filter_cons. unfold mmu_step.
    destruct (pp_included d i).
    + rewrite decide_True by done. by rewrite <- app_assoc.
    + by rewrite decide_False by done.
Qed.

Lemma processor_fold d P l :
  foldl (processor_step d) P l
  = P ++ ((λ i, lima_ip_pp0 + i)%nat <$> filter (λ i, pp_included d i = true) l).
Proof.
  revert P. induction l as [|i l IH]; intros P; cbn [foldl].
  - by rewrite app_nil_r.
  - rewrite IH, filter_cons. unfold processor_step.
    destruct (pp_included d i).
    + rewrite decide_True by done. by rewrite <- app_assoc.
    + by rewrite decide_False by done.
Qed.


(** The list the code builds is the list the specification describes. *)

Lemma dedup_first_filter d l acc :
  foldl add_if_new acc (pp_l2_cache d <$> filter (λ i, pp_included d i = true) l)
  = foldl (spec_step d) acc l.
Proof.
  revert acc. induction l as [|i l IH]; intros acc; [done|].
  rewrite filter_cons. cbn [foldl]. unfold spec_step at 2.
  destruct (pp_included d i).
  - rewrite decide_True by done. cbn [fmap list_fmap foldl]. apply IH.
  - rewrite decide_False by done. apply IH.
Qed.

Lemma steps_skip d L i :
  pp_included d i = false → l2_step d L i = L ∧ spec_step d L i = L.
Proof. intros H. unfold l2_step, spec_step. by rewrite H. Qed.

Lemma steps_first d :
  pp_included d 0 = true →
  l2_step d [] 0 = [pp_l2_cache d 0] ∧ spec_step d [] 0 = [pp_l2_cache d 0].
Proof. intros H. unfold l2_step, spec_step. by rewrite H. Qed.

Lemma steps_same_group d i :
  (1 ≤ i < 4)%nat →
  l2_step d [pp_l2_cache d 0] i = [pp_l2_cache d 0] ∧
  spec_step d [pp_l2_cache d 0] i = [pp_l2_cache d 0].
Proof.
  intros Hi. unfold l2_step, spec_step, add_if_new, pp_l2_cache.
  assert (Nat.shiftr i 2 = 0%nat) as ->.
  { destruct i as [|[|[|[|i]]]]; try done; lia. }
  destruct (pp_included d i); [|done].
  split; [done|]. by rewrite decide_True by (case_decide; by left).
Qed.

Lemma steps_next_group d i :
  ldev_id d = lima_gpu_mali450 →
  (4 ≤ i < 8)%nat →
  pp_included d i = true →
  l2_step d [pp_l2_cache d 0] i = [pp_l2_cache d 0; pp_l2_cache d 4] ∧
  spec_step d [pp_l2_cache d 0] i = [pp_l2_cache d 0; pp_l2_cache d 4].
Proof.
  intros Hid Hi Hinc. unfold l2_step, spec_step, add_if_new, pp_l2_cache.
  rewrite Hid, Hinc.
  assert (Nat.shiftr i 2 = 1%nat) as ->.
  { do 4 (destruct i as [|i]; [lia|]). do 4 (destruct i as [|i]; [done|]). lia. }
  split; [done|]. cbn. rewrite decide_False; [done|].
  intros H%list_elem_of_singleton. done.
Qed.

Lemma steps_both_groups d i :
  ldev_id d = lima_gpu_mali450 →
  (4 ≤ i < 8)%nat →
  l2_step d [pp_l2_cache d 0; pp_l2_cache d 4] i = [pp_l2_cache d 0; pp_l2_cache d 4] ∧
  spec_step d [pp_l2_cache d 0; pp_l2_cache d 4] i = [pp_l2_cache d 0; pp_l2_cache d 4].
Proof.
  intros Hid Hi. unfold l2_step, spec_step, add_if_new, pp_l2_cache.
  rewrite Hid.
  assert (Nat.shiftr i 2 = 1%nat) as ->.
  { do 4 (destruct i as [|i]; [lia|]). do 4 (destruct i as [|i]; [done|]). lia. }
  destruct (pp_included d i); [|done].
  split; [done|]. cbn. rewrite decide_True; [done|]. right. by left.
Qed.

Lemma l2_fold_spec d :
  pp_included d 0 = true →
  (ldev_id d = lima_gpu_mali400 →
   ∀ i, (4 ≤ i < 8)%nat → pp_included d i = false) →
  foldl (l2_step d) [] (seq 0 8) = l2_cache_list_spec d ∧
  (l2_cache_list_spec d = [pp_l2_cache d 0] ∨
   l2_cache_list_spec d = [pp_l2_cache d 0; pp_l2_cache d 4] ∧
   ldev_id d = lima_gpu_mali450).
Proof.
  intros H0 H400.
  unfold l2_cache_list_spec, pp_positions, dedup_first.
  rewrite dedup_first_filter.
  change (seq 0 LIMA_SCHED_PIPE_MAX_PROCESSOR) with [0;1;2;3;4;5;6;7]%nat.
  change (seq 0 8) with [0;1;2;3;4;5;6;7]%nat.
  cbn [foldl].
  destruct (steps_first d H0) as [-> ->].
  destruct (steps_same_group d 1 ltac:(lia)) as [-> ->].
  destruct (steps_same_group d 2 ltac:(lia)) as [-> ->].
  destruct (steps_same_group d 3 ltac:(lia)) as [-> ->].
  destruct (ldev_id d) eqn:Hid.
  - destruct (steps_skip d [pp_l2_cache d 0] 4 (H400 eq_refl 4%nat ltac:(lia))) as [-> ->].
    destruct (steps_skip d [pp_l2_cache d 0] 5 (H400 eq_refl 5%nat ltac:(lia))) as [-> ->].
    destruct (steps_skip d [pp_l2_cache d 0] 6 (H400 eq_refl 6%nat ltac:(lia))) as [-> ->].
    destruct (steps_skip d [pp_l2_cache d 0] 7 (H400 eq_refl 7%nat ltac:(lia))) as [-> ->].
    auto.
  - assert (Hstep : ∀ i, (4 ≤ i < 8)%nat →
      (l2_step d [pp_l2_cache d 0] i = [pp_l2_cache d 0] ∧
       spec_step d [pp_l2_cache d 0] i = [pp_l2_cache d 0]) ∨
      (l2_step d [pp_l2_cache d 0] i = [pp_l2_cache d 0; pp_l2_cache d 4] ∧
       spec_step d [pp_l2_cache d 0] i = [pp_l2_cache d 0; pp_l2_cache d 4])).
    { intros i Hi. destruct (pp_included d i) eqn:Hinc.
      - right. by apply steps_next_group.
      - left. by apply steps_skip. }
    pose proof (steps_both_groups d 5 Hid ltac:(lia)) as [H5 H5'].
    pose proof (steps_both_groups d 6 Hid ltac:(lia)) as [H6 H6'].
    pose proof (steps_both_groups d 7 Hid ltac:(lia)) as [H7 H7'].
    destruct (Hstep 4%nat ltac:(lia)) as [[-> ->]|[-> ->]];
      [|rewrite H5, H5', H6, H6', H7, H7'; auto].
    destruct (Hstep 5%nat ltac:(lia)) as [[-> ->]|[-> ->]];
      [|rewrite H6, H6', H7, H7'; auto].
    destruct (Hstep 6%nat ltac:(lia)) as [[-> ->]|[-> ->]];
      [|rewrite H7, H7'; auto].
    destruct (Hstep 7%nat ltac:(lia)) as [[-> ->]|[-> ->]]; auto.
Qed.


(** ** What the two compositions return *)

Lemma lima_init_gp_pipe_run m :
  pipe_gp (ldev m) = lima_sched_pipe_zero →
  lima_init_gp_pipe m
  = Some (composition lima_pipe_gp lima_gp_pipe_init gp_pipe_composed m).
Proof.
  intros Hpipe. unfold lima_init_gp_pipe, composition.
  mstep. case_decide as Hs; [done|]. unfold log_call; cbn [ldev mmio klog].
  rewrite bind_eq, (on_pipe_run _ _ _ (pipe_of [lima_ip_l2_cache0] [] [] None None)).
  2:{ cbn [get_pipe ldev]. by rewrite Hpipe. }
  rewrite bind_eq, (on_pipe_run _ _ _ (pipe_of [lima_ip_l2_cache0] [lima_ip_gpmmu] [] None None)) by done.
  rewrite bind_eq, (on_pipe_run _ _ _ gp_pipe_composed) by done.
  cbn [ldev mmio klog]. rewrite !set_pipe_twice.
  mstep. case_decide as He.
  - mstep. rewrite ret_eq. unfold log_call. cbn [ldev mmio klog].
    by rewrite <- !app_assoc.
  - rewrite ret_eq. unfold log_call. cbn [ldev mmio klog].
    by rewrite <- !app_assoc.
Qed.

Lemma lima_init_pp_pipe_run m :
  length (ip (ldev m)) = lima_ip_num →
  pipe_pp (ldev m) = lima_sched_pipe_zero →
  lima_init_pp_pipe m
  = Some (composition lima_pipe_pp lima_pp_pipe_init (pp_pipe_composed (ldev m)) m).
Proof.
  intros Hlen Hpipe. unfold lima_init_pp_pipe, composition.
  mstep. case_decide as Hs; [done|]. unfold log_call; cbn [ldev mmio klog].
  rewrite bind_eq.
  rewrite (pp_pipe_rounds_run 8 0 _ [] [] [] None None) by (done || cbn; lia).
  cbn [ldev mmio klog].
  assert (Hb : ip (ldev m) !! lima_ip_bcast = Some (ip (ldev m) !!! lima_ip_bcast)).
  { apply list_lookup_lookup_total_lt. rewrite Hlen.
    unfold lima_ip_bcast, lima_ip_num. lia. }
  rewrite bind_eq, (ip_at_run _ _ (ip (ldev m) !!! lima_ip_bcast)) by exact Hb.
  assert (Hcomposed : ∀ (f : M Z),
    ((if ip_present (ip (ldev m) !!! lima_ip_bcast)
      then on_pipe lima_pipe_pp (set_bcast lima_ip_pp_bcast lima_ip_ppmmu_bcast)
      else mret ()) ≫= λ _, f)
      {| ldev := set_pipe lima_pipe_pp
                   (pipe_of (foldl (l2_step (ldev m)) [] (seq 0 8))
                            (foldl (mmu_step (ldev m)) [] (seq 0 8))
                            (foldl (processor_step (ldev m)) [] (seq 0 8)) None None)
                   (ldev m);
         mmio := mmio m;
         klog := klog m ++ [{| k_call := lima_sched_pipe_init lima_pipe_pp;
                               k_ret := kret (lima_sched_pipe_init lima_pipe_pp);
                               k_at := ldev m |}] |}
    = f {| ldev := set_pipe lima_pipe_pp (pp_pipe_composed (ldev m)) (ldev m);
           mmio := mmio m;
           klog := klog m ++ [{| k_call := lima_sched_pipe_init lima_pipe_pp;
                                 k_ret := kret (lima_sched_pipe_init lima_pipe_pp);
                                 k_at := ldev m |}] |}).
  { intros f. rewrite bind_eq. unfold pp_pipe_composed.
    destruct (ip_present (ip (ldev m) !!! lima_ip_bcast)).
    - rewrite (on_pipe_run lima_pipe_pp
                 (set_bcast lima_ip_pp_bcast lima_ip_ppmmu_bcast) _ _ eq_refl).
      cbn [ldev mmio klog get_pipe set_pipe pipe_pp]. by rewrite set_pipe_twice.
    - by rewrite ret_eq. }
  rewrite Hcomposed. clear Hcomposed.
  mstep. case_decide as He.
  - mstep. rewrite ret_eq. unfold log_call. cbn [ldev mmio klog].
    by rewrite <- !app_assoc.
  - rewrite ret_eq. unfold log_call. cbn [ldev mmio klog].
    by rewrite <- !app_assoc.
Qed.

(** ** The fragment pipeline's L2-cache list *)

Lemma add_if_new_NoDup l x : NoDup l → NoDup (add_if_new l x).
Proof.
  intros Hl. unfold add_if_new. case_decide as Hx; [done|].
  apply NoDup_app. split; [done|]. split; [|apply NoDup_singleton].
  intros y Hy ->%list_elem_of_singleton. done.
Qed.

Lemma dedup_first_NoDup l : NoDup (dedup_first l).
Proof.
  unfold dedup_first.
  assert (H : ∀ acc, NoDup acc → NoDup (foldl add_if_new acc l)).
  { induction l as [|x l IH]; intros acc Hacc; [done|].
    cbn [foldl]. apply IH. by apply add_if_new_NoDup. }
  apply H, NoDup_nil_2.
Qed.

Lemma slots_probed_pp d :
  slots_probed d →
  pp_included d 0 = true ∧
  (ldev_id d = lima_gpu_mali400 → ∀ i, (4 ≤ i < 8)%nat → pp_included d i = false).
Proof.
  intros [Hlen Hprobed]. split.
  - unfold pp_included, pp_l2_cache.
    destruct (Hprobed lima_ip_pp0 _ eq_refl) as [_ Hpp].
    destruct (Hprobed lima_ip_ppmmu0 _ eq_refl) as [_ Hmmu].
    destruct (Hprobed lima_ip_l2_cache0 _ eq_refl) as [_ Hl0].
    destruct (Hprobed lima_ip_l2_cache1 _ eq_refl) as [_ Hl1].
    rewrite !Nat.add_0_r.
    destruct (ldev_id d) eqn:Hid.
    + rewrite decide_True by done.
      rewrite Hpp, Hmmu, Hl0; (done || cbn; lia).
    + rewrite decide_False by done.
      rewrite Hpp, Hmmu, Hl1; (done || cbn; lia).
  - intros Hid i Hi. unfold pp_included.
    assert (ip_present (ip d !!! (lima_ip_pp0 + i)%nat) = false) as ->; [|done].
    assert (Hd : (lima_ip_pp0 + i < length lima_ip_desc)%nat).
    { cbn [length lima_ip_desc]. unfold lima_ip_pp0. lia. }
    destruct (lookup_lt_is_Some_2 _ _ Hd) as [desc Hdesc].
    destruct (Hprobed _ _ Hdesc) as [Habs _]. apply Habs. rewrite Hid.
    destruct i as [|[|[|[|[|[|[|[|i]]]]]]]]; try lia;
      cbn in Hdesc; injection Hdesc as <-; done.
Qed.

(** C2.  Take a device after a per-slot phase that ran to the end, of
    either variant and with any optional blocks present, and compose the
    fragment pipeline.  The composition returns, and the pipeline's
    L2-cache list has no duplicate entry.  When the scheduler pipe was
    created, so that the lists were filled, the L2-cache list is the one
    the specification describes: the caches of the included positions in
    first-seen order, each once. *)
Theorem pp_pipe_l2_cache_list_no_duplicates m :
  slots_probed (ldev m) →
  pipe_pp (ldev m) = lima_sched_pipe_zero →
  ∃ r m',
    lima_init_pp_pipe m = Some (r, m') ∧
    NoDup (l2_cache_list (pipe_pp (ldev m'))) ∧
    (kret (lima_sched_pipe_init lima_pipe_pp) = 0 →
     l2_cache_list (pipe_pp (ldev m')) = Some <$> l2_cache_list_spec (ldev m)).
Proof.
  intros Hprobed Hpipe.
  destruct (slots_probed_pp _ Hprobed) as [H0 H400].
  destruct (l2_fold_spec _ H0 H400) as [Hfold _].
  assert (Hlist : l2_cache_list (pp_pipe_composed (ldev m))
                  = Some <$> l2_cache_list_spec (ldev m)).
  { unfold l2_cache_list, pp_pipe_composed, pipe_of. cbn [num_l2_cache l2_cache].
    change (seq 0 LIMA_SCHED_PIPE_MAX_PROCESSOR) with (seq 0 8).
    by rewrite cells_take, Hfold. }
  assert (Hnodup : NoDup (l2_cache_list (pp_pipe_composed (ldev m)))).
  { rewrite Hlist. apply NoDup_fmap; [apply _|]. apply dedup_first_NoDup. }
  rewrite lima_init_pp_pipe_run by (done || apply Hprobed).
  unfold composition.
  destruct (decide (kret (lima_sched_pipe_init lima_pipe_pp) ≠ 0)) as [Hs|Hs].
  - eexists _, _. split; [done|]. cbn [ldev]. rewrite Hpipe.
    split; [apply NoDup_nil_2|]. done.
  - destruct (decide (kret lima_pp_pipe_init ≠ 0));
      (eexists _, _; split; [done|]; cbn [ldev set_pipe pipe_pp]; done).
Qed.


(** ** After a per-slot phase that ran to the end *)

Lemma slots_run_probed d j d' t :
  slots_run 0 d j 0 d' t →
  ip d = replicate lima_ip_num lima_ip_zero →
  slots_probed d'.
Proof.
  intros Hrun Hip.
  destruct (slots_run_frame _ _ _ _ _ _ Hrun) as (_ & Hlen & _).
  pose proof (slots_run_id _ _ _ _ _ _ Hrun) as Hid.
  assert (Hlen' : length (ip d') = lima_ip_num).
  { by rewrite Hlen, Hip, length_replicate. }
  split; [done|].
  intros k desc Hdesc.
  destruct (slots_run_success _ _ _ _ _ k desc Hrun ltac:(lia) Hdesc) as [Habs Hmand].
  assert (Hk : (k < lima_ip_num)%nat).
  { apply lookup_lt_Some in Hdesc. by cbn [length lima_ip_desc] in Hdesc. }
  rewrite Hid. split.
  - intros Hoff.
    rewrite (list_lookup_total_correct (ip d') k lima_ip_zero); [done|].
    rewrite (Habs Hoff), Hip. by rewrite lookup_replicate_2.
  - intros Hoff Hmust. destruct (Hmand Hoff Hmust) as (y & Hy & Hp).
    by rewrite (list_lookup_total_correct _ _ _ Hy).
Qed.

Lemma init_ip_loop_probed m j m' :
  ip (ldev m) = replicate lima_ip_num lima_ip_zero →
  init_ip_loop lima_ip_num 0 m = Some ((j, 0), m') →
  slots_probed (ldev m') ∧
  ldev m' = set_ip_array (ip (ldev m')) (ldev m).
Proof.
  intros Hip Hrun.
  assert (Hlen : length (ip (ldev m)) = lima_ip_num).
  { by rewrite Hip, length_replicate. }
  destruct (init_ip_loop_spec lima_ip_num 0 m eq_refl Hlen)
    as (j' & err & d' & regs' & t & Hloop & Hslots).
  rewrite Hloop in Hrun. injection Hrun as -> -> <-. cbn [ldev].
  split; [by eapply slots_run_probed|].
  by destruct (slots_run_frame _ _ _ _ _ _ Hslots) as (? & _).
Qed.


(** ** The geometry pipeline *)

(** C8 (as amended).  On a device whose per-slot phase ran to the end,
    composing the geometry pipeline always returns.  It returns 0 exactly
    when creating the scheduler pipe and the pipe-specific init both
    return 0; otherwise it returns the error of the first of the two that
    failed.  Once the scheduler pipe is created the pipeline holds
    exactly one L2 cache (slot [l2_cache0]), the geometry MMU and the
    geometry processor, and these three slots are present. *)
Theorem gp_pipe_composition_result m0 j m :
  ip (ldev m0) = replicate lima_ip_num lima_ip_zero →
  pipe_gp (ldev m0) = lima_sched_pipe_zero →
  init_ip_loop lima_ip_num 0 m0 = Some ((j, 0), m) →
  let s := kret (lima_sched_pipe_init lima_pipe_gp) in
  let e := kret lima_gp_pipe_init in
  ∃ r m',
    lima_init_gp_pipe m = Some (r, m') ∧
    (r = 0 ↔ s = 0 ∧ e = 0) ∧
    r = (if decide (s ≠ 0) then s else e) ∧
    (s = 0 →
     l2_cache_list (pipe_gp (ldev m')) = [Some lima_ip_l2_cache0] ∧
     mmu_list (pipe_gp (ldev m')) = [Some lima_ip_gpmmu] ∧
     processor_list (pipe_gp (ldev m')) = [Some lima_ip_gp]) ∧
    ip_present (ip (ldev m) !!! lima_ip_l2_cache0) = true ∧
    ip_present (ip (ldev m) !!! lima_ip_gpmmu) = true ∧
    ip_present (ip (ldev m) !!! lima_ip_gp) = true.
Proof.
  intros Hip Hpipe Hloop s e.
  destruct (init_ip_loop_probed _ _ _ Hip Hloop) as [[Hlen Hprobed] Hframe].
  assert (Hpipe' : pipe_gp (ldev m) = lima_sched_pipe_zero).
  { by rewrite Hframe. }
  rewrite (lima_init_gp_pipe_run _ Hpipe'). unfold composition. fold s e.
  assert (Hpresent :
    ip_present (ip (ldev m) !!! lima_ip_l2_cache0) = true ∧
    ip_present (ip (ldev m) !!! lima_ip_gpmmu) = true ∧
    ip_present (ip (ldev m) !!! lima_ip_gp) = true).
  { destruct (Hprobed lima_ip_l2_cache0 _ eq_refl) as [_ Hl2].
    destruct (Hprobed lima_ip_gpmmu _ eq_refl) as [_ Hmmu].
    destruct (Hprobed lima_ip_gp _ eq_refl) as [_ Hgp].
    destruct (ldev_id (ldev m));
      (split; [apply Hl2|split; [apply Hmmu|apply Hgp]]); (done || cbn; lia). }
  destruct (decide (s ≠ 0)) as [Hs|Hs].
  - eexists _, _. split; [done|]. split; [|split; [done|split; [lia|done]]].
    split; [done|]. lia.
  - destruct (decide (e ≠ 0)) as [He|He].
    + eexists _, _. split; [done|]. split; [|split; [done|split; [done|done]]].
      split; [done|]. lia.
    + eexists _, _. split; [done|]. split; [|split; [lia|split; [done|done]]].
      split; [lia|done].
Qed.

(** ** A composition that fails after the scheduler pipe was created *)

Lemma held_step_acquire e r h :
  acquired e = Some r → held_step (Some h) e = Some (r :: h).
Proof. intros Ha. unfold held_step. by rewrite Ha. Qed.

Lemma held_step_neutral e h :
  acquired e = None → released e = None → held_step (Some h) e = Some h.
Proof. intros Ha Hr. unfold held_step. by rewrite Ha, Hr. Qed.

(** C10.  For either pipeline, on a device whose list for that pipeline
    is still empty: if the scheduler pipe is created and the
    pipe-specific init then fails, the composition returns that error
    after exactly three calls, the last of which finalizes the scheduler
    pipe; whatever resources were held before are the ones held
    afterwards. *)
Theorem pipe_composition_finalizes_on_error p m err :
  length (ip (ldev m)) = lima_ip_num →
  get_pipe p (ldev m) = lima_sched_pipe_zero →
  kret (lima_sched_pipe_init p) = 0 →
  kret (pipe_init_call p) = err →
  err ≠ 0 →
  ∃ m',
    lima_init_pipe p m = Some (err, m') ∧
    calls m' = calls m ++ [lima_sched_pipe_init p; pipe_init_call p;
                           lima_sched_pipe_fini p] ∧
    ∀ h, held (klog m) = Some h → held (klog m') = Some h.
Proof.
  intros Hlen Hpipe Hs He Herr.
  assert (Hrun : ∃ x,
    lima_init_pipe p m = Some (composition p (pipe_init_call p) x m)).
  { destruct p; cbn [lima_init_pipe pipe_init_call get_pipe] in *.
    - eexists. by apply lima_init_gp_pipe_run.
    - eexists. by apply lima_init_pp_pipe_run. }
  destruct Hrun as [x ->]. unfold composition.
  rewrite Hs, He, decide_False by lia. rewrite decide_True by done.
  eexists. split; [done|]. cbn [klog].
  split; [unfold calls; cbn [klog]; by rewrite fmap_app|].
  intros h Hh. rewrite held_app, Hh. cbn [foldl].
  rewrite (held_step_acquire _ (res_sched_pipe p)) by done.
  rewrite held_step_neutral.
  - by apply held_step_release.
  - unfold acquired. destruct p; cbn [pipe_init_call k_call k_ret];
      by rewrite decide_False.
  - by destruct p.
Qed.


(** ** [lima_device_init] always returns *)

Lemma composition_device p c x m :
  ldev (composition p c x m).2 = ldev m ∨
  ldev (composition p c x m).2 = set_pipe p x (ldev m).
Proof.
  unfold composition. repeat case_decide; cbn [snd ldev]; auto.
Qed.

Lemma lima_device_init_blocks_total m :
  ip (ldev m) = replicate lima_ip_num lima_ip_zero →
  pipe_gp (ldev m) = lima_sched_pipe_zero →
  pipe_pp (ldev m) = lima_sched_pipe_zero →
  ∃ r m', lima_device_init_blocks m = Some (r, m').
Proof.
  intros Hip Hgp Hpp.
  assert (Hlen : length (ip (ldev m)) = lima_ip_num).
  { by rewrite Hip, length_replicate. }
  unfold lima_device_init_blocks. rewrite bind_eq.
  destruct (init_ip_loop_spec lima_ip_num 0 m eq_refl Hlen)
    as (j & err & d' & regs' & t & Hloop & Hslots).
  rewrite Hloop. cbn beta iota.
  destruct (slots_run_bounds _ _ _ _ _ _ Hslots) as (_ & Hend & Hstop).
  destruct (slots_run_frame _ _ _ _ _ _ Hslots) as (Hframe & Hlen' & _).
  assert (Hj : (j ≤ lima_ip_num)%nat).
  { destruct (decide (err = 0)) as [Herr|Herr]; [by rewrite Hend|].
    destruct (Hstop Herr) as [desc Hdesc%lookup_lt_Some].
    cbn [length lima_ip_desc] in Hdesc. unfold lima_ip_num. lia. }
  destruct (decide (err ≠ 0)) as [Herr|Herr].
  { rewrite err_out4_run by (cbn [ldev]; congruence). eauto. }
  rewrite bind_eq, lima_init_gp_pipe_run by (cbn [ldev]; by rewrite Hframe).
  destruct (composition lima_pipe_gp lima_gp_pipe_init gp_pipe_composed _)
    as [r1 m1] eqn:Hc1.
  assert (Hm1 : length (ip (ldev m1)) = lima_ip_num ∧
                pipe_pp (ldev m1) = lima_sched_pipe_zero).
  { pose proof (composition_device lima_pipe_gp lima_gp_pipe_init gp_pipe_composed
                  {| ldev := d'; mmio := regs'; klog := klog m ++ t |}) as Hd.
    rewrite Hc1 in Hd. cbn [snd ldev] in Hd.
    destruct Hd as [-> | ->]; cbn [set_pipe ip pipe_pp];
      (split; [congruence|by rewrite Hframe]). }
  destruct Hm1 as [Hlen1 Hpp1]. cbn beta iota.
  destruct (decide (r1 ≠ 0)) as [Hr1|Hr1].
  { rewrite err_out4_run by done. eauto. }
  rewrite bind_eq, lima_init_pp_pipe_run by done.
  destruct (composition lima_pipe_pp lima_pp_pipe_init _ m1) as [r2 m2] eqn:Hc2.
  assert (Hlen2 : length (ip (ldev m2)) = lima_ip_num).
  { pose proof (composition_device lima_pipe_pp lima_pp_pipe_init
                  (pp_pipe_composed (ldev m1)) m1) as Hd.
    rewrite Hc2 in Hd. cbn [snd] in Hd.
    destruct Hd as [-> | ->]; done. }
  cbn beta iota.
  destruct (decide (r2 ≠ 0)) as [Hr2|Hr2]; [|rewrite ret_eq; eauto].
  unfold err_out5, lima_fini_gp_pipe. repeat mstep.
  rewrite err_out4_run by done. eauto.
Qed.

Lemma lima_device_init_total id regs :
  ∃ r m', lima_device_init (machine_zero id regs) = Some (r, m').
Proof.
  destruct (lima_device_init_setup id regs)
    as [(r & m' & Hrun & _) | (m1 & Hrun & Hdone)]; [eauto|].
  destruct Hdone as (_ & Hip & Hgp & Hpp & _).
  rewrite Hrun, lima_device_init_map_run.
  destruct (IS_ERR _); [eauto|].
  by apply lima_device_init_blocks_total.
Qed.

(** ** A failed register mapping *)

(** C3.  Run [lima_device_init] on a zeroed device of any variant.  It
    returns.  If the log shows the mapping of the register window
    returning an [ERR_PTR], then the run returns that error, no slot was
    touched (no interrupt lookup and no type-specific init is in the
    log), the run ends with the release calls of the device (the
    load-balancer page if one was allocated, the virtual-memory-space
    object, the regulator if there is one, the reset line if there is
    one, and both clocks), and no resource is left held. *)
Theorem device_init_mapping_failure_releases_all id regs :
  regulator_not_null →
  ∃ r m',
    lima_device_init (machine_zero id regs) = Some (r, m') ∧
    ∀ e, e ∈ klog m' → is_mapping (k_call e) = true → IS_ERR (k_ret e) = true →
      r = PTR_ERR (k_ret e) ∧
      (∀ e', e' ∈ klog m' →
         classify (k_call e') ≠ cls_slot_init ∧
         classify (k_call e') ≠ cls_slot_irq) ∧
      (∃ t, calls m' = t ++ release_calls (ldev m')) ∧
      held (klog m') = Some [].
Proof.
  intros Hreg.
  destruct (lima_device_init_total id regs) as (r & m' & Hrun).
  exists r, m'. split; [done|].
  intros e He Hmap Herr.
  destruct (lima_device_init_setup id regs)
    as [(r0 & m0 & Hrun0 & Hlog0) | (m1 & Hrun1 & Hdone)].
  { rewrite Hrun0 in Hrun. injection Hrun as <- <-.
    destruct (Hlog0 e He) as [_ Hno]. congruence. }
  destruct Hdone as (Hid & Hip & _ & _ & Hheld & Hlog1).
  rewrite Hrun1, lima_device_init_map_run in Hrun.
  set (res := kret platform_get_resource) in *.
  set (iomem := kret (devm_ioremap_resource res)) in *.
  pose proof (λ e, mapped_calls m1 res iomem e Hlog1) as Hmapped.
  destruct (IS_ERR iomem) eqn:Hio.
  - injection Hrun as <- <-. cbn [klog ldev] in *.
    assert (Hlog : ∀ e', e' ∈ klog (mapped m1 res iomem)
                          ++ void_entries (ldev (mapped m1 res iomem))
                               (release_calls (ldev (mapped m1 res iomem))) →
              (classify (k_call e') = cls_setup ∨ classify (k_call e') = cls_release) ∧
              (is_mapping (k_call e') = true → k_ret e' = iomem)).
    { intros e' [He'|He']%elem_of_app; [by apply Hmapped|].
      apply void_entries_elem in He' as [He'%release_calls_class _].
      split; [by right|]. intros Hm. destruct (k_call e'); done. }
    split; [|split; [|split]].
    + destruct (Hlog e He) as [_ Hret]. by rewrite Hret.
    + intros e' He'. destruct (Hlog e' He') as [[Hc|Hc] _]; by rewrite Hc.
    + exists (k_call <$> klog (mapped m1 res iomem)).
      unfold calls. cbn [klog]. by rewrite fmap_app, void_entries_calls.
    + apply held_release_calls. rewrite app_nil_r.
      rewrite held_app, (Hheld Hreg). done.
  - exfalso.
    destruct (appends_device_init_blocks _ _ _ Hrun) as (t & Hlog & Ht).
    rewrite Hlog in He. apply elem_of_app in He as [He|He].
    + destruct (Hmapped e He) as [_ Hret]. rewrite (Hret Hmap) in Herr. congruence.
    + specialize (Ht e He). unfold block_call in Ht.
      destruct (k_call e); done.
Qed.


(** ** A failing type-specific init *)

(** C5.  Take a slot of the table whose offset is present, whose
    interrupt (if the row names one) resolves, and whose type-specific
    init returns an error.  Per-slot init then returns a non-zero value,
    namely that error, exactly when the slot is mandatory for the active
    variant; in that case the slot loop of [lima_device_init] is left at
    this slot with the error, and any run of [lima_device_init] whose
    log shows this failure returns the error.  Otherwise per-slot init
    returns 0, the presence flag is as it was before (false on a device
    being brought up), and the loop goes on with the next slot. *)
Theorem init_ip_failure_fatal_iff_mandatory index desc m x n :
  lima_ip_desc !! index = Some desc →
  ip (ldev m) !! index = Some x →
  length (ip (ldev m)) = lima_ip_num →
  0 ≤ offset desc (ldev_id (ldev m)) →
  (∀ irq, irq_name desc = Some irq → 0 ≤ kret (platform_get_irq_byname irq)) →
  desc_init_ret desc index ≠ 0 →
  let must := must_have desc (ldev_id (ldev m)) in
  ∃ r m' x',
    lima_init_ip index m = Some (r, m') ∧
    (r ≠ 0 ↔ must = true) ∧
    (must = true → r = desc_init_ret desc index) ∧
    ip (ldev m') !! index = Some x' ∧
    ip_present x' = ip_present x ∧
    init_ip_loop (S n) index m
    = (if must then Some ((index, r), m') else init_ip_loop n (S index) m') ∧
    (must = true →
     ∀ regs r0 m0 e,
       lima_device_init (machine_zero (ldev_id (ldev m)) regs) = Some (r0, m0) →
       e ∈ klog m0 → k_call e = desc_init index → k_ret e ≠ 0 →
       r0 = k_ret e).
Proof.
  intros Hdesc Hx Hlen Hoff Hirqok Hfail must.
  assert (Hi : (index < length (ip (ldev m)))%nat) by (by eapply lookup_lt_Some).
  destruct (init_ip_body_spec desc index m x Hx Hlen) as (r & x' & t & regs' & Hrun & Hout).
  rewrite <- (lima_init_ip_run _ _ _ Hdesc) in Hrun.
  eexists r, _, x'. split; [exact Hrun|]. cbn [ldev].
  assert (Hr : r = (if must then desc_init_ret desc index else 0)
               ∧ ip_present x' = ip_present x).
  { destruct Hout as [Habs | irq _ Hname Hneg | x2 t_irq _ Hirq Hret | x2 t_irq _ Hirq Hret].
    - lia.
    - specialize (Hirqok irq Hname). lia.
    - split; [done|]. by destruct Hirq.
    - done. }
  destruct Hr as [Hr Hp].
  split; [|split; [|split; [|split; [|split]]]].
  - rewrite Hr. destruct must; [done|]. split; [done|]. discriminate.
  - intros Hm. by rewrite Hr, Hm.
  - by apply slot_at_lookup.
  - done.
  - cbn [init_ip_loop]. rewrite bind_eq, Hrun, Hr.
    destruct must.
    + by rewrite decide_True.
    + by rewrite decide_False by (intros ?; done).
  - intros Hmust regs r0 m0 e Hrun0 He Hcall Hret.
    by destruct (device_init_slot_failure _ _ _ _ _ _ _ Hrun0 Hdesc Hmust He Hcall Hret).
Qed.

End Proofs.


(** * Concrete runs

    Each theorem above is applied to a concrete device and environment,
    and the three amended statements come with the run that separates
    them from the wording of the specification. *)

(** ** The unwinding after a failed mandatory slot

    On a Mali-400 the type-specific init of [gp] (position 4) fails with
    [-EIO]; the slots set up before it are [pmu] and [l2_cache0]. *)
Lemma device_init_unwinds_slots_below_failure_witness :
  let m' := machine_after_init env_gp_init_fails lima_gpu_mali400 in
  let e := nth_call m' 17 in
  (lima_device_init (K := env_gp_init_fails) (C := consts_example)
     (machine_zero lima_gpu_mali400 ∅) = Some (-5, m') ∧
   lima_ip_desc !! 4%nat = Some (row 4) ∧
   must_have (row 4) lima_gpu_mali400 = true ∧
   e ∈ klog m' ∧ k_call e = desc_init 4 ∧ k_ret e ≠ 0) ∧
  filter (λ c, classify c = cls_slot_fini) (calls m')
  = desc_fini <$> filter (λ j, ip_present (ip (ldev m') !!! j) = true)
                         (reverse (seq 0 4)).
Proof.
  intros m' e.
  assert (H1 : lima_device_init (K := env_gp_init_fails) (C := consts_example)
                 (machine_zero lima_gpu_mali400 ∅) = Some (-5, m'))
    by (vm_compute; reflexivity).
  assert (H2 : lima_ip_desc !! 4%nat = Some (row 4)) by reflexivity.
  assert (H3 : must_have (row 4) lima_gpu_mali400 = true) by reflexivity.
  assert (H4 : e ∈ klog m')
    by (apply (list_elem_of_lookup_2 _ 17); vm_compute; reflexivity).
  assert (H5 : k_call e = desc_init 4) by (vm_compute; reflexivity).
  assert (H6 : k_ret e ≠ 0) by (vm_compute; discriminate).
  split; [exact (conj H1 (conj H2 (conj H3 (conj H4 (conj H5 H6)))))|].
  exact (device_init_unwinds_slots_below_failure (K := env_gp_init_fails)
           (C := consts_example) lima_gpu_mali400 ∅ (-5) m' 4 (row 4) e
           H1 H2 H3 H4 H5 H6).
Defined.

(** The same run, spelt out: [l2_cache0] and then [pmu] are finalized,
    and [gp] is not. *)
Example unwind_after_gp_failure :
  filter (λ c, classify c = cls_slot_fini)
         (calls (machine_after_init env_gp_init_fails lima_gpu_mali400))
  = [desc_fini 1; desc_fini 0].
Proof. vm_compute. reflexivity. Qed.

(** ** The fragment pipeline's L2-cache list

    A Mali-450 on which the optional [pp2] failed to come up. *)
Lemma pp_pipe_l2_cache_list_no_duplicates_witness :
  let K := env_pp2_fails in
  let m := machine_after_slots env_pp2_fails lima_gpu_mali450 in
  (slots_probed (ldev m) ∧ pipe_pp (ldev m) = lima_sched_pipe_zero) ∧
  ∃ r m',
    lima_init_pp_pipe m = Some (r, m') ∧
    NoDup (l2_cache_list (pipe_pp (ldev m'))) ∧
    (kret (lima_sched_pipe_init lima_pipe_pp) = 0 →
     l2_cache_list (pipe_pp (ldev m')) = Some <$> l2_cache_list_spec (ldev m)).
Proof.
  intros K m.
  assert (H1 : slots_probed (ldev m)).
  { split; [vm_compute; reflexivity|].
    intros k desc Hk.
    do 26 (destruct k as [|k];
           [injection Hk as <-; vm_compute; split; intros; congruence|]).
    discriminate Hk. }
  assert (H2 : pipe_pp (ldev m) = lima_sched_pipe_zero) by (vm_compute; reflexivity).
  split; [exact (conj H1 H2)|].
  exact (pp_pipe_l2_cache_list_no_duplicates (K := env_pp2_fails) m H1 H2).
Defined.

(** Its L2-cache list after composition: one entry per cache. *)
Example l2_cache_list_mali450 :
  l2_cache_list
    (pipe_pp (ldev (run_on (lima_init_pp_pipe (K := env_pp2_fails))
                           (machine_after_slots env_pp2_fails lima_gpu_mali450))))
  = [Some lima_ip_l2_cache1; Some lima_ip_l2_cache2].
Proof. vm_compute; reflexivity. Qed.

(** ** A failed register mapping

    On a Mali-450 the mapping of the register window fails with
    [-ENOMEM]. *)
Lemma device_init_mapping_failure_releases_all_witness :
  let K := env_map_fails in
  let C := consts_example in
  regulator_not_null ∧
  ∃ r m',
    lima_device_init (machine_zero lima_gpu_mali450 ∅) = Some (r, m') ∧
    ∀ e, e ∈ klog m' → is_mapping (k_call e) = true → IS_ERR (k_ret e) = true →
      r = PTR_ERR (k_ret e) ∧
      (∀ e', e' ∈ klog m' →
         classify (k_call e') ≠ cls_slot_init ∧
         classify (k_call e') ≠ cls_slot_irq) ∧
      (∃ t, calls m' = t ++ release_calls (ldev m')) ∧
      held (klog m') = Some [].
Proof.
  intros K C.
  assert (H1 : regulator_not_null (K := env_map_fails))
    by (intros _; vm_compute; discriminate).
  split; [exact H1|].
  exact (device_init_mapping_failure_releases_all (K := env_map_fails)
           (C := consts_example) lima_gpu_mali450 ∅ H1).
Defined.

(** The run spelt out: the mapping is entry 13 of the log, and the calls
    after it give back the load-balancer page, the virtual-memory-space
    object, the regulator and both clocks. *)
Example mapping_failure_run :
  let m' := machine_after_init env_map_fails lima_gpu_mali450 in
  lima_device_init (K := env_map_fails) (C := consts_example)
    (machine_zero lima_gpu_mali450 ∅) = Some (- ENOMEM, m') ∧
  k_call (nth_call m' 13) = devm_ioremap_resource 0x600 ∧
  k_ret (nth_call m' 13) = - ENOMEM ∧
  drop 14 (calls m')
  = [dma_free_wc 0x500 0x700; lima_vm_put 0x400; regulator_disable 0x300;
     clk_disable_unprepare 0x200; clk_disable_unprepare 0x100] ∧
  held (klog m') = Some [].
Proof. vm_compute. repeat split. Qed.

(** ** Enabling broadcast

    A Mali-450 after [lima_device_init], with [pp2] missing: init left
    [0xfb] in the upper half of the broadcast-mask register, and the
    first two processors of the fragment pipeline are [pp0] and [pp1]. *)
Lemma lima_bcast_enable_sets_low_half_witness :
  let C := consts_example in
  let m := machine_after_init env_pp2_fails lima_gpu_mali450 in
  let x := ip (ldev m) !!! lima_ip_bcast in
  let ks := [0; 1]%nat in
  let v := 0xfb0000 in
  (ip (ldev m) !! lima_ip_bcast = Some x ∧
   mmio m !! (ip_iomem x + LIMA_BCAST_BROADCAST_MASK) = Some v ∧
   0 ≤ v < 2 ^ 32 ∧
   registered_positions (ldev m) ks ∧
   (∀ k, k ∈ ks → (k < 16)%nat)) ∧
  ∃ new,
    lima_bcast_enable (Z.of_nat (length ks)) m
    = Some (tt, with_mmio
                  (<[ip_iomem x + LIMA_BCAST_BROADCAST_MASK := new]> (mmio m)) m) ∧
    Z.shiftr new 16 = Z.shiftr v 16 ∧
    Z.land new 0xffff = mask_of_positions ks ∧
    ∀ a, a ≠ ip_iomem x + LIMA_BCAST_BROADCAST_MASK →
         (<[ip_iomem x + LIMA_BCAST_BROADCAST_MASK := new]> (mmio m)) !! a = mmio m !! a.
Proof.
  intros C m x ks v.
  assert (H1 : ip (ldev m) !! lima_ip_bcast = Some x) by (vm_compute; reflexivity).
  assert (H2 : mmio m !! (ip_iomem x + LIMA_BCAST_BROADCAST_MASK) = Some v)
    by (vm_compute; reflexivity).
  assert (H3 : 0 ≤ v < 2 ^ 32) by (unfold v; lia).
  assert (H4 : registered_positions (ldev m) ks).
  { intros i k Hi. destruct i as [|[|i]]; [| |discriminate Hi];
      injection Hi as <-.
    - exists 5%nat, (ip (ldev m) !!! 5%nat). vm_compute. auto.
    - exists 6%nat, (ip (ldev m) !!! 6%nat). vm_compute. auto. }
  assert (H5 : ∀ k, k ∈ ks → (k < 16)%nat).
  { intros k Hk. apply list_elem_of_In in Hk. simpl in Hk.
    destruct Hk as [<-|[<-|[]]]; lia. }
  split; [exact (conj H1 (conj H2 (conj H3 (conj H4 H5))))|].
  exact (lima_bcast_enable_sets_low_half (C := consts_example) m x ks v
           H1 H2 H3 H4 H5).
Defined.

(** ** A failing type-specific init

    [gp] (position 4) is mandatory on a Mali-400. *)
Lemma init_ip_failure_fatal_iff_mandatory_witness :
  let K := env_gp_init_fails in
  let C := consts_example in
  let m := machine_zero lima_gpu_mali400 ∅ in
  let index := lima_ip_gp in
  let desc := row lima_ip_gp in
  let x := lima_ip_zero in
  let n := 21%nat in
  (lima_ip_desc !! index = Some desc ∧
   ip (ldev m) !! index = Some x ∧
   length (ip (ldev m)) = lima_ip_num ∧
   0 ≤ offset desc (ldev_id (ldev m)) ∧
   (∀ irq, irq_name desc = Some irq → 0 ≤ kret (platform_get_irq_byname irq)) ∧
   desc_init_ret desc index ≠ 0) ∧
  let must := must_have desc (ldev_id (ldev m)) in
  ∃ r m' x',
    lima_init_ip index m = Some (r, m') ∧
    (r ≠ 0 ↔ must = true) ∧
    (must = true → r = desc_init_ret desc index) ∧
    ip (ldev m') !! index = Some x' ∧
    ip_present x' = ip_present x ∧
    init_ip_loop (S n) index m
    = (if must then Some ((index, r), m') else init_ip_loop n (S index) m') ∧
    (must = true →
     ∀ regs r0 m0 e,
       lima_device_init (machine_zero (ldev_id (ldev m)) regs) = Some (r0, m0) →
       e ∈ klog m0 → k_call e = desc_init index → k_ret e ≠ 0 → r0 = k_ret e).
Proof.
  intros K C m index desc x n.
  assert (H1 : lima_ip_desc !! index = Some desc) by reflexivity.
  assert (H2 : ip (ldev m) !! index = Some x) by reflexivity.
  assert (H3 : length (ip (ldev m)) = lima_ip_num) by reflexivity.
  assert (H4 : 0 ≤ offset desc (ldev_id (ldev m))) by (vm_compute; discriminate).
  assert (H5 : ∀ irq, irq_name desc = Some irq →
                 0 ≤ @kret env_gp_init_fails (platform_get_irq_byname irq))
    by (intros irq _; vm_compute; discriminate).
  assert (H6 : desc_init_ret (K := env_gp_init_fails) desc index ≠ 0)
    by (vm_compute; discriminate).
  split; [exact (conj H1 (conj H2 (conj H3 (conj H4 (conj H5 H6)))))|].
  exact (init_ip_failure_fatal_iff_mandatory (K := env_gp_init_fails)
           (C := consts_example) index desc m x n H1 H2 H3 H4 H5 H6).
Defined.

(** ** An absent offset

    The descriptor is marked mandatory, and still nothing happens. *)
Lemma init_ip_skips_absent_offset_witness :
  let K := env_all_ok in
  let C := consts_example in
  let m := machine_zero lima_gpu_mali400 ∅ in
  offset desc_mandatory_absent (ldev_id (ldev m)) < 0 ∧
  init_ip_body desc_mandatory_absent lima_ip_pp0 m = Some (0, m) ∧
  (lima_ip_desc !! lima_ip_pp0 = Some desc_mandatory_absent →
   lima_init_ip lima_ip_pp0 m = Some (0, m)).
Proof.
  intros K C m.
  assert (H1 : offset desc_mandatory_absent (ldev_id (ldev m)) < 0) by reflexivity.
  split; [exact H1|].
  exact (init_ip_skips_absent_offset (K := env_all_ok) (C := consts_example)
           desc_mandatory_absent lima_ip_pp0 m H1).
Defined.

(** A row of the table with an absent offset: [pp4] on a Mali-400. *)
Example init_ip_pp4_on_mali400 :
  lima_init_ip (K := env_all_ok) (C := consts_example) lima_ip_pp4
    (machine_zero lima_gpu_mali400 ∅)
  = Some (0, machine_zero lima_gpu_mali400 ∅).
Proof. vm_compute; reflexivity. Qed.

(** ** Broadcast-unit init

    A Mali-450 after [lima_device_init], with [pp2] missing. *)
Lemma lima_bcast_init_programs_present_mask_witness :
  let C := consts_example in
  let m := machine_after_init env_pp2_fails lima_gpu_mali450 in
  let index := lima_ip_bcast in
  let x := ip (ldev m) !!! lima_ip_bcast in
  (ip (ldev m) !! index = Some x ∧
   ip_dev x = dev_this ∧
   length (ip (ldev m)) = lima_ip_num) ∧
  ∃ mask,
    lima_bcast_init index m
    = Some (0, with_mmio
                 (<[ip_iomem x + LIMA_BCAST_INTERRUPT_MASK := mask]>
                    (<[ip_iomem x + LIMA_BCAST_BROADCAST_MASK := Z.shiftl mask 16]>
                       (mmio m)))
                 m) ∧
    0 ≤ mask < 2 ^ 8 ∧
    ∀ i, (i < 8)%nat →
      Z.testbit mask (Z.of_nat i)
      = ip_present (ip (ldev m) !!! (lima_ip_pp0 + i)%nat).
Proof.
  intros C m index x.
  assert (H1 : ip (ldev m) !! index = Some x) by (vm_compute; reflexivity).
  assert (H2 : ip_dev x = dev_this) by (vm_compute; reflexivity).
  assert (H3 : length (ip (ldev m)) = lima_ip_num) by (vm_compute; reflexivity).
  split; [exact (conj H1 (conj H2 H3))|].
  exact (lima_bcast_init_programs_present_mask (C := consts_example) index m x
           H1 H2 H3).
Defined.

(** ** The geometry pipeline on a Mali-400 *)
Lemma gp_pipe_composition_result_witness :
  let K := env_all_ok in
  let C := consts_example in
  let m0 := machine_zero lima_gpu_mali400 ∅ in
  let m := machine_after_slots env_all_ok lima_gpu_mali400 in
  (ip (ldev m0) = replicate lima_ip_num lima_ip_zero ∧
   pipe_gp (ldev m0) = lima_sched_pipe_zero ∧
   init_ip_loop lima_ip_num 0 m0 = Some ((lima_ip_num, 0), m)) ∧
  let s := kret (lima_sched_pipe_init lima_pipe_gp) in
  let e := kret lima_gp_pipe_init in
  ∃ r m',
    lima_init_gp_pipe m = Some (r, m') ∧
    (r = 0 ↔ s = 0 ∧ e = 0) ∧
    r = (if decide (s ≠ 0) then s else e) ∧
    (s = 0 →
     l2_cache_list (pipe_gp (ldev m')) = [Some lima_ip_l2_cache0] ∧
     mmu_list (pipe_gp (ldev m')) = [Some lima_ip_gpmmu] ∧
     processor_list (pipe_gp (ldev m')) = [Some lima_ip_gp]) ∧
    ip_present (ip (ldev m) !!! lima_ip_l2_cache0) = true ∧
    ip_present (ip (ldev m) !!! lima_ip_gpmmu) = true ∧
    ip_present (ip (ldev m) !!! lima_ip_gp) = true.
Proof.
  intros K C m0 m.
  assert (H1 : ip (ldev m0) = replicate lima_ip_num lima_ip_zero) by reflexivity.
  assert (H2 : pipe_gp (ldev m0) = lima_sched_pipe_zero) by reflexivity.
  assert (H3 : init_ip_loop (K := env_all_ok) (C := consts_example) lima_ip_num 0 m0
               = Some ((lima_ip_num, 0), m)) by (vm_compute; reflexivity).
  split; [exact (conj H1 (conj H2 H3))|].
  exact (gp_pipe_composition_result (K := env_all_ok) (C := consts_example)
           m0 lima_ip_num m H1 H2 H3).
Defined.

(** ** The register window of a slot

    [pp0] on a Mali-400, whose row names an interrupt. *)
Lemma init_ip_assigns_window_first_witness :
  let K := env_all_ok in
  let C := consts_example in
  let m := machine_zero lima_gpu_mali400 ∅ in
  let desc := row lima_ip_pp0 in
  let index := lima_ip_pp0 in
  let x := lima_ip_zero in
  (ip (ldev m) !! index = Some x ∧
   length (ip (ldev m)) = lima_ip_num ∧
   0 ≤ offset desc (ldev_id (ldev m))) ∧
  let iomem := ldev_iomem (ldev m) + offset desc (ldev_id (ldev m)) in
  ∃ r m' x' t,
    init_ip_body desc index m = Some (r, m') ∧
    klog m' = klog m ++ t ∧
    ip (ldev m') !! index = Some x' ∧
    window_assigned index iomem x' ∧
    ∀ e, e ∈ t →
      (k_call e = desc_init index ∨ ∃ irq, k_call e = platform_get_irq_byname irq) ∧
      ∃ y, ip (k_at e) !! index = Some y ∧ window_assigned index iomem y.
Proof.
  intros K C m desc index x.
  assert (H1 : ip (ldev m) !! index = Some x) by reflexivity.
  assert (H2 : length (ip (ldev m)) = lima_ip_num) by reflexivity.
  assert (H3 : 0 ≤ offset desc (ldev_id (ldev m))) by (vm_compute; discriminate).
  split; [exact (conj H1 (conj H2 H3))|].
  exact (init_ip_assigns_window_first (K := env_all_ok) (C := consts_example)
           desc index m x H1 H2 H3).
Defined.

(** ** A pipe-specific init that fails *)
Lemma pipe_composition_finalizes_on_error_witness :
  let K := env_gp_pipe_fails in
  let m := machine_zero lima_gpu_mali400 ∅ in
  let p := lima_pipe_gp in
  let err := - ENOMEM in
  (length (ip (ldev m)) = lima_ip_num ∧
   get_pipe p (ldev m) = lima_sched_pipe_zero ∧
   kret (lima_sched_pipe_init p) = 0 ∧
   kret (pipe_init_call p) = err ∧
   err ≠ 0) ∧
  ∃ m',
    lima_init_pipe p m = Some (err, m') ∧
    calls m' = calls m ++ [lima_sched_pipe_init p; pipe_init_call p;
                           lima_sched_pipe_fini p] ∧
    ∀ h, held (klog m) = Some h → held (klog m') = Some h.
Proof.
  intros K m p err.
  assert (H1 : length (ip (ldev m)) = lima_ip_num) by reflexivity.
  assert (H2 : get_pipe p (ldev m) = lima_sched_pipe_zero) by reflexivity.
  assert (H3 : @kret env_gp_pipe_fails (lima_sched_pipe_init p) = 0)
    by reflexivity.
  assert (H4 : @kret env_gp_pipe_fails (pipe_init_call p) = err) by reflexivity.
  assert (H5 : err ≠ 0) by (vm_compute; discriminate).
  split; [exact (conj H1 (conj H2 (conj H3 (conj H4 H5))))|].
  exact (pipe_composition_finalizes_on_error (K := env_gp_pipe_fails) p m err
           H1 H2 H3 H4 H5).
Defined.

(** ** Where the amended statements part from the specification *)

(** C4 as the specification words it has [lima_bcast_enable] rewrite the
    half of the broadcast-mask register into which init shifted its
    mask.  A Mali-450 with all eight fragment processors: init leaves
    [0xff0000] in the register, and enabling one processor ([pp0], the
    first of the pipeline) gives [0xff0001].  The upper half, which init
    wrote, is kept and is not the mask of the first processor; the lower
    half is the one that changes. *)
Lemma lima_bcast_enable_keeps_init_half :
  let C := consts_example in
  let m := machine_after_init env_all_ok lima_gpu_mali450 in
  let a := ip_iomem (ip (ldev m) !!! lima_ip_bcast) + LIMA_BCAST_BROADCAST_MASK in
  ∃ m' old new,
    lima_bcast_enable 1 m = Some (tt, m') ∧
    processor_list (pipe_pp (ldev m)) !! 0%nat = Some (Some lima_ip_pp0) ∧
    mmio m !! a = Some old ∧
    mmio m' !! a = Some new ∧
    old = Z.shiftl 0xff 16 ∧
    Z.shiftr new 16 = Z.shiftr old 16 ∧
    Z.shiftr new 16 ≠ mask_of_positions [0%nat] ∧
    Z.land new 0xffff = mask_of_positions [0%nat] ∧
    Z.land new 0xffff ≠ Z.land old 0xffff.
Proof.
  intros C m a.
  exists (run_on (lima_bcast_enable (C := consts_example) 1) m), 0xff0000, 0xff0001.
  vm_compute.
  repeat split; intros H; discriminate H.
Qed.

(** C7 as the specification words it has the mask determined by the
    descriptor table and the variant.  Two Mali-450 devices, same table,
    same variant; on the second the type-specific init of the optional
    [pp2] failed, so its presence flag is clear.  [lima_bcast_init]
    programs [0xff] on the first and [0xfb] on the second. *)
Lemma lima_bcast_init_mask_follows_presence :
  let C := consts_example in
  let m1 := machine_after_slots env_all_ok lima_gpu_mali450 in
  let m2 := machine_after_slots env_pp2_fails lima_gpu_mali450 in
  let a1 := ip_iomem (ip (ldev m1) !!! lima_ip_bcast) + LIMA_BCAST_INTERRUPT_MASK in
  let a2 := ip_iomem (ip (ldev m2) !!! lima_ip_bcast) + LIMA_BCAST_INTERRUPT_MASK in
  ldev_id (ldev m1) = ldev_id (ldev m2) ∧
  0 ≤ offset (row lima_ip_pp2) lima_gpu_mali450 ∧
  ∃ m1' m2',
    lima_bcast_init lima_ip_bcast m1 = Some (0, m1') ∧
    lima_bcast_init lima_ip_bcast m2 = Some (0, m2') ∧
    mmio m1' !! a1 = Some 0xff ∧
    mmio m2' !! a2 = Some 0xfb.
Proof.
  intros C m1 m2 a1 a2.
  split; [vm_compute; reflexivity|].
  split; [vm_compute; discriminate|].
  exists (run_on (lima_bcast_init (C := consts_example) lima_ip_bcast) m1),
         (run_on (lima_bcast_init (C := consts_example) lima_ip_bcast) m2).
  vm_compute.
  repeat split.
Qed.

(** C8 as the specification words it has the composition of the
    geometry pipeline succeed whenever the per-slot phase did.  On a
    Mali-400 every slot comes up (the loop runs through all of
    [lima_ip_num] positions and ends with 0), the pipe-specific init of
    the geometry pipeline returns [-ENOMEM], and so does
    [lima_init_gp_pipe]. *)
Lemma gp_pipe_composition_can_fail :
  let K := env_gp_pipe_fails in
  let C := consts_example in
  let m := machine_after_slots env_gp_pipe_fails lima_gpu_mali400 in
  init_ip_loop lima_ip_num 0 (machine_zero lima_gpu_mali400 ∅)
  = Some ((lima_ip_num, 0), m) ∧
  ∃ m', lima_init_gp_pipe m = Some (- ENOMEM, m') ∧ - ENOMEM ≠ 0.
Proof.
  intros K C m.
  split; [vm_compute; reflexivity|].
  exists (run_on (lima_init_gp_pipe (K := env_gp_pipe_fails)) m).
  vm_compute.
  split; [reflexivity|discriminate].
Qed.

(** * Further properties

    Properties of the functions that go beyond the statements above:
    edge cases, round trips of bring-up and teardown, and the order of
    unwinding. *)

Section MoreProofs.

Context {K : kernel_env} {C : lima_consts}.

Ltac run_simpl :=
  cbn [call call_void assign modify_dev get_dev mret M_ret ldev mmio klog log_call].

Ltac run_step := rewrite bind_eq; run_simpl.

Ltac ledger :=
  cbn [foldl held_step acquired released k_call k_ret give_back app].

Ltac ledger_auto :=
  repeat first [ progress ledger
               | rewrite decide_True by (done || lia)
               | rewrite decide_False by (done || lia) ].

(** ** The broadcast unit *)

Lemma land_upper_absorbs v sel :
  0 ≤ sel < 2 ^ 16 →
  Z.land (Z.lor (Z.land v 0xffff0000) sel) 0xffff0000 = Z.land v 0xffff0000.
Proof.
  intros Hsel.
  apply Z.bits_inj'. intros j Hj.
  rewrite !Z.land_spec, Z.lor_spec, Z.land_spec, upper_mask_bits by done.
  destruct (decide (16 ≤ j < 32)).
  - rewrite bool_decide_eq_true_2, (bits_above sel 16 j) by lia.
    by rewrite orb_false_r, !andb_true_r.
  - rewrite bool_decide_eq_false_2 by done. by rewrite !andb_false_r.
Qed.

Lemma with_mmio_twice r r' m : with_mmio r' (with_mmio r m) = with_mmio r' m.
Proof. done. Qed.

(** X1.  The selection is replaced, not accumulated: enabling [n1]
    processors and then [n2] leaves the registers exactly as enabling
    [n2] alone does. *)
Theorem lima_bcast_enable_replaces_selection m x ks1 ks2 :
  ip (ldev m) !! lima_ip_bcast = Some x →
  registered_positions (ldev m) ks1 →
  registered_positions (ldev m) ks2 →
  (∀ k, k ∈ ks1 → (k < 16)%nat) →
  (∀ k, k ∈ ks2 → (k < 16)%nat) →
  (lima_bcast_enable (Z.of_nat (length ks1));;
   lima_bcast_enable (Z.of_nat (length ks2))) m
  = lima_bcast_enable (Z.of_nat (length ks2)) m.
Proof.
  intros Hx Hks1 Hks2 Hlt1 Hlt2.
  rewrite bind_eq, (lima_bcast_enable_run m x ks1 Hx Hks1 Hlt1).
  rewrite (lima_bcast_enable_run m x ks2 Hx Hks2 Hlt2).
  rewrite (lima_bcast_enable_run _ x ks2) by done.
  rewrite with_mmio_twice. cbn [with_mmio mmio].
  rewrite lookup_insert_eq, insert_insert_eq. cbn [default]. unfold id.
  rewrite land_upper_absorbs; [done|].
  pose proof (mask_of_positions_bound ks1 16 Hlt1) as Hb.
  by change (2 ^ Z.of_nat 16) with (2 ^ 16) in Hb.
Qed.


Lemma for_each_undefined {A} (body : A → nat → M A) l i m :
  i ∈ l →
  (∀ acc, body acc i m = None) →
  (∀ acc j r m', body acc j m = Some (r, m') → m' = m) →
  ∀ acc, for_each body acc l m = None.
Proof.
  intros Hi Hbad Hsame. induction l as [|j l IH]; intros acc.
  - by apply elem_of_nil in Hi.
  - cbn [for_each]. rewrite bind_eq.
    destruct (decide (i = j)) as [<-|Hne].
    + by rewrite Hbad.
    + destruct (body acc j m) as [[r m']|] eqn:Hj; [|done].
      rewrite (Hsame _ _ _ _ Hj). apply IH.
      apply elem_of_cons in Hi as [?|?]; [done|done].
Qed.

(** X3.  A count that reaches past the processors registered in the
    fragment pipeline makes [lima_bcast_enable] dereference a null cell
    of the processor list: the call has no defined result. *)
Theorem lima_bcast_enable_undefined_past_registered m n i :
  (i < Z.to_nat n)%nat →
  processor (pipe_pp (ldev m)) !! i = Some None →
  lima_bcast_enable n m = None.
Proof.
  intros Hi Hnull. unfold lima_bcast_enable.
  rewrite bind_eq. destruct (ip_at lima_ip_bcast m) as [[x m1]|] eqn:Hx; [|done].
  assert (m1 = m) as ->.
  { unfold ip_at in Hx. destruct (ip (ldev m) !! lima_ip_bcast); by simplify_eq. }
  rewrite bind_eq. cbn [readl]. rewrite bind_eq.
  rewrite (for_each_undefined _ _ i); [done| | |].
  - apply elem_of_seq. lia.
  - intros acc. rewrite bind_eq. cbn [get_dev]. by rewrite Hnull.
  - intros acc j r m' Hj. rewrite bind_eq in Hj. cbn [get_dev] in Hj.
    destruct (processor (pipe_pp (ldev m)) !! j) as [[k|]|]; [|done..].
    rewrite bind_eq in Hj. unfold ip_at in Hj.
    destruct (ip (ldev m) !! k); [|done].
    rewrite bind_eq in Hj. unfold shl1 in Hj. case_decide; [|done].
    rewrite ret_eq, ret_eq in Hj. by simplify_eq.
Qed.

(** ** Clocks and reset line *)

Lemma lima_clk_init_ledger m h :
  held (klog m) = Some h →
  ∃ r m',
    lima_clk_init m = Some (r, m') ∧
    mmio m' = mmio m ∧
    ip (ldev m') = ip (ldev m) ∧
    (r = 0 →
       ldev m' = set_field f_reset (kret devm_reset_control_get_optional)
                   (set_field f_clk_gpu (kret (devm_clk_get "core"))
                      (set_field f_clk_bus (kret (devm_clk_get "bus")) (ldev m))) ∧
       held (klog m') = Some (clk_resources (ldev m') ++ h) ∧
       ∃ t, klog m' = klog m ++ t ∧ ∀ e, e ∈ t → released e = None) ∧
    (r ≠ 0 → held (klog m') = Some h).
Proof.
  intros Hh. unfold lima_clk_init.
  set (bus := kret (devm_clk_get "bus")).
  set (gpu := kret (devm_clk_get "core")).
  set (rst := kret devm_reset_control_get_optional).
  repeat run_step. fold bus.
  destruct (IS_ERR bus) eqn:Hbus.
  { eexists _, _. split; [done|]. run_simpl. split; [done|]. split; [done|]. split.
    - intros Hr. by apply IS_ERR_nonzero in Hbus.
    - intros _. by rewrite held_app, Hh. }
  repeat run_step. fold gpu.
  destruct (IS_ERR gpu) eqn:Hgpu.
  { eexists _, _. split; [done|]. run_simpl. split; [done|]. split; [done|]. split.
    - intros Hr. by apply IS_ERR_nonzero in Hgpu.
    - intros _. by rewrite !held_app, Hh. }
  repeat run_step.
  case_decide as Hen1.
  { eexists _, _. split; [done|]. run_simpl. split; [done|]. split; [done|].
    split; [done|]. intros _. rewrite !held_app, Hh. by ledger_auto. }
  assert (Hb : kret (clk_prepare_enable bus) = 0) by lia.
  repeat run_step.
  case_decide as Hen2.
  { repeat run_step. eexists _, _. split; [done|]. run_simpl.
    split; [done|]. split; [done|]. split; [done|].
    intros _. rewrite !held_app, Hh. by ledger_auto. }
  assert (Hg : kret (clk_prepare_enable gpu) = 0) by lia.
  repeat run_step. fold rst.
  destruct (IS_ERR rst) eqn:Hrst.
  { repeat run_step. eexists _, _. split; [done|]. run_simpl.
    split; [done|]. split; [done|]. split.
    - intros Hr. by apply IS_ERR_nonzero in Hrst.
    - intros _. rewrite !held_app, Hh. by ledger_auto. }
  case_decide as Hnull.
  - repeat run_step. case_decide as Hde.
    { repeat run_step. eexists _, _. split; [done|]. run_simpl.
      split; [done|]. split; [done|]. split; [done|].
      intros _. rewrite !held_app, Hh. by ledger_auto. }
    assert (Hd : kret (reset_control_deassert rst) = 0) by lia.
    eexists _, _. split; [done|]. run_simpl.
    split; [done|]. split; [done|]. split; [|done].
    intros _. split; [done|]. split.
    { rewrite !held_app, Hh. unfold clk_resources.
      cbn [set_field reset clk_gpu clk_bus]. by ledger_auto. }
    eexists. split; [by rewrite <- !app_assoc|].
    intros e He. repeat (apply elem_of_app in He as [He|He]);
      apply list_elem_of_singleton in He as ->; done.
  - eexists _, _. split; [done|]. run_simpl.
    split; [done|]. split; [done|]. split; [|done].
    intros _. split; [done|]. split.
    { rewrite !held_app, Hh. unfold clk_resources.
      cbn [set_field reset clk_gpu clk_bus]. by ledger_auto. }
    eexists. split; [by rewrite <- !app_assoc|].
    intros e He. repeat (apply elem_of_app in He as [He|He]);
      apply list_elem_of_singleton in He as ->; done.
Qed.

Lemma lima_clk_fini_run m :
  lima_clk_fini m
  = Some (tt, {| ldev := ldev m; mmio := mmio m;
                 klog := klog m ++ void_entries (ldev m) (clk_fini_calls (ldev m)) |}).
Proof.
  unfold lima_clk_fini, clk_fini_calls.
  repeat (first [rewrite bind_eq | progress run_simpl | case_decide]);
    unfold call_void, log_call;
    cbn [ldev mmio klog void_entries fmap list_fmap app];
    by rewrite <- ?app_assoc.
Qed.

Lemma held_clk_fini_calls d log h :
  held log = Some (clk_resources d ++ h) →
  held (log ++ void_entries d (clk_fini_calls d)) = Some h.
Proof.
  intros Hh. rewrite held_app, Hh. unfold clk_resources, clk_fini_calls.
  case_decide;
    cbn [void_entries fmap list_fmap app foldl];
    by rewrite !held_step_release by done.
Qed.

(** X4.  [lima_clk_init] is all or nothing.  When it returns 0 both
    clocks are enabled, and the reset line deasserted if there is one;
    when it returns an error, whatever it had enabled it has disabled
    again, so that the resources held are those held before the call. *)
Theorem lima_clk_init_all_or_nothing m h :
  held (klog m) = Some h →
  ∃ r m',
    lima_clk_init m = Some (r, m') ∧
    (r = 0 →
       clk_bus (ldev m') = kret (devm_clk_get "bus") ∧
       clk_gpu (ldev m') = kret (devm_clk_get "core") ∧
       reset (ldev m') = kret devm_reset_control_get_optional ∧
       held (klog m') = Some (clk_resources (ldev m') ++ h)) ∧
    (r ≠ 0 → held (klog m') = Some h).
Proof.
  intros Hh.
  destruct (lima_clk_init_ledger m h Hh) as (r & m' & Hrun & _ & _ & Hok & Hfail).
  exists r, m'. split; [done|]. split; [|done].
  intros Hr. destruct (Hok Hr) as (Hd & Hheld & _). by rewrite Hd in *.
Qed.

(** X5.  [lima_clk_fini] undoes a successful [lima_clk_init]: it asserts
    the reset line if there is one and disables the core clock and then
    the bus clock, leaving held what was held before the clocks were set
    up. *)
Theorem lima_clk_init_fini_round_trip m m' h :
  held (klog m) = Some h →
  lima_clk_init m = Some (0, m') →
  ∃ m'',
    lima_clk_fini m' = Some (tt, m'') ∧
    calls m'' = calls m' ++ clk_fini_calls (ldev m') ∧
    ldev m'' = ldev m' ∧
    held (klog m'') = Some h.
Proof.
  intros Hh Hrun.
  destruct (lima_clk_init_ledger m h Hh) as (r & m1 & Hrun1 & _ & _ & Hok & _).
  rewrite Hrun in Hrun1. injection Hrun1 as <- <-.
  destruct (Hok eq_refl) as (_ & Hheld & _).
  rewrite lima_clk_fini_run. eexists. split; [done|]. cbn [ldev klog].
  split; [|split; [done|]].
  - unfold calls. cbn [klog]. by rewrite fmap_app, void_entries_calls.
  - by apply held_clk_fini_calls.
Qed.

(** ** The regulator *)

Lemma lima_regulator_init_ledger m h :
  held (klog m) = Some h →
  let reg := kret devm_regulator_get_optional in
  ∃ r m',
    lima_regulator_init m = Some (r, m') ∧
    mmio m' = mmio m ∧
    (∃ v, ldev m' = set_field f_regulator v (ldev m)) ∧
    (r = 0 →
       ldev m' = set_field f_regulator (if IS_ERR reg then NULL else reg) (ldev m) ∧
       held (klog m')
       = Some ((if IS_ERR reg then [] else [res_regulator reg]) ++ h) ∧
       ∃ t, klog m' = klog m ++ t ∧ ∀ e, e ∈ t → released e = None) ∧
    (r ≠ 0 → held (klog m') = Some h).
Proof.
  intros Hh reg. unfold lima_regulator_init.
  repeat run_step. fold reg.
  destruct (IS_ERR reg) eqn:Hreg.
  - repeat run_step. case_decide as Hnodev.
    + eexists _, _. split; [done|]. run_simpl.
      split; [done|]. split; [by eexists|]. split; [|done]. intros _.
      split; [done|]. split; [by rewrite !held_app, Hh|].
      eexists. split; [done|].
      intros e He. apply list_elem_of_singleton in He as ->. done.
    + eexists _, _. split; [done|]. run_simpl.
      split; [done|]. split; [by eexists|]. split.
      * intros Hr. by apply IS_ERR_nonzero in Hreg.
      * intros _. by rewrite !held_app, Hh.
  - repeat run_step. case_decide as Hen.
    + eexists _, _. split; [done|]. run_simpl. split; [done|].
      split; [by eexists|].
      split; [lia|]. intros _. rewrite !held_app, Hh. by ledger_auto.
    + eexists _, _. split; [done|]. run_simpl.
      split; [done|]. split; [by eexists|]. split; [|done]. intros _.
      split; [done|]. split; [rewrite !held_app, Hh; by ledger_auto|].
      eexists. split; [by rewrite <- !app_assoc|].
      intros e He. repeat (apply elem_of_app in He as [He|He]);
        apply list_elem_of_singleton in He as ->; done.
Qed.

Lemma lima_regulator_fini_run m :
  lima_regulator_fini m
  = Some (tt, {| ldev := ldev m; mmio := mmio m;
                 klog := klog m ++ void_entries (ldev m)
                           (if decide (regulator (ldev m) ≠ NULL)
                            then [regulator_disable (regulator (ldev m))] else []) |}).
Proof.
  unfold lima_regulator_fini. rewrite bind_eq. cbn [get_dev].
  case_decide.
  - done.
  - rewrite ret_eq. cbn [void_entries fmap list_fmap]. rewrite app_nil_r.
    by destruct m.
Qed.

(** X6.  A board without a regulator is not an error: when the lookup
    returns [-ENODEV], [lima_regulator_init] returns 0 after that one
    call, leaves the regulator field null, and [lima_regulator_fini]
    afterwards calls nothing. *)
Theorem lima_regulator_init_absent_is_no_error m :
  kret devm_regulator_get_optional = - ENODEV →
  ∃ m',
    lima_regulator_init m = Some (0, m') ∧
    regulator (ldev m') = NULL ∧
    calls m' = calls m ++ [devm_regulator_get_optional] ∧
    lima_regulator_fini m' = Some (tt, m').
Proof.
  intros Hnodev. unfold lima_regulator_init.
  repeat run_step. rewrite Hnodev.
  change (IS_ERR (- ENODEV)) with true. cbn iota.
  repeat run_step. rewrite decide_True by done.
  eexists. split; [done|]. run_simpl.
  split; [done|]. split.
  - unfold calls. cbn [klog]. by rewrite fmap_app.
  - rewrite lima_regulator_fini_run. cbn [ldev set_field regulator].
    rewrite decide_False by (intros H; by apply H).
    cbn [void_entries fmap list_fmap]. by rewrite app_nil_r.
Qed.

(** X7.  The regulator is enabled and disabled in pairs.  A failing
    [lima_regulator_init] leaves nothing enabled; after a successful one,
    [lima_regulator_fini] gives back exactly what was enabled, so that
    the resources held are again those held before. *)
Theorem lima_regulator_init_fini_round_trip m h :
  regulator_not_null →
  held (klog m) = Some h →
  ∃ r m',
    lima_regulator_init m = Some (r, m') ∧
    (r ≠ 0 → held (klog m') = Some h) ∧
    (r = 0 →
     ∃ m'', lima_regulator_fini m' = Some (tt, m'') ∧
            ldev m'' = ldev m' ∧
            held (klog m'') = Some h).
Proof.
  intros Hnn Hh.
  destruct (lima_regulator_init_ledger m h Hh) as (r & m' & Hrun & _ & _ & Hok & Hfail).
  exists r, m'. split; [done|]. split; [done|].
  intros Hr. destruct (Hok Hr) as (Hd & Hheld & _).
  rewrite lima_regulator_fini_run. eexists. split; [done|]. cbn [ldev klog].
  split; [done|].
  rewrite held_app, Hheld, Hd. cbn [set_field regulator].
  destruct (IS_ERR (kret devm_regulator_get_optional)) eqn:Herr.
  - rewrite decide_False by (intros H; by apply H). done.
  - rewrite decide_True by (by apply Hnn).
    cbn [void_entries fmap list_fmap app foldl].
    by rewrite held_step_release.
Qed.

(** ** Per-slot init: the other outcomes *)

Lemma irq_resolved_fields desc index d x1 x2 t :
  irq_resolved desc index d x1 x2 t →
  ip_dev x2 = ip_dev x1 ∧ ip_id x2 = ip_id x1 ∧ ip_iomem x2 = ip_iomem x1 ∧
  ip_present x2 = ip_present x1 ∧
  (irq_name desc = None → ip_irq x2 = ip_irq x1) ∧
  (∀ irq, irq_name desc = Some irq →
     ip_irq x2 = kret (platform_get_irq_byname irq) ∧
     0 ≤ kret (platform_get_irq_byname irq)) ∧
  k_call <$> t = match irq_name desc with
                 | Some irq => [platform_get_irq_byname irq]
                 | None => []
                 end ∧
  ∀ h, foldl held_step (Some h) t = Some h.
Proof.
  intros [Hnone | irq Hname Hok].
  - rewrite Hnone. split_and!; try done.
  - rewrite Hname. split_and!; try done.
    intros irq' [= <-]. done.
Qed.

Lemma slot_outcome_fields desc index d x r x' t :
  slot_outcome desc index d x r x' t →
  0 ≤ offset desc (ldev_id d) →
  window_assigned index (ldev_iomem d + offset desc (ldev_id d)) x'.
Proof.
  intros Hout Hoff.
  destruct Hout as [Habs | irq _ Hname Hfail | x2 t_irq _ Hirq Hret | x2 t_irq _ Hirq Hret].
  - lia.
  - done.
  - destruct (irq_resolved_fields _ _ _ _ _ _ Hirq) as (Hd & Hi & Hio & _).
    unfold window_assigned. by rewrite Hd, Hi, Hio.
  - destruct (irq_resolved_fields _ _ _ _ _ _ Hirq) as (Hd & Hi & Hio & _).
    unfold window_assigned. cbn [ip_assign_present ip_dev ip_id ip_iomem].
    by rewrite Hd, Hi, Hio.
Qed.

(** X8.  When the interrupt a row names cannot be resolved, per-slot
    init stops there: the type-specific init is not called, the result
    is the lookup's error if the slot is mandatory and 0 otherwise, and
    the instance keeps its presence flag and its interrupt number. *)
Theorem init_ip_irq_failure_skips_init index desc m x irq :
  lima_ip_desc !! index = Some desc →
  ip (ldev m) !! index = Some x →
  0 ≤ offset desc (ldev_id (ldev m)) →
  irq_name desc = Some irq →
  kret (platform_get_irq_byname irq) < 0 →
  let must := must_have desc (ldev_id (ldev m)) in
  let err := kret (platform_get_irq_byname irq) in
  ∃ m' x',
    lima_init_ip index m = Some (if must then err else 0, m') ∧
    calls m' = calls m ++ [platform_get_irq_byname irq] ∧
    mmio m' = mmio m ∧
    ip (ldev m') !! index = Some x' ∧
    ip_present x' = ip_present x ∧
    ip_irq x' = ip_irq x ∧
    ∀ h, held (klog m) = Some h → held (klog m') = Some h.
Proof.
  intros Hdesc Hx Hoff Hname Hfail must err.
  assert (Hi : (index < length (ip (ldev m)))%nat) by (by eapply lookup_lt_Some).
  rewrite (lima_init_ip_run _ _ _ Hdesc). unfold init_ip_body.
  rewrite bind_eq. cbn [get_dev]. rewrite decide_False by lia.
  rewrite bind_eq, (update_ip_run _ _ _ _ Hx), Hname.
  rewrite bind_eq, call_run. unfold log_call. cbn [ldev mmio klog].
  rewrite decide_True by done. rewrite ret_eq.
  eexists _, _. split; [done|]. cbn [ldev mmio klog].
  split; [unfold calls; cbn [klog]; by rewrite fmap_app|].
  split; [done|]. split; [by apply slot_at_lookup|].
  split; [done|]. split; [done|].
  intros h Hh. rewrite held_app, Hh. by ledger_auto.
Qed.

(** X9.  When the interrupt resolves (or none is named) and the
    type-specific init returns 0, per-slot init returns 0 and the
    instance is complete: presence flag set, register window and kind id
    assigned, interrupt number recorded.  The calls are the lookup, if
    any, and then the init, and the slot is now held. *)
Theorem init_ip_success_marks_present index desc m x :
  lima_ip_desc !! index = Some desc →
  ip (ldev m) !! index = Some x →
  length (ip (ldev m)) = lima_ip_num →
  0 ≤ offset desc (ldev_id (ldev m)) →
  (∀ irq, irq_name desc = Some irq → 0 ≤ kret (platform_get_irq_byname irq)) →
  desc_init_ret desc index = 0 →
  ∃ m' x',
    lima_init_ip index m = Some (0, m') ∧
    ip (ldev m') !! index = Some x' ∧
    ip_present x' = true ∧
    window_assigned index (ldev_iomem (ldev m) + offset desc (ldev_id (ldev m))) x' ∧
    ip_irq x' = match irq_name desc with
                | Some irq => kret (platform_get_irq_byname irq)
                | None => ip_irq x
                end ∧
    calls m' = calls m ++ match irq_name desc with
                          | Some irq => [platform_get_irq_byname irq]
                          | None => []
                          end ++ [desc_init index] ∧
    ∀ h, held (klog m) = Some h → held (klog m') = Some (res_slot index :: h).
Proof.
  intros Hdesc Hx Hlen Hoff Hirqok Hret.
  assert (Hi : (index < length (ip (ldev m)))%nat) by (by eapply lookup_lt_Some).
  destruct (init_ip_body_spec desc index m x Hx Hlen) as (r & x' & t & regs' & Hrun & Hout).
  rewrite (lima_init_ip_run _ _ _ Hdesc).
  destruct Hout as [Habs | irq _ Hname Hfail | x2 t_irq _ Hirq Hbad | x2 t_irq _ Hirq _].
  - lia.
  - specialize (Hirqok irq Hname). lia.
  - done.
  - destruct (irq_resolved_fields _ _ _ _ _ _ Hirq)
      as (Hdev & Hid & Hio & _ & Hnone & Hsome & Hcalls & Hneutral).
    eexists _, _. split; [exact Hrun|]. cbn [ldev klog].
    split; [by apply slot_at_lookup|]. split; [done|].
    split.
    { unfold window_assigned. cbn [ip_assign_present ip_dev ip_id ip_iomem].
      by rewrite Hdev, Hid, Hio. }
    split.
    { cbn [ip_assign_present ip_irq].
      destruct (irq_name desc) as [irq|]; [by apply Hsome|by apply Hnone]. }
    split.
    { unfold calls. cbn [klog]. by rewrite !fmap_app, Hcalls. }
    intros h Hh. rewrite held_app, Hh, foldl_app, Hneutral. by ledger_auto.
Qed.

(** X10.  [lima_ip_name] after per-slot init: an instance whose offset
    is present answers with the name of its own row of the table; one
    whose offset is absent was not written and answers as before. *)
Theorem lima_ip_name_after_init_ip index desc m x r m' :
  lima_ip_desc !! index = Some desc →
  ip (ldev m) !! index = Some x →
  length (ip (ldev m)) = lima_ip_num →
  lima_init_ip index m = Some (r, m') →
  ∃ x', ip (ldev m') !! index = Some x' ∧
        lima_ip_name x'
        = if decide (0 ≤ offset desc (ldev_id (ldev m)))
          then Some (name desc) else lima_ip_name x.
Proof.
  intros Hdesc Hx Hlen Hrun.
  assert (Hi : (index < length (ip (ldev m)))%nat) by (by eapply lookup_lt_Some).
  destruct (init_ip_body_spec desc index m x Hx Hlen) as (r1 & x' & t & regs' & Hrun1 & Hout).
  rewrite (lima_init_ip_run _ _ _ Hdesc), Hrun1 in Hrun. injection Hrun as <- <-.
  exists x'. cbn [ldev]. split; [by apply slot_at_lookup|].
  case_decide as Hoff.
  - destruct (slot_outcome_fields _ _ _ _ _ _ _ Hout Hoff) as (_ & Hid & _).
    unfold lima_ip_name. by rewrite Hid, Hdesc.
  - by destruct (slot_outcome_absent _ _ _ _ _ _ _ Hout ltac:(lia)) as (-> & _).
Qed.

(** ** Composing the pipelines *)

Lemma composition_created p c x m :
  kret (lima_sched_pipe_init p) = 0 →
  ldev (composition p c x m).2 = set_pipe p x (ldev m).
Proof.
  intros Hs. unfold composition. rewrite Hs, decide_False by (intros H; by apply H).
  by case_decide.
Qed.

Lemma pipe_of_lists L M P bp bm :
  l2_cache_list (pipe_of L M P bp bm) = Some <$> L ∧
  mmu_list (pipe_of L M P bp bm) = Some <$> M ∧
  processor_list (pipe_of L M P bp bm) = Some <$> P.
Proof.
  unfold l2_cache_list, mmu_list, processor_list, pipe_of.
  cbn [num_l2_cache l2_cache num_mmu mmu num_processor processor].
  by rewrite !cells_take.
Qed.

(** X11.  The processor list and the MMU list of the fragment pipeline
    are index-aligned.  Composition goes through the positions 0..7 in
    order and, for each position whose processor, MMU and L2 cache are
    all present, appends [pp{i}] to the one list and [ppmmu{i}] to the
    other; nothing else enters either list. *)
Theorem pp_pipe_lists_index_aligned m :
  length (ip (ldev m)) = lima_ip_num →
  pipe_pp (ldev m) = lima_sched_pipe_zero →
  kret (lima_sched_pipe_init lima_pipe_pp) = 0 →
  ∃ r m',
    lima_init_pp_pipe m = Some (r, m') ∧
    processor_list (pipe_pp (ldev m'))
    = (λ i, Some (lima_ip_pp0 + i)%nat) <$> pp_positions (ldev m) ∧
    mmu_list (pipe_pp (ldev m'))
    = (λ i, Some (lima_ip_ppmmu0 + i)%nat) <$> pp_positions (ldev m) ∧
    ∀ i k, processor_list (pipe_pp (ldev m')) !! i = Some (Some (lima_ip_pp0 + k)%nat)
           ↔ mmu_list (pipe_pp (ldev m')) !! i = Some (Some (lima_ip_ppmmu0 + k)%nat).
Proof.
  intros Hlen Hpipe Hs.
  rewrite (lima_init_pp_pipe_run m Hlen Hpipe).
  destruct (composition _ _ _ m) as [r m'] eqn:Hc.
  exists r, m'. split; [done|].
  pose proof (composition_created lima_pipe_pp lima_pp_pipe_init
                (pp_pipe_composed (ldev m)) m Hs) as Hd.
  rewrite Hc in Hd. cbn [snd] in Hd. rewrite Hd. cbn [set_pipe pipe_pp].
  unfold pp_pipe_composed.
  destruct (pipe_of_lists
              (foldl (l2_step (ldev m)) [] (seq 0 LIMA_SCHED_PIPE_MAX_PROCESSOR))
              (foldl (mmu_step (ldev m)) [] (seq 0 LIMA_SCHED_PIPE_MAX_PROCESSOR))
              (foldl (processor_step (ldev m)) [] (seq 0 LIMA_SCHED_PIPE_MAX_PROCESSOR))
              (if ip_present (ip (ldev m) !!! lima_ip_bcast)
               then Some lima_ip_pp_bcast else None)
              (if ip_present (ip (ldev m) !!! lima_ip_bcast)
               then Some lima_ip_ppmmu_bcast else None))
    as (_ & -> & ->).
  rewrite mmu_fold, processor_fold, !app_nil_l, <- !list_fmap_compose.
  fold (pp_positions (ldev m)).
  split; [done|]. split; [done|].
  intros i k. rewrite !list_lookup_fmap.
  destruct (pp_positions (ldev m) !! i) as [j|]; cbn [fmap option_fmap option_map compose].
  - split; intros [= H]; do 2 f_equal; lia.
  - done.
Qed.

(** X12.  The broadcast references of the fragment pipeline are set
    exactly when the broadcast unit is present: then they are the
    [pp_bcast] and [ppmmu_bcast] slots, otherwise both stay null. *)
Theorem pp_pipe_bcast_iff_present m :
  length (ip (ldev m)) = lima_ip_num →
  pipe_pp (ldev m) = lima_sched_pipe_zero →
  kret (lima_sched_pipe_init lima_pipe_pp) = 0 →
  ∃ r m',
    lima_init_pp_pipe m = Some (r, m') ∧
    let present := ip_present (ip (ldev m) !!! lima_ip_bcast) in
    bcast_processor (pipe_pp (ldev m'))
    = (if present then Some lima_ip_pp_bcast else None) ∧
    bcast_mmu (pipe_pp (ldev m'))
    = (if present then Some lima_ip_ppmmu_bcast else None).
Proof.
  intros Hlen Hpipe Hs.
  rewrite (lima_init_pp_pipe_run m Hlen Hpipe).
  destruct (composition _ _ _ m) as [r m'] eqn:Hc.
  exists r, m'. split; [done|].
  pose proof (composition_created lima_pipe_pp lima_pp_pipe_init
                (pp_pipe_composed (ldev m)) m Hs) as Hd.
  rewrite Hc in Hd. cbn [snd] in Hd. by rewrite Hd.
Qed.

(** X13.  When the scheduler pipe cannot be created, composing a
    pipeline returns that error at once: it is the only call made, no
    slot enters a list and nothing is finalized. *)
Theorem pipe_composition_sched_failure p m :
  kret (lima_sched_pipe_init p) ≠ 0 →
  ∃ m',
    lima_init_pipe p m = Some (kret (lima_sched_pipe_init p), m') ∧
    ldev m' = ldev m ∧
    mmio m' = mmio m ∧
    calls m' = calls m ++ [lima_sched_pipe_init p] ∧
    ∀ h, held (klog m) = Some h → held (klog m') = Some h.
Proof.
  intros Hs.
  assert (Hrun : lima_init_pipe p m
    = Some (kret (lima_sched_pipe_init p),
            log_call (lima_sched_pipe_init p) (kret (lima_sched_pipe_init p)) (ldev m) m)).
  { destruct p; cbn [lima_init_pipe];
      unfold lima_init_gp_pipe, lima_init_pp_pipe;
      rewrite bind_eq, call_run; by rewrite decide_True. }
  rewrite Hrun. eexists. split; [done|]. unfold log_call. cbn [ldev mmio klog].
  split; [done|]. split; [done|].
  split; [unfold calls; cbn [klog]; by rewrite fmap_app|].
  intros h Hh. rewrite held_app, Hh. by ledger_auto.
Qed.

(** ** The ledger through bring-up *)

Lemma slot_resources_S d i :
  slot_resources d (S i)
  = (if ip_present (ip d !!! i) then [res_slot i] else []) ++ slot_resources d i.
Proof.
  unfold slot_resources. rewrite seq_S, reverse_app. cbn [reverse rev_append app Nat.add].
  rewrite filter_cons. destruct (ip_present (ip d !!! i)).
  - by rewrite decide_True.
  - by rewrite decide_False.
Qed.

Lemma slot_resources_frame d d' i :
  (∀ k, (k < i)%nat → ip d' !!! k = ip d !!! k) →
  slot_resources d' i = slot_resources d i.
Proof.
  intros Hlow. induction i as [|i IH]; [done|].
  rewrite !slot_resources_S, Hlow by lia. f_equal. apply IH. intros k Hk. apply Hlow. lia.
Qed.

Lemma fini_calls_frame d d' i :
  ip d' = ip d → fini_calls d' i = fini_calls d i.
Proof. intros H. unfold fini_calls. by rewrite H. Qed.

Lemma slot_resources_same_ip d d' i :
  ip d' = ip d → slot_resources d' i = slot_resources d i.
Proof. intros H. unfold slot_resources. by rewrite H. Qed.

Lemma held_fini_calls d log h i :
  held log = Some (slot_resources d i ++ h) →
  held (log ++ void_entries d (fini_calls d i)) = Some h.
Proof.
  unfold slot_resources, fini_calls.
  generalize (filter (λ j, ip_present (ip d !!! j) = true) (reverse (seq 0 i))).
  intros l. revert log. induction l as [|k l IH]; intros log Hh.
  - cbn [fmap list_fmap void_entries]. by rewrite app_nil_r.
  - rewrite fmap_cons. unfold void_entries. rewrite fmap_cons. fold (void_entries d).
    rewrite cons_middle, app_assoc. apply IH.
    rewrite held_app, Hh. rewrite fmap_cons. cbn [app foldl].
    by apply held_step_release.
Qed.

Lemma held_fini_pipe_calls p d log h :
  held log = Some (pipe_resources p ++ h) →
  held (log ++ void_entries d (fini_pipe_calls p)) = Some h.
Proof.
  intros Hh. rewrite held_app, Hh.
  unfold pipe_resources, fini_pipe_calls.
  cbn [void_entries fmap list_fmap app foldl].
  rewrite !held_step_release; [done|done|done|by destruct p|by destruct p].
Qed.

(** What one round of the slot loop does to the ledger. *)
Lemma slot_outcome_held desc index d x r x' t h :
  slot_outcome desc index d x r x' t →
  ip_present x = false →
  foldl held_step (Some h) t
  = Some ((if ip_present x' then [res_slot index] else []) ++ h) ∧
  (r ≠ 0 → ip_present x' = false) ∧
  ∀ e, e ∈ t → released e = None.
Proof.
  intros Hout Hx.
  destruct Hout as [Habs | irq _ Hname Hfail | x2 t_irq _ Hirq Hret | x2 t_irq _ Hirq Hret].
  - rewrite Hx. split; [done|]. split; [done|]. by intros e He%not_elem_of_nil.
  - subst x1. cbn [ip_assign_window ip_present]. rewrite Hx.
    split; [unfold logged; by ledger_auto|].
    split; [done|]. intros e He%list_elem_of_singleton. by subst e.
  - destruct (irq_resolved_fields _ _ _ _ _ _ Hirq) as (_ & _ & _ & Hp & _ & _ & Hc & Hn).
    cbn [ip_assign_window ip_present] in Hp. rewrite Hp, Hx, foldl_app, Hn.
    split; [unfold logged; by ledger_auto|]. split; [done|].
    intros e [He|He%list_elem_of_singleton]%elem_of_app; [|by subst e].
    destruct Hirq as [|irq ? ?]; [by apply not_elem_of_nil in He|].
    apply list_elem_of_singleton in He. by subst e.
  - destruct (irq_resolved_fields _ _ _ _ _ _ Hirq) as (_ & _ & _ & Hp & _ & _ & Hc & Hn).
    cbn [ip_assign_present ip_present]. rewrite foldl_app, Hn.
    split; [unfold logged; by ledger_auto|]. split; [done|].
    intros e [He|He%list_elem_of_singleton]%elem_of_app; [|by subst e].
    destruct Hirq as [|irq ? ?]; [by apply not_elem_of_nil in He|].
    apply list_elem_of_singleton in He. by subst e.
Qed.

Lemma slot_at_lookup_total index x d :
  (index < length (ip d))%nat → ip (slot_at index x d) !!! index = x.
Proof.
  intros H. unfold slot_at. cbn [set_ip_array ip].
  by apply list_lookup_total_insert_eq.
Qed.

Lemma slot_at_lookup_total_ne index k x d :
  index ≠ k → ip (slot_at index x d) !!! k = ip d !!! k.
Proof.
  intros H. unfold slot_at. cbn [set_ip_array ip].
  by apply list_lookup_total_insert_ne.
Qed.

(** The slot loop acquires the slots it marks present, and nothing
    else; it gives nothing back. *)
Lemma slots_run_held i d j err d' t :
  slots_run i d j err d' t →
  (∀ k, (i ≤ k)%nat → ip_present (ip d !!! k) = false) →
  (∀ h log, held log = Some (slot_resources d i ++ h) →
            held (log ++ t) = Some (slot_resources d' j ++ h)) ∧
  (∀ e, e ∈ t → released e = None).
Proof.
  intros Hrun. induction Hrun as
    [d | i d desc x r x' t Hdesc Hx Hout Hr
       | i d desc x x' t j err d' t' Hdesc Hx Hout Hrun IH]; intros Hfresh.
  - split; [|by intros e He%not_elem_of_nil].
    intros h log Hh. by rewrite app_nil_r.
  - assert (Hi : (i < length (ip d))%nat) by (by eapply lookup_lt_Some).
    assert (Hxp : ip_present x = false).
    { rewrite <- (Hfresh i) by lia. f_equal. symmetry. by apply list_lookup_total_correct. }
    destruct (slot_outcome_held _ _ _ _ _ _ _ (slot_resources d i ++ [] ++ [])
                Hout Hxp) as (_ & Hnp & Hrel).
    split; [|done]. intros h log Hh.
    destruct (slot_outcome_held _ _ _ _ _ _ _ (slot_resources d i ++ h) Hout Hxp)
      as (Hheld & _ & _).
    rewrite held_app, Hh, Hheld, (Hnp Hr). cbn [app].
    rewrite (slot_resources_frame d (slot_at i x' d) i); [done|].
    intros k Hk. apply slot_at_lookup_total_ne. lia.
  - assert (Hi : (i < length (ip d))%nat) by (by eapply lookup_lt_Some).
    assert (Hxp : ip_present x = false).
    { rewrite <- (Hfresh i) by lia. f_equal. symmetry. by apply list_lookup_total_correct. }
    destruct IH as [IHheld IHrel].
    { intros k Hk. rewrite slot_at_lookup_total_ne by lia. apply Hfresh. lia. }
    destruct (slot_outcome_held _ _ _ _ _ _ _ (slot_resources d i ++ [] ++ [])
                Hout Hxp) as (_ & _ & Hrel).
    split.
    + intros h log Hh.
      destruct (slot_outcome_held _ _ _ _ _ _ _ (slot_resources d i ++ h) Hout Hxp)
        as (Hheld & _ & _).
      rewrite app_assoc. apply IHheld.
      rewrite held_app, Hh, Hheld, slot_resources_S, slot_at_lookup_total by done.
      rewrite <- app_assoc.
      rewrite (slot_resources_frame d (slot_at i x' d) i); [done|].
      intros k Hk. apply slot_at_lookup_total_ne. lia.
    + intros e [He|He]%elem_of_app; auto.
Qed.

(** What composing a pipeline does to the ledger. *)
Lemma composition_held p x m h :
  held (klog m) = Some h →
  let c := composition p (pipe_init_call p) x m in
  held (klog c.2) = Some (if decide (c.1 = 0) then pipe_resources p ++ h else h) ∧
  (c.1 = 0 →
   ldev c.2 = set_pipe p x (ldev m) ∧
   ∃ t, klog c.2 = klog m ++ t ∧ ∀ e, e ∈ t → released e = None).
Proof.
  intros Hh. unfold composition.
  destruct (decide (kret (lima_sched_pipe_init p) ≠ 0)) as [Hs|Hs].
  { cbn [fst snd klog]. rewrite decide_False by done. split; [|done].
    rewrite held_app, Hh. by ledger_auto. }
  assert (Hs0 : kret (lima_sched_pipe_init p) = 0) by lia.
  destruct (decide (kret (pipe_init_call p) ≠ 0)) as [He|He].
  { cbn [fst snd klog]. rewrite decide_False by done. split; [|done].
    rewrite held_app, Hh. ledger_auto.
    destruct p; cbn [pipe_init_call]; by ledger_auto. }
  assert (He0 : kret (pipe_init_call p) = 0) by lia.
  cbn [fst snd klog ldev]. rewrite decide_True by done. split.
  - rewrite held_app, Hh. ledger_auto.
    destruct p; cbn [pipe_init_call]; by ledger_auto.
  - intros _. split; [done|]. eexists. split; [done|].
    intros e He'. apply elem_of_cons in He' as [->|He']; [done|].
    apply list_elem_of_singleton in He' as ->. by destruct p.
Qed.

(** ** [lima_device_init] from the slot loop on *)

Lemma err_out4_after i err m :
  (i ≤ lima_ip_num)%nat →
  length (ip (ldev m)) = lima_ip_num →
  err_out4 i err m = Some (err, after_void_calls (unwind_calls i (ldev m)) m).
Proof. intros Hi Hlen. by rewrite err_out4_run. Qed.

Lemma lima_fini_gp_pipe_run m :
  lima_fini_gp_pipe m
  = Some (tt, after_void_calls (fini_pipe_calls lima_pipe_gp) m).
Proof.
  unfold lima_fini_gp_pipe, after_void_calls, fini_pipe_calls.
  rewrite bind_eq. unfold call_void, log_call.
  cbn [ldev mmio klog void_entries fmap list_fmap pipe_fini_call].
  by rewrite <- app_assoc.
Qed.

Lemma lima_fini_pp_pipe_run m :
  lima_fini_pp_pipe m
  = Some (tt, after_void_calls (fini_pipe_calls lima_pipe_pp) m).
Proof.
  unfold lima_fini_pp_pipe, after_void_calls, fini_pipe_calls.
  rewrite bind_eq. unfold call_void, log_call.
  cbn [ldev mmio klog void_entries fmap list_fmap pipe_fini_call].
  by rewrite <- app_assoc.
Qed.

Lemma after_void_calls_app cs cs' m :
  after_void_calls (cs ++ cs') m = after_void_calls cs' (after_void_calls cs m).
Proof.
  unfold after_void_calls. cbn [ldev mmio klog].
  by rewrite void_entries_app, app_assoc.
Qed.

Lemma composition_frame p c x m :
  ip (ldev (composition p c x m).2) = ip (ldev m) ∧
  ldev_id (ldev (composition p c x m).2) = ldev_id (ldev m) ∧
  owed (ldev (composition p c x m).2) = owed (ldev m) ∧
  release_calls (ldev (composition p c x m).2) = release_calls (ldev m) ∧
  (∀ q, q ≠ p →
     get_pipe q (ldev (composition p c x m).2) = get_pipe q (ldev m)).
Proof.
  destruct (composition_device p c x m) as [-> | ->]; [done|].
  split_and!; try done. intros q Hq. by destruct p, q.
Qed.

Lemma lima_device_init_blocks_run m :
  length (ip (ldev m)) = lima_ip_num →
  pipe_gp (ldev m) = lima_sched_pipe_zero →
  pipe_pp (ldev m) = lima_sched_pipe_zero →
  ∃ j err d1 regs1 t1,
    slots_run 0 (ldev m) j err d1 t1 ∧
    (j ≤ lima_ip_num)%nat ∧
    let m1 := {| ldev := d1; mmio := regs1; klog := klog m ++ t1 |} in
    init_ip_loop lima_ip_num 0 m = Some ((j, err), m1) ∧
    lima_device_init_blocks m = Some (blocks_after_slots j err m1).
Proof.
  intros Hlen Hgp Hpp.
  destruct (init_ip_loop_spec lima_ip_num 0 m eq_refl Hlen)
    as (j & err & d1 & regs1 & t1 & Hloop & Hslots).
  exists j, err, d1, regs1, t1. split; [done|].
  destruct (slots_run_bounds _ _ _ _ _ _ Hslots) as (_ & Hend & Hstop).
  destruct (slots_run_frame _ _ _ _ _ _ Hslots) as (Hframe & Hlen1 & _).
  assert (Hj : (j ≤ lima_ip_num)%nat).
  { destruct (decide (err = 0)) as [Herr|Herr]; [by rewrite Hend|].
    destruct (Hstop Herr) as [desc Hdesc%lookup_lt_Some].
    cbn [length lima_ip_desc] in Hdesc. unfold lima_ip_num. lia. }
  split; [done|]. intros m1. split; [done|].
  unfold lima_device_init_blocks, blocks_after_slots.
  rewrite bind_eq, Hloop. cbn beta iota. fold m1.
  assert (Hlen1' : length (ip (ldev m1)) = lima_ip_num) by (cbn [m1 ldev]; congruence).
  destruct (decide (err ≠ 0)) as [Herr|Herr].
  { by rewrite err_out4_after. }
  rewrite bind_eq, lima_init_gp_pipe_run by (cbn [m1 ldev]; by rewrite Hframe).
  set (c1 := composition lima_pipe_gp lima_gp_pipe_init gp_pipe_composed m1).
  destruct (composition_frame lima_pipe_gp lima_gp_pipe_init gp_pipe_composed m1)
    as (Hip1 & _ & _ & _ & Hother1). fold c1 in Hip1, Hother1.
  assert (Hlenc1 : length (ip (ldev c1.2)) = lima_ip_num) by congruence.
  assert (Hppc1 : pipe_pp (ldev c1.2) = lima_sched_pipe_zero).
  { change (get_pipe lima_pipe_pp (ldev c1.2) = lima_sched_pipe_zero).
    rewrite (Hother1 lima_pipe_pp) by done. cbn [get_pipe m1 ldev]. by rewrite Hframe. }
  destruct c1 as [r1 mc1] eqn:Hc1. cbn [fst snd] in *. cbn beta iota.
  destruct (decide (r1 ≠ 0)) as [Hr1|Hr1].
  { by rewrite err_out4_after. }
  rewrite bind_eq, lima_init_pp_pipe_run by done.
  set (c2 := composition lima_pipe_pp lima_pp_pipe_init (pp_pipe_composed (ldev mc1)) mc1).
  destruct (composition_frame lima_pipe_pp lima_pp_pipe_init
              (pp_pipe_composed (ldev mc1)) mc1) as (Hip2 & _). fold c2 in Hip2.
  assert (Hlenc2 : length (ip (ldev c2.2)) = lima_ip_num) by congruence.
  destruct c2 as [r2 mc2] eqn:Hc2. cbn [fst snd] in *. cbn beta iota.
  destruct (decide (r2 ≠ 0)) as [Hr2|Hr2]; [|by rewrite ret_eq].
  unfold err_out5. rewrite bind_eq, lima_fini_gp_pipe_run.
  rewrite err_out4_after by done.
  by rewrite after_void_calls_app.
Qed.

Lemma replicate_zero_absent (l : list lima_ip) k :
  l = replicate lima_ip_num lima_ip_zero → ip_present (l !!! k) = false.
Proof.
  intros ->. destruct (decide (k < lima_ip_num)%nat).
  - by rewrite lookup_total_replicate_2.
  - rewrite list_lookup_total_alt, lookup_ge_None_2; [done|].
    rewrite length_replicate. lia.
Qed.

Lemma unwind_held m i h :
  held (klog m) = Some (slot_resources (ldev m) i ++ owed (ldev m) ++ h) →
  held (klog (after_void_calls (unwind_calls i (ldev m)) m)) = Some h.
Proof.
  intros Hh. unfold after_void_calls, unwind_calls. cbn [klog].
  rewrite void_entries_app, app_assoc.
  apply held_release_calls. by apply held_fini_calls.
Qed.

Lemma slots_run_scalars i d j err d' t :
  slots_run i d j err d' t →
  owed d' = owed d ∧ release_calls d' = release_calls d ∧
  pipe_gp d' = pipe_gp d ∧ pipe_pp d' = pipe_pp d ∧
  va_start d' = va_start d ∧ va_end d' = va_end d ∧
  dlbu_cpu d' = dlbu_cpu d ∧ dlbu_dma d' = dlbu_dma d ∧
  ldev_iomem d' = ldev_iomem d ∧ ldev_id d' = ldev_id d.
Proof.
  intros Hrun. destruct (slots_run_frame _ _ _ _ _ _ Hrun) as (-> & _). done.
Qed.

(** The ledger at the end of [lima_device_init], seen from the state in
    which the slot loop is entered. *)
Lemma blocks_after_slots_ledger d0 log0 j err d1 regs1 t1 h :
  slots_run 0 d0 j err d1 t1 →
  ip d0 = replicate lima_ip_num lima_ip_zero →
  held log0 = Some (owed d0 ++ h) →
  let m1 := {| ldev := d1; mmio := regs1; klog := log0 ++ t1 |} in
  let out := blocks_after_slots j err m1 in
  held (klog out.2)
  = Some (if decide (out.1 = 0) then held_after_init (ldev out.2) ++ h else h).
Proof.
  intros Hslots Hip Hh m1 out.
  destruct (slots_run_held _ _ _ _ _ _ Hslots) as [Hheld _].
  { intros k _. by apply replicate_zero_absent. }
  specialize (Hheld (owed d0 ++ h) log0 Hh).
  destruct (slots_run_scalars _ _ _ _ _ _ Hslots) as (Howed & _).
  destruct (slots_run_bounds _ _ _ _ _ _ Hslots) as (_ & Hend & _).
  rewrite <- Howed in Hheld.
  change (held (klog m1)
          = Some (slot_resources (ldev m1) j ++ owed (ldev m1) ++ h)) in Hheld.
  clearbody m1. clear Hslots Hip Hh Howed.
  unfold out, blocks_after_slots.
  destruct (decide (err ≠ 0)) as [Herr|Herr].
  { cbn [fst snd]. rewrite decide_False by done. by apply unwind_held. }
  specialize (Hend ltac:(lia)). subst j.
  pose proof (composition_held lima_pipe_gp gp_pipe_composed m1 _ Hheld) as [Hh1 _].
  destruct (composition_frame lima_pipe_gp lima_gp_pipe_init gp_pipe_composed m1)
    as (Hip1 & _ & Howed1 & _).
  cbn [pipe_init_call] in Hh1.
  destruct (composition lima_pipe_gp lima_gp_pipe_init gp_pipe_composed m1)
    as [r1 mc1]. cbn [fst snd] in *.
  destruct (decide (r1 ≠ 0)) as [Hr1|Hr1].
  { cbn [fst snd]. rewrite decide_False by done. rewrite decide_False in Hh1 by done.
    apply unwind_held.
    by rewrite (slot_resources_same_ip (ldev m1) (ldev mc1)), Howed1. }
  rewrite decide_True in Hh1 by lia.
  pose proof (composition_held lima_pipe_pp (pp_pipe_composed (ldev mc1)) mc1 _ Hh1)
    as [Hh2 _].
  destruct (composition_frame lima_pipe_pp lima_pp_pipe_init
              (pp_pipe_composed (ldev mc1)) mc1) as (Hip2 & _ & Howed2 & _).
  cbn [pipe_init_call] in Hh2.
  destruct (composition lima_pipe_pp lima_pp_pipe_init (pp_pipe_composed (ldev mc1)) mc1)
    as [r2 mc2]. cbn [fst snd] in *.
  destruct (decide (r2 ≠ 0)) as [Hr2|Hr2].
  - cbn [fst snd]. rewrite decide_False by done. rewrite decide_False in Hh2 by done.
    rewrite after_void_calls_app.
    apply (unwind_held (after_void_calls (fini_pipe_calls lima_pipe_gp) mc2)).
    cbn [after_void_calls ldev klog].
    apply held_fini_pipe_calls.
    rewrite (slot_resources_same_ip (ldev m1) (ldev mc2)) by congruence.
    by rewrite Howed2, Howed1.
  - cbn [fst snd]. rewrite decide_True by done. rewrite decide_True in Hh2 by lia.
    rewrite Hh2. unfold held_after_init.
    rewrite (slot_resources_same_ip (ldev m1) (ldev mc2)) by congruence.
    by rewrite Howed2, Howed1, <- !app_assoc.
Qed.

Lemma composition_success p x m :
  let c := composition p (pipe_init_call p) x m in
  c.1 = 0 →
  ldev c.2 = set_pipe p x (ldev m) ∧
  mmio c.2 = mmio m ∧
  ∃ t, klog c.2 = klog m ++ t ∧ ∀ e, e ∈ t → released e = None.
Proof.
  unfold composition.
  destruct (decide (kret (lima_sched_pipe_init p) ≠ 0)) as [Hs|Hs]; [done|].
  destruct (decide (kret (pipe_init_call p) ≠ 0)) as [He|He]; [done|].
  cbn [fst snd klog ldev mmio]. intros _. split; [done|]. split; [done|].
  eexists. split; [done|].
  intros e He'. apply elem_of_cons in He' as [->|He']; [done|].
  apply list_elem_of_singleton in He' as ->. by destruct p.
Qed.

(** The state a successful run leaves behind. *)
Lemma blocks_after_slots_success d0 log0 j err d1 regs1 t1 :
  slots_run 0 d0 j err d1 t1 →
  ip d0 = replicate lima_ip_num lima_ip_zero →
  let m1 := {| ldev := d1; mmio := regs1; klog := log0 ++ t1 |} in
  let out := blocks_after_slots j err m1 in
  out.1 = 0 →
  slots_probed (ldev out.2) ∧
  ldev out.2 = set_pipe lima_pipe_pp (pp_pipe_composed d1)
                 (set_pipe lima_pipe_gp gp_pipe_composed d1) ∧
  mmio out.2 = regs1 ∧
  ∃ t, klog out.2 = log0 ++ t ∧ ∀ e, e ∈ t → released e = None.
Proof.
  intros Hslots Hip m1 out.
  destruct (slots_run_held _ _ _ _ _ _ Hslots) as [_ Hrel1].
  { intros k _. by apply replicate_zero_absent. }
  unfold out, blocks_after_slots.
  destruct (decide (err ≠ 0)) as [Herr|Herr]; [done|].
  assert (err = 0) as -> by lia.
  pose proof (slots_run_probed _ _ _ _ Hslots Hip) as Hprobed.
  pose proof (composition_success lima_pipe_gp gp_pipe_composed m1) as Hc1.
  cbn [pipe_init_call] in Hc1.
  destruct (composition lima_pipe_gp lima_gp_pipe_init gp_pipe_composed m1)
    as [r1 mc1]. cbn [fst snd] in *.
  destruct (decide (r1 ≠ 0)) as [Hr1|Hr1]; [done|].
  destruct (Hc1 ltac:(lia)) as (Hd1 & Hm1 & t2 & Hl1 & Hrel2).
  pose proof (composition_success lima_pipe_pp (pp_pipe_composed (ldev mc1)) mc1) as Hc2.
  cbn [pipe_init_call] in Hc2.
  destruct (composition lima_pipe_pp lima_pp_pipe_init (pp_pipe_composed (ldev mc1)) mc1)
    as [r2 mc2]. cbn [fst snd] in *.
  destruct (decide (r2 ≠ 0)) as [Hr2|Hr2]; [done|].
  destruct (Hc2 ltac:(lia)) as (Hd2 & Hm2 & t3 & Hl2 & Hrel3).
  cbn [fst snd]. intros _. rewrite Hd2, Hd1. cbn [m1 ldev mmio klog] in *.
  split; [done|]. split; [done|]. split; [congruence|].
  exists (t1 ++ t2 ++ t3). split.
  - by rewrite Hl2, Hl1, <- !app_assoc.
  - intros e [?|[?|?]%elem_of_app]%elem_of_app; auto.
Qed.

(** ** [lima_device_init] up to the register mapping, with the ledger *)

Lemma err_out0_run err m :
  err_out0 err m = Some (err, after_void_calls (clk_fini_calls (ldev m)) m).
Proof. unfold err_out0. by rewrite bind_eq, lima_clk_fini_run, ret_eq. Qed.

Lemma err_out1_run err m :
  err_out1 err m
  = Some (err, after_void_calls
                 ((if decide (regulator (ldev m) ≠ NULL)
                   then [regulator_disable (regulator (ldev m))] else [])
                  ++ clk_fini_calls (ldev m)) m).
Proof.
  unfold err_out1. rewrite bind_eq, lima_regulator_fini_run, err_out0_run.
  by rewrite after_void_calls_app.
Qed.

Lemma err_out2_as_err_out3 err m :
  dlbu_cpu (ldev m) = NULL → err_out2 err m = err_out3 err m.
Proof.
  intros Hcpu. unfold err_out3. rewrite bind_eq. cbn [get_dev].
  rewrite decide_False by (intros H; by apply H).
  by rewrite bind_eq, ret_eq.
Qed.

Lemma held_err_out1_calls d log h :
  held log = Some ((if decide (regulator d ≠ NULL)
                    then [res_regulator (regulator d)] else [])
                   ++ clk_resources d ++ h) →
  held (log ++ void_entries d
                 ((if decide (regulator d ≠ NULL)
                   then [regulator_disable (regulator d)] else [])
                  ++ clk_fini_calls d)) = Some h.
Proof.
  intros Hh. rewrite void_entries_app, app_assoc.
  apply held_clk_fini_calls. rewrite held_app, Hh.
  case_decide; cbn [void_entries fmap list_fmap app foldl]; [|done].
  by rewrite held_step_release.
Qed.

Lemma log_single_setup (l : list klog_entry) c r d :
  (∀ e, e ∈ l → setup_call (k_call e)) →
  setup_call c →
  ∀ e, e ∈ l ++ [{| k_call := c; k_ret := r; k_at := d |}] → setup_call (k_call e).
Proof.
  intros Hl Hc. apply setup_log_extend; [done|].
  intros e He. by apply list_elem_of_singleton in He as ->.
Qed.

Lemma log_extend_no_release (l t : list klog_entry) :
  (∀ e, e ∈ l → released e = None) →
  (∀ e, e ∈ t → released e = None) →
  ∀ e, e ∈ l ++ t → released e = None.
Proof. intros Hl Ht e [?|?]%elem_of_app; auto. Qed.

(** Calls that are not allocations. *)
Ltac calls_step :=
  lazymatch goal with
  | |- appends _ (_ ≫= _) => apply appends_bind; [|intros ?]
  | |- appends _ (mret _) => apply appends_ret
  | |- appends _ (call _) => apply appends_call
  | |- appends _ (call_void _) => apply appends_call_void
  | |- appends _ get_dev => apply appends_get_dev
  | |- appends _ (assign _ _) => apply appends_assign
  | |- appends _ (if ?b then _ else _) => destruct b
  end.

Lemma appends_clk_init_no_alloc : appends no_alloc lima_clk_init.
Proof. unfold lima_clk_init. cbv zeta. repeat calls_step; by split. Qed.

Lemma appends_regulator_init_no_alloc : appends no_alloc lima_regulator_init.
Proof. unfold lima_regulator_init. cbv zeta. repeat calls_step; by split. Qed.

Lemma log_extend_no_alloc (l t : list klog_entry) :
  (∀ e, e ∈ l → no_alloc (k_call e)) →
  (∀ e, e ∈ t → no_alloc (k_call e)) →
  ∀ e, e ∈ l ++ t → no_alloc (k_call e).
Proof. intros Hl Ht e [?|?]%elem_of_app; auto. Qed.

Lemma release_no_alloc d cs e :
  (∀ c, c ∈ cs → classify c = cls_release) →
  e ∈ void_entries d cs → no_alloc (k_call e).
Proof.
  intros Hcs [He _]%void_entries_elem. apply Hcs in He.
  split; intros Heq; by rewrite Heq in He.
Qed.

Lemma clk_fini_calls_class d c : c ∈ clk_fini_calls d → classify c = cls_release.
Proof.
  unfold clk_fini_calls. intros Hc.
  apply elem_of_app in Hc as [Hc|Hc].
  - case_decide; [|by apply not_elem_of_nil in Hc].
    by apply list_elem_of_singleton in Hc as ->.
  - apply elem_of_cons in Hc as [->|Hc]; [done|].
    by apply list_elem_of_singleton in Hc as ->.
Qed.

Lemma err_out1_calls_class d c :
  c ∈ (if decide (regulator d ≠ NULL) then [regulator_disable (regulator d)] else [])
      ++ clk_fini_calls d →
  classify c = cls_release.
Proof.
  intros [H|H]%elem_of_app; [|by eapply clk_fini_calls_class].
  case_decide; [|by apply not_elem_of_nil in H].
  by apply list_elem_of_singleton in H as ->.
Qed.

Lemma lima_device_init_setup_state id regs :
  let m0 := machine_zero id regs in
  (∃ r m', lima_device_init m0 = Some (r, m') ∧ r ≠ 0 ∧
           (regulator_not_null → held (klog m') = Some []) ∧
           (∀ e, e ∈ klog m' → setup_call (k_call e)) ∧
           (∀ c, c ∈ calls m' → c = lima_vm_create ∨ c = dma_alloc_wc →
                 kret c = NULL →
                 r = - ENOMEM ∧
                 ∃ t, calls m' = t ++ [c] ++ alloc_unwind_calls c (ldev m'))) ∨
  (∃ m1, lima_device_init m0 = lima_device_init_map m1 ∧
         setup_done id m1 ∧
         mmio m1 = regs ∧
         va_start (ldev m1) = 0 ∧
         va_end (ldev m1)
         = (if decide (id = lima_gpu_mali450)
            then LIMA_VA_RESERVE_START else LIMA_VA_RESERVE_END) ∧
         dlbu_cpu (ldev m1)
         = (if decide (id = lima_gpu_mali450) then kret dma_alloc_wc else NULL) ∧
         (id = lima_gpu_mali450 →
          kret dma_alloc_wc ≠ NULL ∧ dlbu_dma (ldev m1) = dma_handle) ∧
         kret lima_vm_create ≠ NULL ∧
         (id ≠ lima_gpu_mali450 → ∀ e, e ∈ klog m1 → k_call e ≠ dma_alloc_wc) ∧
         ∀ e, e ∈ klog m1 → released e = None).
Proof.
  intros m0. unfold lima_device_init.
  run_step.
  set (ma := log_call dma_set_coherent_mask 0 (ldev m0) m0).
  assert (Hla : ∀ e, e ∈ klog ma → setup_call (k_call e)).
  { intros e He. apply list_elem_of_singleton in He as ->. by split; [left|]. }
  assert (Hra : ∀ e, e ∈ klog ma → released e = None).
  { intros e He. by apply list_elem_of_singleton in He as ->. }
  assert (Hna : ∀ e, e ∈ klog ma → no_alloc (k_call e)).
  { intros e He. by apply list_elem_of_singleton in He as ->. }
  assert (Hha : held (klog ma) = Some []) by done.
  assert (Hnone : ∀ (l : list klog_entry) c,
            (∀ e, e ∈ l → no_alloc (k_call e)) →
            c ∈ k_call <$> l → c = lima_vm_create ∨ c = dma_alloc_wc → False).
  { intros l c Hl (e & -> & He)%list_elem_of_fmap Hc.
    destruct (Hl e He) as [H1 H2]. by destruct Hc. }
  destruct (lima_clk_init_ledger ma [] Hha)
    as (r1 & mb & Hclk & Hmb & _ & Hok1 & Hfail1).
  destruct (appends_clk_init _ _ _ Hclk) as (t1 & Hlog1 & Ht1).
  destruct (appends_clk_init_no_alloc _ _ _ Hclk) as (t1' & Hlog1' & Ht1').
  rewrite bind_eq, Hclk; cbn beta iota.
  assert (Hlb : ∀ e, e ∈ klog mb → setup_call (k_call e)).
  { rewrite Hlog1. by apply setup_log_extend. }
  assert (Hnb : ∀ e, e ∈ klog mb → no_alloc (k_call e)).
  { rewrite Hlog1'. by apply log_extend_no_alloc. }
  destruct (decide (r1 ≠ 0)) as [Hr1|Hr1].
  { left. eexists _, _. split; [by rewrite ret_eq|]. split; [done|].
    split; [intros _; by apply Hfail1|]. split; [done|].
    intros c Hc Hcc _. by destruct (Hnone _ _ Hnb Hc Hcc). }
  destruct (Hok1 ltac:(lia)) as (Hdb & Hhb & tb & Hlogb & Hrelb).
  rewrite app_nil_r in Hhb.
  assert (Hrb : ∀ e, e ∈ klog mb → released e = None).
  { rewrite Hlogb. by apply log_extend_no_release. }
  clear Hok1 Hfail1 Hclk Hlog1 Hlogb Hrelb Ht1 t1 tb Hlog1' Ht1' t1'.
  destruct (lima_regulator_init_ledger mb _ Hhb)
    as (r2 & mc & Hreg & Hmc & [v Hdv] & Hok2 & Hfail2).
  destruct (appends_regulator_init _ _ _ Hreg) as (t2 & Hlog2 & Ht2).
  destruct (appends_regulator_init_no_alloc _ _ _ Hreg) as (t2' & Hlog2' & Ht2').
  rewrite bind_eq, Hreg; cbn beta iota.
  assert (Hlc : ∀ e, e ∈ klog mc → setup_call (k_call e)).
  { rewrite Hlog2. by apply setup_log_extend. }
  assert (Hnc : ∀ e, e ∈ klog mc → no_alloc (k_call e)).
  { rewrite Hlog2'. by apply log_extend_no_alloc. }
  destruct (decide (r2 ≠ 0)) as [Hr2|Hr2].
  { left. rewrite err_out0_run. eexists _, _. split; [done|]. split; [done|].
    unfold after_void_calls. cbn [klog ldev]. split; [|split].
    - intros _. apply held_clk_fini_calls. rewrite (Hfail2 Hr2), Hdv.
      by rewrite app_nil_r.
    - destruct (appends_err_out0 r2 mc _ _ (err_out0_run r2 mc)) as (t & Hlog & Ht).
      unfold after_void_calls in Hlog. cbn [klog] in Hlog. rewrite Hlog.
      by apply setup_log_extend.
    - intros c Hc Hcc _. exfalso. revert Hc Hcc. unfold calls. cbn [klog].
      apply Hnone, log_extend_no_alloc; [done|].
      intros e He. eapply release_no_alloc; [|exact He].
      apply clk_fini_calls_class. }
  destruct (Hok2 ltac:(lia)) as (Hdc & Hhc & tc & Hlogc & Hrelc).
  assert (Hrc : ∀ e, e ∈ klog mc → released e = None).
  { rewrite Hlogc. by apply log_extend_no_release. }
  clear Hok2 Hfail2 Hreg Hlog2 Hlogc Hrelc Ht2 t2 tc Hhb Hlb Hrb Hnb v Hdv
    Hlog2' Ht2' t2'.
  destruct mc as [dc rc lc]. cbn [ldev mmio klog] in *. subst dc rc.
  rewrite Hdb, Hmb in *. clear Hdb Hmb.
  cbn [ma log_call m0 machine_zero ldev mmio klog] in *.
  clearbody ma. clear Hla Hra Hha Hna.
  repeat run_step.
  set (vm := kret lima_vm_create).
  set (rst := kret devm_reset_control_get_optional) in *.
  set (reg := kret devm_regulator_get_optional) in *.
  set (gpu := kret (devm_clk_get "core")) in *.
  set (bus := kret (devm_clk_get "bus")) in *.
  set (db := set_field f_reset rst _) in *.
  set (dc := set_field f_regulator _ db).
  set (ld := lc ++ [_]).
  assert (Hld : ∀ e, e ∈ ld → setup_call (k_call e)).
  { apply log_single_setup; [done|]. by split; [left|]. }
  assert (Hrd : ∀ e, e ∈ ld → released e = None).
  { apply log_extend_no_release; [done|].
    intros e He. by apply list_elem_of_singleton in He as ->. }
  assert (Hregc : regulator_not_null →
    held lc = Some ((if decide (regulator dc ≠ NULL)
                     then [res_regulator (regulator dc)] else [])
                    ++ clk_resources dc)).
  { intros Hnn. rewrite Hhc. cbn [dc set_field regulator]. f_equal. f_equal.
    destruct (IS_ERR reg) eqn:Hreg.
    - by rewrite (decide_False (P := NULL ≠ NULL)) by (intros H; by apply H).
    - by rewrite (decide_True (P := reg ≠ NULL)) by auto. }
  destruct (decide (vm = NULL)) as [Hvm|Hvm].
  { left. rewrite err_out1_run. eexists _, _. split; [done|]. split; [done|].
    unfold after_void_calls. cbn [klog ldev]. split; [|split].
    - intros Hnn.
      apply (held_err_out1_calls (set_field f_empty_vm vm dc)).
      unfold ld. rewrite held_app, (Hregc Hnn). ledger. fold vm.
      rewrite decide_False by (intros H; by apply H).
      by rewrite app_nil_r.
    - apply setup_log_extend; [done|].
      intros e [He _]%void_entries_elem.
      apply err_out1_calls_class in He. by split; [right|destruct (k_call e)].
    - intros c Hc Hcc _. split; [done|].
      unfold calls in *. cbn [klog] in *.
      rewrite fmap_app, void_entries_calls in *.
      unfold ld in *. rewrite fmap_app in *. cbn [fmap list_fmap k_call] in *.
      assert (c = lima_vm_create) as ->.
      { destruct Hcc as [->| ->]; [done|]. exfalso.
        apply elem_of_app in Hc as [[Hc|Hc]%elem_of_app|Hc].
        - eapply Hnone; [exact Hnc|exact Hc|by right].
        - by apply list_elem_of_singleton in Hc.
        - by apply err_out1_calls_class in Hc. }
      exists (k_call <$> lc). unfold alloc_unwind_calls.
      rewrite (decide_False (P := lima_vm_create = dma_alloc_wc)) by done.
      by rewrite <- !app_assoc. }
  assert (Hhd : regulator_not_null →
    held ld = Some ([res_vm vm]
                    ++ (if decide (regulator dc ≠ NULL)
                        then [res_regulator (regulator dc)] else [])
                    ++ clk_resources dc)).
  { intros Hnn. unfold ld. rewrite held_app, (Hregc Hnn). ledger. fold vm.
    by rewrite decide_True. }
  repeat run_step. cbn [dc db set_field ldev_id lima_device_zero].
  destruct (decide (id = lima_gpu_mali450)) as [Hid|Hid].
  - repeat run_step. set (cpu := kret dma_alloc_wc).
    set (le := ld ++ [_]).
    assert (Hle : ∀ e, e ∈ le → setup_call (k_call e)).
    { apply log_single_setup; [done|]. by split; [left|]. }
    assert (Hre : ∀ e, e ∈ le → released e = None).
    { apply log_extend_no_release; [done|].
      intros e He. by apply list_elem_of_singleton in He as ->. }
    destruct (decide (cpu = NULL)) as [Hcpu|Hcpu].
    + left. rewrite ?ret_eq; cbn beta iota.
      rewrite err_out2_as_err_out3 by done. rewrite err_out3_run.
      eexists _, _. split; [done|]. split; [done|]. cbn [klog ldev].
      split; [|split].
      * intros Hnn. apply held_release_calls. rewrite app_nil_r.
        unfold le. rewrite held_app, (Hhd Hnn). ledger. fold cpu.
        rewrite (decide_False (P := cpu ≠ NULL)) by (intros H; by apply H).
        unfold owed. cbn [set_field dlbu_cpu empty_vm regulator reset clk_gpu clk_bus].
        rewrite (decide_False (P := cpu ≠ NULL)) by (intros H; by apply H).
        done.
      * apply setup_log_extend; [done|].
        intros e [He _]%void_entries_elem.
        apply release_calls_class in He. by split; [right|destruct (k_call e)].
      * intros c Hc Hcc Hnull. split; [done|].
        assert (c = dma_alloc_wc) as ->.
        { destruct Hcc as [->| ->]; [|done]. by destruct Hvm. }
        unfold calls. cbn [klog].
        rewrite fmap_app, void_entries_calls.
        unfold le, ld. rewrite !fmap_app. cbn [fmap list_fmap k_call].
        exists ((k_call <$> lc) ++ [lima_vm_create]).
        unfold alloc_unwind_calls, release_calls, clk_fini_calls.
        cbn [set_field dlbu_cpu dlbu_dma empty_vm regulator reset clk_gpu clk_bus].
        rewrite (decide_False (P := cpu ≠ NULL)) by (intros H; by apply H).
        rewrite (decide_True (P := dma_alloc_wc = dma_alloc_wc)) by done.
        by rewrite <- !app_assoc.
    + right. repeat run_step. rewrite ?ret_eq; cbn beta iota.
      eexists. split; [done|]. cbn [ldev mmio klog set_field va_start va_end dlbu_cpu dlbu_dma].
      split; [|by split_and!].
      unfold setup_done. cbn [ldev klog].
      split; [done|]. split; [done|]. split; [done|]. split; [done|].
      split; [|done]. intros Hnn.
      unfold le. rewrite held_app, (Hhd Hnn). ledger. fold cpu.
      rewrite decide_True by done.
      unfold owed. cbn [set_field dlbu_cpu empty_vm regulator reset clk_gpu clk_bus].
      by rewrite (decide_True (P := cpu ≠ NULL)) by done.
  - right. repeat run_step. rewrite ?ret_eq; cbn beta iota.
    eexists. split; [done|]. cbn [ldev mmio klog set_field va_start va_end dlbu_cpu dlbu_dma].
    split; [|split_and!; try done;
             intros _ e [He|He%list_elem_of_singleton]%elem_of_app;
             [by destruct (Hnc e He)|by subst e]].
    unfold setup_done. cbn [ldev klog].
    split; [done|]. split; [done|]. split; [done|]. split; [done|].
    split; [|done]. intros Hnn.
    rewrite (Hhd Hnn).
    unfold owed. cbn [set_field dlbu_cpu empty_vm regulator reset clk_gpu clk_bus].
    cbn [dc db set_field dlbu_cpu lima_device_zero].
    by rewrite (decide_False (P := NULL ≠ NULL)) by (intros H; by apply H).
Qed.

(** ** Bring-up and teardown as a whole *)

Lemma mapped_state m res iomem id :
  setup_done id m →
  let m2 := mapped m res iomem in
  ip (ldev m2) = replicate lima_ip_num lima_ip_zero ∧
  length (ip (ldev m2)) = lima_ip_num ∧
  pipe_gp (ldev m2) = lima_sched_pipe_zero ∧
  pipe_pp (ldev m2) = lima_sched_pipe_zero ∧
  ldev_id (ldev m2) = id ∧
  owed (ldev m2) = owed (ldev m) ∧
  (regulator_not_null → held (klog m2) = Some (owed (ldev m2) ++ [])) ∧
  ((∀ e, e ∈ klog m → released e = None) →
   ∀ e, e ∈ klog m2 → released e = None).
Proof.
  intros (Hid & Hip & Hgp & Hpp & Hheld & _) m2.
  cbn [m2 mapped ldev klog set_field ip pipe_gp pipe_pp ldev_id].
  split; [done|]. split; [by rewrite Hip, length_replicate|].
  split; [done|]. split; [done|]. split; [done|]. split; [done|]. split.
  - intros Hnn. rewrite held_app, (Hheld Hnn), app_nil_r. done.
  - intros Hrel. apply log_extend_no_release; [done|].
    intros e He. apply elem_of_cons in He as [->|He]; [done|].
    by apply list_elem_of_singleton in He as ->.
Qed.

(** Every way [lima_device_init] can end. *)
Lemma lima_device_init_ends id regs :
  ∃ r m',
    lima_device_init (machine_zero id regs) = Some (r, m') ∧
    (regulator_not_null →
     held (klog m')
     = Some (if decide (r = 0) then held_after_init (ldev m') else [])) ∧
    (r = 0 →
     ∃ m1 d1 j t1,
       setup_done id m1 ∧
       mmio m1 = regs ∧
       va_start (ldev m1) = 0 ∧
       va_end (ldev m1)
       = (if decide (id = lima_gpu_mali450)
          then LIMA_VA_RESERVE_START else LIMA_VA_RESERVE_END) ∧
       dlbu_cpu (ldev m1)
       = (if decide (id = lima_gpu_mali450) then kret dma_alloc_wc else NULL) ∧
       (id = lima_gpu_mali450 →
        kret dma_alloc_wc ≠ NULL ∧ dlbu_dma (ldev m1) = dma_handle) ∧
       IS_ERR (kret (devm_ioremap_resource (kret platform_get_resource))) = false ∧
       slots_run 0 (set_field f_iomem
                      (kret (devm_ioremap_resource (kret platform_get_resource)))
                      (ldev m1))
                 j 0 d1 t1 ∧
       slots_probed (ldev m') ∧
       ldev m' = set_pipe lima_pipe_pp (pp_pipe_composed d1)
                   (set_pipe lima_pipe_gp gp_pipe_composed d1) ∧
       ∀ e, e ∈ klog m' → released e = None).
Proof.
  destruct (lima_device_init_setup_state id regs)
    as [(r & m' & Hrun & Hr & Hheld & _)
       | (m1 & Hrun & Hdone & Hregs & Hvs & Hve & Hcpu & Hdma & _ & _ & Hrel)].
  { exists r, m'. split; [done|]. split; [|done].
    intros Hnn. rewrite decide_False by done. by apply Hheld. }
  rewrite Hrun, lima_device_init_map_run.
  set (res := kret platform_get_resource).
  set (iomem := kret (devm_ioremap_resource res)).
  destruct (mapped_state m1 res iomem id Hdone)
    as (Hip & Hlen & Hgp & Hpp & Hid & Howed & Hheld & Hrel2).
  specialize (Hrel2 Hrel).
  destruct (IS_ERR iomem) eqn:Hio.
  { eexists _, _. split; [done|]. cbn [klog ldev]. split.
    - intros Hnn. rewrite decide_False by (by apply IS_ERR_nonzero).
      apply held_release_calls. by apply Hheld.
    - intros Hr. by apply IS_ERR_nonzero in Hio. }
  destruct (lima_device_init_blocks_run _ Hlen Hgp Hpp)
    as (j & err & d1 & regs1 & t1 & Hslots & Hj & _ & Hblocks).
  rewrite Hblocks.
  set (m2 := {| ldev := d1; mmio := regs1; klog := klog (mapped m1 res iomem) ++ t1 |}).
  destruct (blocks_after_slots j err m2) as [r m'] eqn:Hout.
  exists r, m'. split; [done|]. split.
  - intros Hnn.
    pose proof (blocks_after_slots_ledger _ _ _ _ _ regs1 _ [] Hslots Hip (Hheld Hnn))
      as Hledger.
    cbn zeta in Hledger. fold m2 in Hledger. rewrite Hout in Hledger.
    cbn [fst snd] in Hledger. rewrite Hledger.
    case_decide; [by rewrite app_nil_r|done].
  - intros Hr.
    pose proof (blocks_after_slots_success _ (klog (mapped m1 res iomem)) _ _ _ regs1 _
                  Hslots Hip) as Hsucc.
    cbn zeta in Hsucc. fold m2 in Hsucc. rewrite Hout in Hsucc. cbn [fst snd] in Hsucc.
    destruct (Hsucc Hr) as (Hprobed & Hd & _ & t & Hlog & Hrelt).
    assert (err = 0) as ->.
    { unfold blocks_after_slots in Hout. case_decide; [|lia].
      injection Hout as <- _. done. }
    exists m1, d1, j, t1. split_and!; try done.
    rewrite Hlog. by apply log_extend_no_release.
Qed.

(** X14.  The rollback invariant.  [lima_device_init] on a zeroed device
    always returns, and when it returns an error nothing is left held:
    every clock, reset line, regulator, memory object, slot and pipe that
    the run had acquired has been given back, in whichever of its stages
    the failure arose. *)
Theorem device_init_failure_holds_nothing id regs :
  regulator_not_null →
  ∃ r m',
    lima_device_init (machine_zero id regs) = Some (r, m') ∧
    (r ≠ 0 → held (klog m') = Some []).
Proof.
  intros Hnn.
  destruct (lima_device_init_ends id regs) as (r & m' & Hrun & Hheld & _).
  exists r, m'. split; [done|]. intros Hr.
  rewrite (Hheld Hnn). by rewrite decide_False.
Qed.

(** X15.  What a successful [lima_device_init] leaves behind: every slot
    that is mandatory for the variant is present and every slot the
    variant does not have is absent; both pipelines are composed from
    the presence flags; the address range starts at 0 and ends at the
    reserve start on a Mali-450 and at the reserve end on a Mali-400; the
    load-balancer page exists exactly on a Mali-450; and no call of the
    run gave anything back. *)
Theorem device_init_success_state id regs m' :
  lima_device_init (machine_zero id regs) = Some (0, m') →
  let d := ldev m' in
  ldev_id d = id ∧
  slots_probed d ∧
  pipe_gp d = gp_pipe_composed ∧
  pipe_pp d = pp_pipe_composed d ∧
  va_start d = 0 ∧
  va_end d = (if decide (id = lima_gpu_mali450)
              then LIMA_VA_RESERVE_START else LIMA_VA_RESERVE_END) ∧
  dlbu_cpu d = (if decide (id = lima_gpu_mali450) then kret dma_alloc_wc else NULL) ∧
  (dlbu_cpu d ≠ NULL ↔ id = lima_gpu_mali450) ∧
  ldev_iomem d = kret (devm_ioremap_resource (kret platform_get_resource)) ∧
  ∀ e, e ∈ klog m' → released e = None.
Proof.
  intros Hrun d.
  destruct (lima_device_init_ends id regs) as (r & m1' & Hrun' & _ & Hok).
  rewrite Hrun in Hrun'. injection Hrun' as <- <-.
  destruct (Hok eq_refl)
    as (m1 & d1 & j & t1 & Hdone & _ & Hvs & Hve & Hcpu & Hdma & _ & Hslots
        & Hprobed & Hd & Hrel).
  destruct (slots_run_scalars _ _ _ _ _ _ Hslots)
    as (_ & _ & _ & _ & Hvs1 & Hve1 & Hcpu1 & _ & Hio1 & Hid1).
  destruct Hdone as (Hid & _).
  unfold d. rewrite Hd.
  cbn [set_pipe ldev_id pipe_gp pipe_pp va_start va_end dlbu_cpu ldev_iomem].
  rewrite Hid1, Hvs1, Hve1, Hcpu1, Hio1.
  cbn [set_field ldev_id va_start va_end dlbu_cpu ldev_iomem].
  rewrite <- Hd. split_and!; try done.
  - by rewrite Hd.
  - rewrite Hcpu. split.
    + case_decide as Hm; [done|]. intros H. by destruct H.
    + intros Hm. rewrite decide_True by done. by destruct (Hdma Hm).
Qed.

Lemma device_fini_release_run m :
  (d ← get_dev;
   (if decide (dlbu_cpu d ≠ NULL)
    then call_void (dma_free_wc (dlbu_cpu d) (dlbu_dma d))
    else mret tt);;
   call_void (lima_vm_put (empty_vm d));;
   lima_regulator_fini;;
   lima_clk_fini) m
  = Some (tt, after_void_calls (release_calls (ldev m)) m).
Proof.
  unfold lima_regulator_fini, lima_clk_fini, release_calls, after_void_calls.
  repeat (first [rewrite bind_eq | progress run_simpl | case_decide]);
    unfold call_void, log_call;
    cbn [ldev mmio klog void_entries fmap list_fmap app];
    by rewrite <- ?app_assoc.
Qed.

Lemma lima_device_fini_run m :
  length (ip (ldev m)) = lima_ip_num →
  lima_device_fini m
  = Some (tt, after_void_calls (device_fini_calls (ldev m)) m).
Proof.
  intros Hlen. unfold lima_device_fini, device_fini_calls.
  rewrite bind_eq, lima_fini_pp_pipe_run.
  rewrite bind_eq, lima_fini_gp_pipe_run.
  rewrite bind_eq, fini_ip_down_run by done.
  rewrite !after_void_calls_app.
  apply (device_fini_release_run
           (after_void_calls (fini_calls (ldev m) lima_ip_num)
              (after_void_calls (fini_pipe_calls lima_pipe_gp)
                 (after_void_calls (fini_pipe_calls lima_pipe_pp) m)))).
Qed.

Lemma held_device_fini_calls d log h :
  held log = Some (held_after_init d ++ h) →
  held (log ++ void_entries d (device_fini_calls d)) = Some h.
Proof.
  intros Hh. unfold device_fini_calls.
  rewrite !void_entries_app, !app_assoc.
  apply held_release_calls, held_fini_calls.
  apply held_fini_pipe_calls, held_fini_pipe_calls.
  rewrite Hh. unfold held_after_init. by rewrite <- !app_assoc.
Qed.

(** X16.  Teardown mirrors bring-up.  After a successful
    [lima_device_init], [lima_device_fini] finalizes the fragment
    pipeline, then the geometry pipeline, then the present slots from the
    last to the first, then frees the load-balancer page, the
    virtual-memory-space object, the regulator, the reset line and the
    clocks; it leaves the device structure as it is, and nothing that
    bring-up acquired remains held. *)
Theorem device_init_fini_round_trip id regs m' :
  regulator_not_null →
  lima_device_init (machine_zero id regs) = Some (0, m') →
  ∃ m'',
    lima_device_fini m' = Some (tt, m'') ∧
    calls m'' = calls m' ++ device_fini_calls (ldev m') ∧
    ldev m'' = ldev m' ∧
    held (klog m') = Some (held_after_init (ldev m')) ∧
    held (klog m'') = Some [].
Proof.
  intros Hnn Hrun.
  destruct (lima_device_init_ends id regs) as (r & m1' & Hrun' & Hheld & Hok).
  rewrite Hrun in Hrun'. injection Hrun' as <- <-.
  specialize (Hheld Hnn). rewrite decide_True in Hheld by done.
  destruct (Hok eq_refl)
    as (_ & _ & _ & _ & _ & _ & _ & _ & _ & _ & _ & _ & [Hlen _] & _).
  rewrite lima_device_fini_run by done.
  eexists. split; [done|]. unfold after_void_calls. cbn [ldev klog].
  split; [|split; [done|split; [done|]]].
  - unfold calls. cbn [klog]. by rewrite fmap_app, void_entries_calls.
  - apply held_device_fini_calls. by rewrite app_nil_r.
Qed.

(** ** Broadcast after bring-up *)







(** ** A pipeline that cannot be composed *)

Lemma lima_device_init_reaches_pipes id regs r m' :
  lima_device_init (machine_zero id regs) = Some (r, m') →
  (∃ c, c ∈ calls m' ∧ classify c = cls_pipe) →
  ∃ m2 j err,
    (∀ c, c ∈ calls m2 → classify c ≠ cls_pipe) ∧
    (err = 0 → j = lima_ip_num) ∧
    blocks_after_slots j err m2 = (r, m').
Proof.
  intros Hrun (c & Hc & Hpipe).
  destruct (lima_device_init_setup_state id regs)
    as [(r0 & m0 & Hrun0 & _ & _ & Hlog0 & _) | (m1 & Hrun1 & Hdone & _)].
  { rewrite Hrun0 in Hrun. injection Hrun as <- <-.
    apply list_elem_of_fmap in Hc as (e & -> & He).
    destruct (Hlog0 e He) as [[H|H] _]; by rewrite Hpipe in H. }
  rewrite Hrun1, lima_device_init_map_run in Hrun.
  set (res := kret platform_get_resource) in *.
  set (iomem := kret (devm_ioremap_resource res)) in *.
  destruct (mapped_state m1 res iomem id Hdone) as (_ & Hlen & Hgp & Hpp & _).
  destruct Hdone as (_ & _ & _ & _ & _ & Hlog1).
  pose proof (λ e, mapped_calls m1 res iomem e Hlog1) as Hmapped.
  destruct (IS_ERR iomem).
  { injection Hrun as <- <-. exfalso.
    unfold calls in Hc. cbn [klog] in Hc.
    apply list_elem_of_fmap in Hc as (e & -> & [He|He]%elem_of_app).
    - destruct (Hmapped e He) as [[H|H] _]; by rewrite Hpipe in H.
    - apply void_entries_elem in He as [He%release_calls_class _].
      by rewrite Hpipe in He. }
  destruct (lima_device_init_blocks_run _ Hlen Hgp Hpp)
    as (j & err & d1 & regs1 & t1 & Hslots & Hj & _ & Hblocks).
  rewrite Hblocks in Hrun. injection Hrun as Hout.
  eexists _, j, err. split; [|split; [|exact Hout]].
  - intros c' (e & -> & [He|He]%elem_of_app)%list_elem_of_fmap.
    + destruct (Hmapped e He) as [[H|H] _]; by rewrite H.
    + destruct (slots_run_calls _ _ _ _ _ _ _ Hslots He) as [H|(k & ? & H & _)];
        by rewrite H.
  - by destruct (slots_run_bounds _ _ _ _ _ _ Hslots) as (_ & ? & _).
Qed.

Lemma composition_calls p x m :
  let s := kret (lima_sched_pipe_init p) in
  let e := kret (pipe_init_call p) in
  let c := composition p (pipe_init_call p) x m in
  c.1 = (if decide (s ≠ 0) then s else e) ∧
  calls c.2
  = calls m ++ [lima_sched_pipe_init p]
    ++ (if decide (s ≠ 0) then []
        else if decide (e ≠ 0) then [pipe_init_call p; lima_sched_pipe_fini p]
        else [pipe_init_call p]).
Proof.
  intros s e. unfold composition. fold s e.
  destruct (decide (s ≠ 0)); [|destruct (decide (e ≠ 0))];
    cbn [fst snd]; unfold calls; cbn [klog]; rewrite fmap_app; (split; [done||lia|done]).
Qed.

Lemma after_void_calls_calls cs m :
  calls (after_void_calls cs m) = calls m ++ cs.
Proof.
  unfold calls, after_void_calls. cbn [klog]. by rewrite fmap_app, void_entries_calls.
Qed.

(** X18.  When composing a pipeline fails, [lima_device_init] returns
    the error of the step that failed (creating the scheduler pipe, or
    the pipe-specific init) and unwinds in order: the scheduler pipe just
    created if it was the pipe-specific init that failed, then the
    geometry pipeline if it is the fragment pipeline that failed, then
    every present slot from the last position down, then the release
    calls. *)
Theorem device_init_pipe_failure_unwinds id regs r m' p :
  lima_device_init (machine_zero id regs) = Some (r, m') →
  lima_sched_pipe_init p ∈ calls m' →
  let s := kret (lima_sched_pipe_init p) in
  let e := kret (pipe_init_call p) in
  s ≠ 0 ∨ e ≠ 0 →
  r = (if decide (s ≠ 0) then s else e) ∧
  ∃ t,
    calls m'
    = t ++ [lima_sched_pipe_init p]
        ++ (if decide (s ≠ 0) then [] else [pipe_init_call p; lima_sched_pipe_fini p])
        ++ composed_before p
        ++ fini_calls (ldev m') lima_ip_num ++ release_calls (ldev m').
Proof.
  intros Hrun Hin s e Hfail.
  destruct (lima_device_init_reaches_pipes id regs r m' Hrun)
    as (m2 & j & err & Hno & Hj & Hout).
  { by exists (lima_sched_pipe_init p). }
  assert (Hnofini : ∀ d i c, c ∈ unwind_calls i d → classify c ≠ cls_pipe).
  { intros d i c [H%fini_calls_class|H%release_calls_class]%elem_of_app; by rewrite H. }
  unfold blocks_after_slots in Hout.
  destruct (decide (err ≠ 0)) as [Herr|Herr].
  { exfalso. injection Hout as <- <-.
    rewrite after_void_calls_calls in Hin.
    apply elem_of_app in Hin as [Hin|Hin].
    - by apply Hno in Hin.
    - by apply Hnofini in Hin. }
  rewrite (Hj ltac:(lia)) in Hout. clear Hj.
  destruct (composition_calls lima_pipe_gp gp_pipe_composed m2) as [Hr1 Hc1].
  cbn [pipe_init_call] in Hr1, Hc1.
  destruct (composition lima_pipe_gp lima_gp_pipe_init gp_pipe_composed m2)
    as [r1 mc1]. cbn [fst snd] in *.
  destruct (decide (r1 ≠ 0)) as [Hr1n|Hr1n].
  { injection Hout as <- <-.
    rewrite after_void_calls_calls, Hc1 in Hin. rewrite after_void_calls_calls, Hc1.
    destruct p.
    - cbn [composed_before app pipe_init_call] in *. subst s e. split; [done|].
      exists (calls m2). unfold unwind_calls. cbn [after_void_calls ldev].
      rewrite <- !app_assoc. do 2 f_equal.
      repeat case_decide; (done || lia).
    - exfalso. rewrite <- !app_assoc in Hin.
      apply elem_of_app in Hin as [Hin|Hin]; [by apply Hno in Hin|].
      apply elem_of_cons in Hin as [Hin|Hin]; [done|].
      apply elem_of_app in Hin as [Hin|Hin]; [|by apply Hnofini in Hin].
      repeat case_decide;
        repeat (apply elem_of_cons in Hin as [Hin|Hin]; [done|]);
        by apply not_elem_of_nil in Hin. }
  destruct (composition_calls lima_pipe_pp (pp_pipe_composed (ldev mc1)) mc1)
    as [Hr2 Hc2].
  cbn [pipe_init_call] in Hr2, Hc2.
  destruct (composition lima_pipe_pp lima_pp_pipe_init (pp_pipe_composed (ldev mc1)) mc1)
    as [r2 mc2]. cbn [fst snd] in *.
  destruct p.
  - exfalso. subst s e. cbn [pipe_init_call] in Hfail.
    clear Hout Hc1 Hc2 Hr2. subst r1. case_decide; lia.
  - subst s e. cbn [pipe_init_call composed_before] in *.
    destruct (decide (r2 ≠ 0)) as [Hr2n|Hr2n].
    + injection Hout as <- <-. split; [done|].
      rewrite after_void_calls_calls, Hc2. cbn [after_void_calls ldev].
      exists (calls mc1). unfold unwind_calls.
      rewrite <- !app_assoc. do 2 f_equal.
      repeat case_decide; (done || lia).
    + exfalso. clear Hout Hc1 Hc2 Hr1. subst r2. case_decide; lia.
Qed.

(** X19.  An allocation that fails ends bring-up with [-ENOMEM].  When
    the virtual-memory-space object cannot be created the regulator and
    the clocks are released; when it is the load-balancer page that
    cannot be allocated, the virtual-memory-space object is put first.
    Nothing else follows the failed allocation: no mapping, no slot. *)
Theorem device_init_alloc_failure_returns_enomem id regs r m' c :
  lima_device_init (machine_zero id regs) = Some (r, m') →
  c ∈ calls m' →
  c = lima_vm_create ∨ c = dma_alloc_wc →
  kret c = NULL →
  r = - ENOMEM ∧
  ∃ t, calls m' = t ++ [c] ++ alloc_unwind_calls c (ldev m').
Proof.
  intros Hrun Hc Hcc Hnull.
  destruct (lima_device_init_setup_state id regs)
    as [(r0 & m0 & Hrun0 & _ & _ & _ & Halloc)
       | (m1 & Hrun1 & Hdone & _ & _ & _ & _ & Hdma & Hvm & Hnodma & _)].
  { rewrite Hrun0 in Hrun. injection Hrun as <- <-. by apply Halloc. }
  exfalso.
  destruct Hcc as [-> | ->]; [done|].
  destruct (decide (id = lima_gpu_mali450)) as [Hid|Hid]; [by destruct (Hdma Hid)|].
  specialize (Hnodma Hid).
  rewrite Hrun1, lima_device_init_map_run in Hrun.
  set (res := kret platform_get_resource) in *.
  set (iomem := kret (devm_ioremap_resource res)) in *.
  assert (Hmapped : ∀ e, e ∈ klog (mapped m1 res iomem) → k_call e ≠ dma_alloc_wc).
  { cbn [mapped klog]. intros e [He|He]%elem_of_app; [by apply Hnodma|].
    apply elem_of_cons in He as [->|He]; [done|].
    by apply list_elem_of_singleton in He as ->. }
  unfold calls in Hc. apply list_elem_of_fmap in Hc as (e & Hcall & He).
  destruct (IS_ERR iomem).
  - injection Hrun as <- <-. cbn [klog] in He.
    apply elem_of_app in He as [He|He]; [by apply Hmapped in He|].
    apply void_entries_elem in He as [He%release_calls_class _].
    by rewrite <- Hcall in He.
  - destruct (appends_device_init_blocks _ _ _ Hrun) as (t & Hlog & Ht).
    rewrite Hlog in He. apply elem_of_app in He as [He|He]; [by apply Hmapped in He|].
    specialize (Ht e He). unfold block_call in Ht. by rewrite <- Hcall in Ht.
Qed.

End MoreProofs.

(** * Concrete runs of the further properties *)

(** ** The broadcast unit

    The Mali-450 of the section on enabling broadcast, with [pp2]
    missing: the fragment pipeline holds seven processors, and cell 7 of
    its processor list is null. *)
Lemma lima_bcast_enable_replaces_selection_witness :
  let C := consts_example in
  let m := machine_after_init env_pp2_fails lima_gpu_mali450 in
  let x := ip (ldev m) !!! lima_ip_bcast in
  let ks1 := [0; 1; 3]%nat in
  let ks2 := [0]%nat in
  (ip (ldev m) !! lima_ip_bcast = Some x ∧
   registered_positions (ldev m) ks1 ∧
   registered_positions (ldev m) ks2 ∧
   (∀ k, k ∈ ks1 → (k < 16)%nat) ∧
   (∀ k, k ∈ ks2 → (k < 16)%nat)) ∧
  (lima_bcast_enable (Z.of_nat (length ks1));;
   lima_bcast_enable (Z.of_nat (length ks2))) m
  = lima_bcast_enable (Z.of_nat (length ks2)) m.
Proof.
  intros C m x ks1 ks2.
  assert (H1 : ip (ldev m) !! lima_ip_bcast = Some x) by (vm_compute; reflexivity).
  assert (H2 : registered_positions (ldev m) ks1).
  { intros i k Hi. destruct i as [|[|[|i]]]; [| | |discriminate Hi];
      injection Hi as <-.
    - exists 5%nat, (ip (ldev m) !!! 5%nat). vm_compute. auto.
    - exists 6%nat, (ip (ldev m) !!! 6%nat). vm_compute. auto.
    - exists 8%nat, (ip (ldev m) !!! 8%nat). vm_compute. auto. }
  assert (H3 : registered_positions (ldev m) ks2).
  { intros i k Hi. destruct i as [|i]; [|discriminate Hi]. injection Hi as <-.
    exists 5%nat, (ip (ldev m) !!! 5%nat). vm_compute. auto. }
  assert (H4 : ∀ k, k ∈ ks1 → (k < 16)%nat).
  { intros k Hk. apply list_elem_of_In in Hk. simpl in Hk.
    destruct Hk as [<-|[<-|[<-|[]]]]; lia. }
  assert (H5 : ∀ k, k ∈ ks2 → (k < 16)%nat).
  { intros k Hk. apply list_elem_of_In in Hk. simpl in Hk.
    destruct Hk as [<-|[]]; lia. }
  split; [exact (conj H1 (conj H2 (conj H3 (conj H4 H5))))|].
  exact (lima_bcast_enable_replaces_selection (C := consts_example) m x ks1 ks2
           H1 H2 H3 H4 H5).
Defined.

(** After the two calls only [pp0] is selected. *)
Example selection_after_two_calls :
  let C := consts_example in
  let m := machine_after_init env_pp2_fails lima_gpu_mali450 in
  mmio (run_on (lima_bcast_enable 3;; lima_bcast_enable 1) m)
  !! ip_iomem (ip (ldev m) !!! lima_ip_bcast)
  = Some 0xfb0001.
Proof. vm_compute. reflexivity. Qed.


Lemma lima_bcast_enable_undefined_past_registered_witness :
  let C := consts_example in
  let m := machine_after_init env_pp2_fails lima_gpu_mali450 in
  ((7 < Z.to_nat 8)%nat ∧ processor (pipe_pp (ldev m)) !! 7%nat = Some None) ∧
  lima_bcast_enable 8 m = None.
Proof.
  intros C m.
  assert (H1 : (7 < Z.to_nat 8)%nat) by (vm_compute; lia).
  assert (H2 : processor (pipe_pp (ldev m)) !! 7%nat = Some None)
    by (vm_compute; reflexivity).
  split; [exact (conj H1 H2)|].
  exact (lima_bcast_enable_undefined_past_registered (C := consts_example)
           m 8 7%nat H1 H2).
Defined.

(** ** Clocks and regulator

    Enabling the core clock fails with [-EIO] after the bus clock has
    been enabled. *)
Lemma lima_clk_init_all_or_nothing_witness :
  let K := env_clk_gpu_fails in
  let m := machine_zero lima_gpu_mali400 ∅ in
  let h := [] in
  held (klog m) = Some h ∧
  ∃ r m',
    lima_clk_init m = Some (r, m') ∧
    (r = 0 →
       clk_bus (ldev m') = kret (devm_clk_get "bus") ∧
       clk_gpu (ldev m') = kret (devm_clk_get "core") ∧
       reset (ldev m') = kret devm_reset_control_get_optional ∧
       held (klog m') = Some (clk_resources (ldev m') ++ h)) ∧
    (r ≠ 0 → held (klog m') = Some h).
Proof.
  intros K m h.
  assert (H1 : held (klog m) = Some h) by reflexivity.
  split; [exact H1|].
  exact (lima_clk_init_all_or_nothing (K := env_clk_gpu_fails) m h H1).
Defined.

(** The run spelt out: the bus clock is disabled again. *)
Example clk_gpu_failure_run :
  let m' := run_on (lima_clk_init (K := env_clk_gpu_fails))
                   (machine_zero lima_gpu_mali400 ∅) in
  lima_clk_init (K := env_clk_gpu_fails) (machine_zero lima_gpu_mali400 ∅)
  = Some (-5, m') ∧
  drop 5 (calls m') = [clk_prepare_enable 0x200; clk_disable_unprepare 0x100].
Proof. vm_compute. split; reflexivity. Qed.

Lemma lima_clk_init_fini_round_trip_witness :
  let K := env_all_ok in
  let m := machine_zero lima_gpu_mali400 ∅ in
  let m' := run_on lima_clk_init m in
  let h := [] in
  (held (klog m) = Some h ∧ lima_clk_init m = Some (0, m')) ∧
  ∃ m'',
    lima_clk_fini m' = Some (tt, m'') ∧
    calls m'' = calls m' ++ clk_fini_calls (ldev m') ∧
    ldev m'' = ldev m' ∧
    held (klog m'') = Some h.
Proof.
  intros K m m' h.
  assert (H1 : held (klog m) = Some h) by reflexivity.
  assert (H2 : lima_clk_init (K := env_all_ok) m = Some (0, m'))
    by (vm_compute; reflexivity).
  split; [exact (conj H1 H2)|].
  exact (lima_clk_init_fini_round_trip (K := env_all_ok) m m' h H1 H2).
Defined.

Lemma lima_regulator_init_absent_is_no_error_witness :
  let K := env_no_regulator in
  let m := machine_zero lima_gpu_mali400 ∅ in
  kret devm_regulator_get_optional = - ENODEV ∧
  ∃ m',
    lima_regulator_init m = Some (0, m') ∧
    regulator (ldev m') = NULL ∧
    calls m' = calls m ++ [devm_regulator_get_optional] ∧
    lima_regulator_fini m' = Some (tt, m').
Proof.
  intros K m.
  assert (H1 : @kret env_no_regulator devm_regulator_get_optional = - ENODEV)
    by (vm_compute; reflexivity).
  split; [exact H1|].
  exact (lima_regulator_init_absent_is_no_error (K := env_no_regulator) m H1).
Defined.

Lemma lima_regulator_init_fini_round_trip_witness :
  let K := env_all_ok in
  let m := run_on lima_clk_init (machine_zero lima_gpu_mali400 ∅) in
  let h := [res_clk 0x200; res_clk 0x100] in
  (regulator_not_null ∧ held (klog m) = Some h) ∧
  ∃ r m',
    lima_regulator_init m = Some (r, m') ∧
    (r ≠ 0 → held (klog m') = Some h) ∧
    (r = 0 →
     ∃ m'', lima_regulator_fini m' = Some (tt, m'') ∧
            ldev m'' = ldev m' ∧
            held (klog m'') = Some h).
Proof.
  intros K m h.
  assert (H1 : regulator_not_null (K := env_all_ok))
    by (intros _; vm_compute; discriminate).
  assert (H2 : held (klog m) = Some h) by (vm_compute; reflexivity).
  split; [exact (conj H1 H2)|].
  exact (lima_regulator_init_fini_round_trip (K := env_all_ok) m h H1 H2).
Defined.

(** ** Per-slot init

    On a Mali-400 the interrupt of the mandatory [gp] cannot be
    resolved. *)
Lemma init_ip_irq_failure_skips_init_witness :
  let K := env_gp_irq_fails in
  let C := consts_example in
  let m := machine_zero lima_gpu_mali400 ∅ in
  let index := lima_ip_gp in
  let desc := row lima_ip_gp in
  let x := lima_ip_zero in
  let irq := "gp"%string in
  (lima_ip_desc !! index = Some desc ∧
   ip (ldev m) !! index = Some x ∧
   0 ≤ offset desc (ldev_id (ldev m)) ∧
   irq_name desc = Some irq ∧
   kret (platform_get_irq_byname irq) < 0) ∧
  let must := must_have desc (ldev_id (ldev m)) in
  let err := kret (platform_get_irq_byname irq) in
  ∃ m' x',
    lima_init_ip index m = Some (if must then err else 0, m') ∧
    calls m' = calls m ++ [platform_get_irq_byname irq] ∧
    mmio m' = mmio m ∧
    ip (ldev m') !! index = Some x' ∧
    ip_present x' = ip_present x ∧
    ip_irq x' = ip_irq x ∧
    ∀ h, held (klog m) = Some h → held (klog m') = Some h.
Proof.
  intros K C m index desc x irq.
  assert (H1 : lima_ip_desc !! index = Some desc) by reflexivity.
  assert (H2 : ip (ldev m) !! index = Some x) by reflexivity.
  assert (H3 : 0 ≤ offset desc (ldev_id (ldev m))) by (vm_compute; discriminate).
  assert (H4 : irq_name desc = Some irq) by reflexivity.
  assert (H5 : @kret env_gp_irq_fails (platform_get_irq_byname irq) < 0)
    by (vm_compute; reflexivity).
  split; [exact (conj H1 (conj H2 (conj H3 (conj H4 H5))))|].
  exact (init_ip_irq_failure_skips_init (K := env_gp_irq_fails)
           (C := consts_example) index desc m x irq H1 H2 H3 H4 H5).
Defined.

Lemma init_ip_success_marks_present_witness :
  let K := env_all_ok in
  let C := consts_example in
  let m := machine_zero lima_gpu_mali400 ∅ in
  let index := lima_ip_gp in
  let desc := row lima_ip_gp in
  let x := lima_ip_zero in
  (lima_ip_desc !! index = Some desc ∧
   ip (ldev m) !! index = Some x ∧
   length (ip (ldev m)) = lima_ip_num ∧
   0 ≤ offset desc (ldev_id (ldev m)) ∧
   (∀ irq, irq_name desc = Some irq → 0 ≤ kret (platform_get_irq_byname irq)) ∧
   desc_init_ret desc index = 0) ∧
  ∃ m' x',
    lima_init_ip index m = Some (0, m') ∧
    ip (ldev m') !! index = Some x' ∧
    ip_present x' = true ∧
    window_assigned index (ldev_iomem (ldev m) + offset desc (ldev_id (ldev m))) x' ∧
    ip_irq x' = match irq_name desc with
                | Some irq => kret (platform_get_irq_byname irq)
                | None => ip_irq x
                end ∧
    calls m' = calls m ++ match irq_name desc with
                          | Some irq => [platform_get_irq_byname irq]
                          | None => []
                          end ++ [desc_init index] ∧
    ∀ h, held (klog m) = Some h → held (klog m') = Some (res_slot index :: h).
Proof.
  intros K C m index desc x.
  assert (H1 : lima_ip_desc !! index = Some desc) by reflexivity.
  assert (H2 : ip (ldev m) !! index = Some x) by reflexivity.
  assert (H3 : length (ip (ldev m)) = lima_ip_num) by reflexivity.
  assert (H4 : 0 ≤ offset desc (ldev_id (ldev m))) by (vm_compute; discriminate).
  assert (H5 : ∀ irq, irq_name desc = Some irq →
                 0 ≤ @kret env_all_ok (platform_get_irq_byname irq))
    by (intros irq _; vm_compute; discriminate).
  assert (H6 : desc_init_ret (K := env_all_ok) desc index = 0)
    by (vm_compute; reflexivity).
  split; [exact (conj H1 (conj H2 (conj H3 (conj H4 (conj H5 H6)))))|].
  exact (init_ip_success_marks_present (K := env_all_ok) (C := consts_example)
           index desc m x H1 H2 H3 H4 H5 H6).
Defined.

Lemma lima_ip_name_after_init_ip_witness :
  let K := env_all_ok in
  let C := consts_example in
  let m := machine_zero lima_gpu_mali400 ∅ in
  let index := lima_ip_gp in
  let desc := row lima_ip_gp in
  let x := lima_ip_zero in
  let m' := run_on (lima_init_ip index) m in
  (lima_ip_desc !! index = Some desc ∧
   ip (ldev m) !! index = Some x ∧
   length (ip (ldev m)) = lima_ip_num ∧
   lima_init_ip index m = Some (0, m')) ∧
  ∃ x', ip (ldev m') !! index = Some x' ∧
        lima_ip_name x'
        = if decide (0 ≤ offset desc (ldev_id (ldev m)))
          then Some (name desc) else lima_ip_name x.
Proof.
  intros K C m index desc x m'.
  assert (H1 : lima_ip_desc !! index = Some desc) by reflexivity.
  assert (H2 : ip (ldev m) !! index = Some x) by reflexivity.
  assert (H3 : length (ip (ldev m)) = lima_ip_num) by reflexivity.
  assert (H4 : lima_init_ip (K := env_all_ok) (C := consts_example) index m
               = Some (0, m')) by (vm_compute; reflexivity).
  split; [exact (conj H1 (conj H2 (conj H3 H4)))|].
  exact (lima_ip_name_after_init_ip (K := env_all_ok) (C := consts_example)
           index desc m x 0 m' H1 H2 H3 H4).
Defined.

(** Before per-slot init the zeroed instance of [gp] answers with the
    name of row 0; afterwards with its own. *)
Example lima_ip_name_gp :
  let m := machine_zero lima_gpu_mali400 ∅ in
  let m' := run_on (lima_init_ip (K := env_all_ok) (C := consts_example) lima_ip_gp) m in
  lima_ip_name (ip (ldev m) !!! lima_ip_gp) = Some "pmu"%string ∧
  lima_ip_name (ip (ldev m') !!! lima_ip_gp) = Some "gp"%string.
Proof. vm_compute. split; reflexivity. Qed.

(** ** Composing the fragment pipeline

    A Mali-450 on which the optional [pp2] failed to come up. *)
Lemma pp_pipe_lists_index_aligned_witness :
  let K := env_pp2_fails in
  let m := machine_after_slots env_pp2_fails lima_gpu_mali450 in
  (length (ip (ldev m)) = lima_ip_num ∧
   pipe_pp (ldev m) = lima_sched_pipe_zero ∧
   kret (lima_sched_pipe_init lima_pipe_pp) = 0) ∧
  ∃ r m',
    lima_init_pp_pipe m = Some (r, m') ∧
    processor_list (pipe_pp (ldev m'))
    = (λ i, Some (lima_ip_pp0 + i)%nat) <$> pp_positions (ldev m) ∧
    mmu_list (pipe_pp (ldev m'))
    = (λ i, Some (lima_ip_ppmmu0 + i)%nat) <$> pp_positions (ldev m) ∧
    ∀ i k, processor_list (pipe_pp (ldev m')) !! i = Some (Some (lima_ip_pp0 + k)%nat)
           ↔ mmu_list (pipe_pp (ldev m')) !! i = Some (Some (lima_ip_ppmmu0 + k)%nat).
Proof.
  intros K m.
  assert (H1 : length (ip (ldev m)) = lima_ip_num) by (vm_compute; reflexivity).
  assert (H2 : pipe_pp (ldev m) = lima_sched_pipe_zero) by (vm_compute; reflexivity).
  assert (H3 : @kret env_pp2_fails (lima_sched_pipe_init lima_pipe_pp) = 0)
    by (vm_compute; reflexivity).
  split; [exact (conj H1 (conj H2 H3))|].
  exact (pp_pipe_lists_index_aligned (K := env_pp2_fails) m H1 H2 H3).
Defined.

(** The two lists of that run. *)
Example pp_pipe_lists_mali450 :
  let m' := run_on (lima_init_pp_pipe (K := env_pp2_fails))
                   (machine_after_slots env_pp2_fails lima_gpu_mali450) in
  processor_list (pipe_pp (ldev m'))
  = Some <$> [5; 6; 8; 9; 10; 11; 12]%nat ∧
  mmu_list (pipe_pp (ldev m'))
  = Some <$> [14; 15; 17; 18; 19; 20; 21]%nat.
Proof. vm_compute. split; reflexivity. Qed.

Lemma pp_pipe_bcast_iff_present_witness :
  let K := env_all_ok in
  let m := machine_after_slots env_all_ok lima_gpu_mali400 in
  (length (ip (ldev m)) = lima_ip_num ∧
   pipe_pp (ldev m) = lima_sched_pipe_zero ∧
   kret (lima_sched_pipe_init lima_pipe_pp) = 0) ∧
  ∃ r m',
    lima_init_pp_pipe m = Some (r, m') ∧
    let present := ip_present (ip (ldev m) !!! lima_ip_bcast) in
    bcast_processor (pipe_pp (ldev m'))
    = (if present then Some lima_ip_pp_bcast else None) ∧
    bcast_mmu (pipe_pp (ldev m'))
    = (if present then Some lima_ip_ppmmu_bcast else None).
Proof.
  intros K m.
  assert (H1 : length (ip (ldev m)) = lima_ip_num) by (vm_compute; reflexivity).
  assert (H2 : pipe_pp (ldev m) = lima_sched_pipe_zero) by (vm_compute; reflexivity).
  assert (H3 : @kret env_all_ok (lima_sched_pipe_init lima_pipe_pp) = 0)
    by (vm_compute; reflexivity).
  split; [exact (conj H1 (conj H2 H3))|].
  exact (pp_pipe_bcast_iff_present (K := env_all_ok) m H1 H2 H3).
Defined.

(** A Mali-400 has no broadcast unit, a Mali-450 has one. *)
Example bcast_references_by_variant :
  let after id := run_on (lima_init_pp_pipe (K := env_all_ok))
                         (machine_after_slots env_all_ok id) in
  bcast_processor (pipe_pp (ldev (after lima_gpu_mali400))) = None ∧
  bcast_processor (pipe_pp (ldev (after lima_gpu_mali450))) = Some lima_ip_pp_bcast ∧
  bcast_mmu (pipe_pp (ldev (after lima_gpu_mali450))) = Some lima_ip_ppmmu_bcast.
Proof. vm_compute. repeat split. Qed.

Lemma pipe_composition_sched_failure_witness :
  let K := env_pp_sched_fails in
  let p := lima_pipe_pp in
  let m := machine_after_slots env_pp_sched_fails lima_gpu_mali450 in
  kret (lima_sched_pipe_init p) ≠ 0 ∧
  ∃ m',
    lima_init_pipe p m = Some (kret (lima_sched_pipe_init p), m') ∧
    ldev m' = ldev m ∧
    mmio m' = mmio m ∧
    calls m' = calls m ++ [lima_sched_pipe_init p] ∧
    ∀ h, held (klog m) = Some h → held (klog m') = Some h.
Proof.
  intros K p m.
  assert (H1 : @kret env_pp_sched_fails (lima_sched_pipe_init p) ≠ 0)
    by (vm_compute; discriminate).
  split; [exact H1|].
  exact (pipe_composition_sched_failure (K := env_pp_sched_fails) p m H1).
Defined.

(** ** Bring-up and teardown of the device

    On a Mali-450 the pipe-specific init of the fragment pipeline fails
    with [-ENOMEM], the last step of bring-up that can fail. *)
Lemma device_init_failure_holds_nothing_witness :
  let K := env_pp_pipe_fails in
  let C := consts_example in
  regulator_not_null ∧
  ∃ r m',
    lima_device_init (machine_zero lima_gpu_mali450 ∅) = Some (r, m') ∧
    (r ≠ 0 → held (klog m') = Some []).
Proof.
  intros K C.
  assert (H1 : regulator_not_null (K := env_pp_pipe_fails))
    by (intros _; vm_compute; discriminate).
  split; [exact H1|].
  exact (device_init_failure_holds_nothing (K := env_pp_pipe_fails)
           (C := consts_example) lima_gpu_mali450 ∅ H1).
Defined.

(** The run spelt out: 34 resources were held when the failure arose. *)
Example pp_pipe_failure_run :
  let m' := machine_after_init env_pp_pipe_fails lima_gpu_mali450 in
  lima_device_init (K := env_pp_pipe_fails) (C := consts_example)
    (machine_zero lima_gpu_mali450 ∅) = Some (- ENOMEM, m') ∧
  length <$> held (take 64 (klog m')) = Some 34%nat ∧
  held (klog m') = Some [].
Proof. vm_compute. repeat split. Qed.

Lemma device_init_success_state_witness :
  let K := env_pp2_fails in
  let C := consts_example in
  let id := lima_gpu_mali450 in
  let m' := machine_after_init env_pp2_fails id in
  lima_device_init (machine_zero id ∅) = Some (0, m') ∧
  let d := ldev m' in
  ldev_id d = id ∧
  slots_probed d ∧
  pipe_gp d = gp_pipe_composed ∧
  pipe_pp d = pp_pipe_composed d ∧
  va_start d = 0 ∧
  va_end d = (if decide (id = lima_gpu_mali450)
              then LIMA_VA_RESERVE_START else LIMA_VA_RESERVE_END) ∧
  dlbu_cpu d = (if decide (id = lima_gpu_mali450) then kret dma_alloc_wc else NULL) ∧
  (dlbu_cpu d ≠ NULL ↔ id = lima_gpu_mali450) ∧
  ldev_iomem d = kret (devm_ioremap_resource (kret platform_get_resource)) ∧
  ∀ e, e ∈ klog m' → released e = None.
Proof.
  intros K C id m'.
  assert (H1 : lima_device_init (K := env_pp2_fails) (C := consts_example)
                 (machine_zero id ∅) = Some (0, m'))
    by (vm_compute; reflexivity).
  split; [exact H1|].
  exact (device_init_success_state (K := env_pp2_fails) (C := consts_example)
           id ∅ m' H1).
Defined.

Lemma device_init_fini_round_trip_witness :
  let K := env_pp2_fails in
  let C := consts_example in
  let id := lima_gpu_mali450 in
  let m' := machine_after_init env_pp2_fails id in
  (regulator_not_null ∧ lima_device_init (machine_zero id ∅) = Some (0, m')) ∧
  ∃ m'',
    lima_device_fini m' = Some (tt, m'') ∧
    calls m'' = calls m' ++ device_fini_calls (ldev m') ∧
    ldev m'' = ldev m' ∧
    held (klog m') = Some (held_after_init (ldev m')) ∧
    held (klog m'') = Some [].
Proof.
  intros K C id m'.
  assert (H1 : regulator_not_null (K := env_pp2_fails))
    by (intros _; vm_compute; discriminate).
  assert (H2 : lima_device_init (K := env_pp2_fails) (C := consts_example)
                 (machine_zero id ∅) = Some (0, m'))
    by (vm_compute; reflexivity).
  split; [exact (conj H1 H2)|].
  exact (device_init_fini_round_trip (K := env_pp2_fails) (C := consts_example)
           id ∅ m' H1 H2).
Defined.

(** The teardown of that device: [pp2] (position 7), which never came
    up, is not finalized. *)
Example device_fini_calls_mali450 :
  take 7 (device_fini_calls
            (ldev (machine_after_init env_pp2_fails lima_gpu_mali450)))
  = [lima_pp_pipe_fini; lima_sched_pipe_fini lima_pipe_pp;
     lima_gp_pipe_fini; lima_sched_pipe_fini lima_pipe_gp;
     desc_fini 25; desc_fini 24; desc_fini 23] ∧
  desc_fini 7 ∉ device_fini_calls
                  (ldev (machine_after_init env_pp2_fails lima_gpu_mali450)).
Proof.
  split; [vm_compute; reflexivity|].
  intros H. apply list_elem_of_In in H. vm_compute in H.
  repeat (destruct H as [H|H]; [discriminate H|]). exact H.
Qed.


Lemma device_init_pipe_failure_unwinds_witness :
  let K := env_pp_pipe_fails in
  let C := consts_example in
  let id := lima_gpu_mali450 in
  let m' := machine_after_init env_pp_pipe_fails id in
  let p := lima_pipe_pp in
  let r := - ENOMEM in
  let s := kret (lima_sched_pipe_init p) in
  let e := kret (pipe_init_call p) in
  (lima_device_init (machine_zero id ∅) = Some (r, m') ∧
   lima_sched_pipe_init p ∈ calls m' ∧
   (s ≠ 0 ∨ e ≠ 0)) ∧
  r = (if decide (s ≠ 0) then s else e) ∧
  ∃ t,
    calls m'
    = t ++ [lima_sched_pipe_init p]
        ++ (if decide (s ≠ 0) then [] else [pipe_init_call p; lima_sched_pipe_fini p])
        ++ composed_before p
        ++ fini_calls (ldev m') lima_ip_num ++ release_calls (ldev m').
Proof.
  intros K C id m' p r s e.
  assert (H1 : lima_device_init (K := env_pp_pipe_fails) (C := consts_example)
                 (machine_zero id ∅) = Some (r, m'))
    by (vm_compute; reflexivity).
  assert (H2 : lima_sched_pipe_init p ∈ calls m')
    by (apply (list_elem_of_lookup_2 _ 62); vm_compute; reflexivity).
  assert (H3 : s ≠ 0 ∨ e ≠ 0) by (right; vm_compute; discriminate).
  split; [exact (conj H1 (conj H2 H3))|].
  exact (device_init_pipe_failure_unwinds (K := env_pp_pipe_fails)
           (C := consts_example) id ∅ r m' p H1 H2 H3).
Defined.

(** On a Mali-450 the load-balancer page cannot be allocated. *)
Lemma device_init_alloc_failure_returns_enomem_witness :
  let K := env_dma_fails in
  let C := consts_example in
  let id := lima_gpu_mali450 in
  let m' := machine_after_init env_dma_fails id in
  let c := dma_alloc_wc in
  let r := - ENOMEM in
  (lima_device_init (machine_zero id ∅) = Some (r, m') ∧
   c ∈ calls m' ∧
   (c = lima_vm_create ∨ c = dma_alloc_wc) ∧
   kret c = NULL) ∧
  r = - ENOMEM ∧
  ∃ t, calls m' = t ++ [c] ++ alloc_unwind_calls c (ldev m').
Proof.
  intros K C id m' c r.
  assert (H1 : lima_device_init (K := env_dma_fails) (C := consts_example)
                 (machine_zero id ∅) = Some (r, m'))
    by (vm_compute; reflexivity).
  assert (H2 : c ∈ calls m')
    by (apply (list_elem_of_lookup_2 _ 11); vm_compute; reflexivity).
  assert (H3 : c = lima_vm_create ∨ c = dma_alloc_wc) by (right; reflexivity).
  assert (H4 : @kret env_dma_fails c = NULL) by (vm_compute; reflexivity).
  split; [exact (conj H1 (conj H2 (conj H3 H4)))|].
  exact (device_init_alloc_failure_returns_enomem (K := env_dma_fails)
           (C := consts_example) id ∅ r m' c H1 H2 H3 H4).
Defined.

(** The run spelt out: the virtual-memory-space object is put, the
    regulator disabled and both clocks disabled; nothing is mapped. *)
Example dma_failure_run :
  drop 11 (calls (machine_after_init env_dma_fails lima_gpu_mali450))
  = [dma_alloc_wc; lima_vm_put 0x400; regulator_disable 0x300;
     clk_disable_unprepare 0x200; clk_disable_unprepare 0x100].
Proof. vm_compute. reflexivity. Qed.
